(** * Trademark pipeline: extraction, normalization and flattening

    A shallow embedding of [data_transformer.py] and [data_cleaner.py]:
    the Python values the two modules pass around, the small part of the
    Python runtime they call ([str] methods, [re], [datetime.strptime]),
    the functions of [DataTransformer] and [DataCleaner] themselves, and
    the properties the specification states about them.

    Conventions.
    - A Python [dict] with string keys is a [gmap string value]; Python's
      [==] on such dicts is Leibniz equality of the maps.
    - Text is ASCII: [isspace], [upper], [lower] and the character classes
      of [re] are the restrictions of Python's to code points below 128.
    - A call that raises is a [Raise e]; everything else is [Ok]. *)

From Stdlib Require Import ZArith String Ascii List Bool Lia.
From Stdlib Require Import SpecFloat DecimalString DecimalPos.
From stdpp Require Import gmap strings list fin_maps.

Set Warnings "-register-all".
Open Scope string_scope.

(** ** Python values *)

(** A naive [datetime.datetime]. *)
Record datetime := Datetime {
  dt_year : Z; dt_month : Z; dt_day : Z;
  dt_hour : Z; dt_minute : Z; dt_second : Z; dt_microsecond : Z
}.

Inductive value : Type :=
| VNone
| VBool (b : bool)
| VInt (n : Z)
| VFloat (f : spec_float)
| VStr (s : string)
| VList (l : list value)
| VDict (d : gmap string value)
| VDatetime (t : datetime).

Abbreviation dict := (gmap string value).

(** The exceptions the two modules can meet. *)
Inductive exn := AttributeError | TypeError | ValueError | OverflowError | OSError.

Inductive result (A : Type) : Type :=
| Ok (a : A)
| Raise (e : exn).
Arguments Ok {A} a.
Arguments Raise {A} e.

Definition bind {A B} (m : result A) (f : A -> result B) : result B :=
  match m with
  | Ok a => f a
  | Raise e => Raise e
  end.

Definition is_ok {A} (m : result A) : bool :=
  match m with
  | Ok _ => true
  | Raise _ => false
  end.

Notation "'let!' x ':=' m 'in' k" := (bind m (fun x => k))
  (at level 10, x name, m at level 100, k at level 200).

(** Truth value of an object, as [if x:], [not x], [x or y] and [any] test it. *)
Definition float_is_zero (f : spec_float) : bool :=
  match f with
  | S754_zero _ => true
  | _ => false
  end.

Definition dict_is_empty (d : dict) : bool :=
  match map_to_list d with
  | [] => true
  | _ => false
  end.

Definition truthy (v : value) : bool :=
  match v with
  | VNone => false
  | VBool b => b
  | VInt n => negb (n =? 0)%Z
  | VFloat f => negb (float_is_zero f)
  | VStr s => negb (String.eqb s "")
  | VList l => match l with [] => false | _ => true end
  | VDict d => negb (dict_is_empty d)
  | VDatetime _ => true
  end.

(** [a or b]. *)
Definition py_or (a b : value) : value := if truthy a then a else b.

(** [d.get(k)] and [d.get(k, dflt)]. *)
Definition get_or (d : dict) (k : string) (dflt : value) : value :=
  match d !! k with
  | Some v => v
  | None => dflt
  end.

Definition get (d : dict) (k : string) : value := get_or d k VNone.

(** [v is not None and v != ""]: the acceptance test of the field lookups. *)
Definition usable (v : value) : bool :=
  match v with
  | VNone => false
  | VStr s => negb (String.eqb s "")
  | _ => true
  end.

Definition is_none (v : value) : bool :=
  match v with
  | VNone => true
  | _ => false
  end.

(** [x == k] for a string literal [k]. *)
Definition is_str (k : string) (v : value) : bool :=
  match v with
  | VStr s => String.eqb s k
  | _ => false
  end.

(** ** Strings *)

Definition code (c : ascii) : nat := nat_of_ascii c.

(** [str.isspace] on one ASCII character; also the class [\s] of [re]. *)
Definition isspace (c : ascii) : bool :=
  let n := code c in
  (((9 <=? n) && (n <=? 13)) || ((28 <=? n) && (n <=? 32)))%nat.

(** The class [\d] of [re]. *)
Definition isdigit (c : ascii) : bool :=
  let n := code c in ((48 <=? n) && (n <=? 57))%nat.

Definition upper_char (c : ascii) : ascii :=
  let n := code c in
  if ((97 <=? n) && (n <=? 122))%nat then ascii_of_nat (n - 32) else c.

Definition lower_char (c : ascii) : ascii :=
  let n := code c in
  if ((65 <=? n) && (n <=? 90))%nat then ascii_of_nat (n + 32) else c.

Fixpoint smap (f : ascii -> ascii) (s : string) : string :=
  match s with
  | EmptyString => EmptyString
  | String c s' => String (f c) (smap f s')
  end.

Definition upper (s : string) : string := smap upper_char s.
Definition lower (s : string) : string := smap lower_char s.

Fixpoint lstrip (s : string) : string :=
  match s with
  | EmptyString => EmptyString
  | String c s' => if isspace c then lstrip s' else s
  end.

Fixpoint rstrip (s : string) : string :=
  match s with
  | EmptyString => EmptyString
  | String c s' =>
      match rstrip s' with
      | EmptyString => if isspace c then EmptyString else String c EmptyString
      | r => String c r
      end
  end.

(** [s.strip()]. *)
Definition strip (s : string) : string := rstrip (lstrip s).

(** [c in s] for a one-character [c]. *)
Fixpoint contains_char (c : ascii) (s : string) : bool :=
  match s with
  | EmptyString => false
  | String x s' => Ascii.eqb x c || contains_char c s'
  end.

(** [s.split(sep)] for a one-character separator. *)
Fixpoint split_on (sep : ascii) (s : string) : list string :=
  match s with
  | EmptyString => [EmptyString]
  | String c s' =>
      if Ascii.eqb c sep then EmptyString :: split_on sep s'
      else match split_on sep s' with
           | [] => [String c EmptyString]
           | w :: ws => String c w :: ws
           end
  end.

(** [sep.join(l)]. *)
Fixpoint join (sep : string) (l : list string) : string :=
  match l with
  | [] => EmptyString
  | [x] => x
  | x :: l' => x ++ sep ++ join sep l'
  end.

(** The first [n] characters of [s]. *)
Fixpoint take_str (n : nat) (s : string) : string :=
  match n, s with
  | S n', String c s' => String c (take_str n' s')
  | _, _ => EmptyString
  end.

(** [str(n)] for an [int]. *)
Definition str_of_Z (n : Z) : string := NilZero.string_of_int (Z.to_int n).

(** ** Regular expressions

    The patterns of the two modules use literals, character classes, a
    greedy [+] over a class, concatenation, alternation, a greedy [?], the
    anchor [$] and groups. [rmatch] is the backtracking matcher of [re]:
    alternatives are tried from the left, quantifiers are greedy, and the
    first way of matching the whole pattern wins. *)

Inductive regex : Type :=
| REps
| RChr (c : ascii)
| RSet (p : ascii -> bool)
| RPlus (p : ascii -> bool)
| RSeq (r1 r2 : regex)
| RAlt (r1 r2 : regex)
| ROpt (r : regex)
| REnd
| RGroup (name : string) (r : regex).

Definition captures := list (string * string).

(** A literal character, under [re.IGNORECASE] when [ic] is set. *)
Definition chr_eq (ic : bool) (c x : ascii) : bool :=
  if ic then Ascii.eqb (lower_char c) (lower_char x) else Ascii.eqb c x.

(** [$]: the end of the string, or just before a newline that ends it. *)
Definition at_end (s : string) : bool :=
  match s with
  | EmptyString => true
  | String c EmptyString => Ascii.eqb c "010"%char
  | _ => false
  end.

(** One or more characters of a class, the longest run first. *)
Fixpoint plus_run {A} (p : ascii -> bool) (s : string) (k : string -> option A)
  : option A :=
  match s with
  | EmptyString => None
  | String c s' =>
      if p c then
        match plus_run p s' k with
        | Some a => Some a
        | None => k s'
        end
      else None
  end.

Fixpoint rmatch {A} (ic : bool) (r : regex) (s : string) (cs : captures)
    (k : string -> captures -> option A) : option A :=
  match r with
  | REps => k s cs
  | RChr c =>
      match s with
      | String x s' => if chr_eq ic c x then k s' cs else None
      | EmptyString => None
      end
  | RSet p =>
      match s with
      | String x s' => if p x then k s' cs else None
      | EmptyString => None
      end
  | RPlus p => plus_run p s (fun s' => k s' cs)
  | RSeq r1 r2 => rmatch ic r1 s cs (fun s' cs' => rmatch ic r2 s' cs' k)
  | RAlt r1 r2 =>
      match rmatch ic r1 s cs k with
      | Some a => Some a
      | None => rmatch ic r2 s cs k
      end
  | ROpt r1 =>
      match rmatch ic r1 s cs k with
      | Some a => Some a
      | None => k s cs
      end
  | REnd => if at_end s then k s cs else None
  | RGroup name r1 =>
      rmatch ic r1 s cs
        (fun s' cs' =>
           k s' ((name, take_str (String.length s - String.length s') s) :: cs'))
  end.

(** A match of [r] at the start of [s]: how many characters it takes, and
    its groups. *)
Definition match_at (ic : bool) (r : regex) (s : string) : option (nat * captures) :=
  rmatch ic r s [] (fun s' cs => Some (String.length s - String.length s', cs)).

Fixpoint rstr (w : string) : regex :=
  match w with
  | EmptyString => REps
  | String c EmptyString => RChr c
  | String c w' => RSeq (RChr c) (rstr w')
  end.

Fixpoint ralt (rs : list regex) : regex :=
  match rs with
  | [] => REps
  | [r] => r
  | r :: rs' => RAlt r (ralt rs')
  end.

Fixpoint rseq (rs : list regex) : regex :=
  match rs with
  | [] => REps
  | [r] => r
  | r :: rs' => RSeq r (rseq rs')
  end.

(** [re.sub(r, repl, s)] for a literal replacement: the scan goes from the
    left, a match is replaced and the scan resumes after it; [skip] counts
    the characters of the current match still to pass. *)
Fixpoint sub_scan (ic : bool) (r : regex) (repl : string) (s : string) (skip : nat)
  : string :=
  match skip with
  | S n =>
      match s with
      | String _ s' => sub_scan ic r repl s' n
      | EmptyString => EmptyString
      end
  | O =>
      match match_at ic r s with
      | Some (S n, _) =>
          match s with
          | String _ s' => repl ++ sub_scan ic r repl s' n
          | EmptyString => repl
          end
      | Some (O, _) =>
          match s with
          | String c s' => repl ++ String c (sub_scan ic r repl s' 0)
          | EmptyString => repl
          end
      | None =>
          match s with
          | String c s' => String c (sub_scan ic r repl s' 0)
          | EmptyString => EmptyString
          end
      end
  end.

Definition re_sub (ic : bool) (r : regex) (repl s : string) : string :=
  sub_scan ic r repl s 0.

(** [re.findall(r, s)] for a pattern with one group, named [g]: the text of
    that group in each match, from the left. *)
Fixpoint findall_scan (ic : bool) (r : regex) (g : string) (s : string) (skip : nat)
  : list string :=
  let group cs :=
    match List.find (fun p => String.eqb (fst p) g) cs with
    | Some p => snd p
    | None => EmptyString
    end in
  match skip with
  | S n =>
      match s with
      | String _ s' => findall_scan ic r g s' n
      | EmptyString => []
      end
  | O =>
      match match_at ic r s with
      | Some (S n, cs) =>
          match s with
          | String _ s' => group cs :: findall_scan ic r g s' n
          | EmptyString => [group cs]
          end
      | Some (O, cs) =>
          match s with
          | String _ s' => group cs :: findall_scan ic r g s' 0
          | EmptyString => [group cs]
          end
      | None =>
          match s with
          | String _ s' => findall_scan ic r g s' 0
          | EmptyString => []
          end
      end
  end.

Definition re_findall (ic : bool) (r : regex) (g : string) (s : string) : list string :=
  findall_scan ic r g s 0.

(** ** Dates: [datetime.strptime] and [strftime]

    [strptime] compiles a format into a pattern, as the library does: a
    directive becomes a named group, a run of white space becomes [\s+],
    anything else is a literal; the pattern is matched at the start of the
    text under [re.IGNORECASE] and must take all of it. The directives are
    those of the formats in [_normalize_date], with the month names of the
    default (C) locale. *)

Definition in_range (lo hi : ascii) (c : ascii) : bool :=
  ((code lo <=? code c) && (code c <=? code hi))%nat.

Definition month_names : list string :=
  ["january"; "february"; "march"; "april"; "may"; "june"; "july";
   "august"; "september"; "october"; "november"; "december"].

Definition month_abbrs : list string :=
  ["jan"; "feb"; "mar"; "apr"; "may"; "jun"; "jul"; "aug"; "sep"; "oct";
   "nov"; "dec"].

(** The names as the library orders them in the pattern: longest first,
    otherwise in calendar order. *)
Definition month_names_by_length : list string :=
  ["september"; "february"; "november"; "december"; "january"; "october";
   "august"; "march"; "april"; "june"; "july"; "may"].

Definition rdigit : regex := RSet isdigit.
Definition rrange (lo hi : ascii) : regex := RSet (in_range lo hi).

Definition directive_regex (d : ascii) : option regex :=
  let body :=
    if Ascii.eqb d "d" then
      Some (ralt [RSeq (RChr "3") (rrange "0" "1"); RSeq (rrange "1" "2") rdigit;
                  RSeq (RChr "0") (rrange "1" "9"); rrange "1" "9";
                  RSeq (RChr " ") (rrange "1" "9")])
    else if Ascii.eqb d "H" then
      Some (ralt [RSeq (RChr "2") (rrange "0" "3"); RSeq (rrange "0" "1") rdigit;
                  rdigit])
    else if Ascii.eqb d "m" then
      Some (ralt [RSeq (RChr "1") (rrange "0" "2"); RSeq (RChr "0") (rrange "1" "9");
                  rrange "1" "9"])
    else if Ascii.eqb d "M" then
      Some (ralt [RSeq (rrange "0" "5") rdigit; rdigit])
    else if Ascii.eqb d "S" then
      Some (ralt [RSeq (RChr "6") (rrange "0" "1"); RSeq (rrange "0" "5") rdigit;
                  rdigit])
    else if Ascii.eqb d "Y" then
      Some (rseq [rdigit; rdigit; rdigit; rdigit])
    else if Ascii.eqb d "B" then
      Some (ralt (List.map rstr month_names_by_length))
    else if Ascii.eqb d "b" then
      Some (ralt (List.map rstr month_abbrs))
    else None in
  match body with
  | Some r => Some (RGroup (String d EmptyString) r)
  | None => None
  end.

(** The pattern of a format; [None] is the library's [ValueError] for a
    directive it does not know. [in_ws] is set inside a run of white space. *)
Fixpoint format_regex (in_ws : bool) (fmt : string) : option regex :=
  match fmt with
  | EmptyString => Some REps
  | String c fmt' =>
      if Ascii.eqb c "%" then
        match fmt' with
        | String d fmt'' =>
            match directive_regex d, format_regex false fmt'' with
            | Some r, Some rest => Some (RSeq r rest)
            | _, _ => None
            end
        | EmptyString => None
        end
      else if isspace c then
        match format_regex true fmt' with
        | Some rest => Some (if in_ws then rest else RSeq (RPlus isspace) rest)
        | None => None
        end
      else
        match format_regex false fmt' with
        | Some rest => Some (RSeq (RChr c) rest)
        | None => None
        end
  end.

(** [int(s)] for the text of a numeric group: digits, after an optional space. *)
Definition digit_val (c : ascii) : Z := Z.of_nat (code c - 48).

Fixpoint digits_val (acc : Z) (s : string) : Z :=
  match s with
  | EmptyString => acc
  | String c s' => digits_val (10 * acc + digit_val c) s'
  end.

Definition int_of_group (s : string) : Z := digits_val 0 (strip s).

Fixpoint index_of (w : string) (l : list string) (i : Z) : option Z :=
  match l with
  | [] => None
  | x :: l' => if String.eqb x w then Some i else index_of w l' (i + 1)
  end.

Definition group (cs : captures) (name : string) : option string :=
  match List.find (fun p => String.eqb (fst p) name) cs with
  | Some p => Some (snd p)
  | None => None
  end.

Definition is_leap (y : Z) : bool :=
  ((y mod 4 =? 0) && (negb (y mod 100 =? 0) || (y mod 400 =? 0)))%Z.

Definition days_in_month (y m : Z) : Z :=
  if (m =? 2)%Z then (if is_leap y then 29 else 28)
  else if ((m =? 4) || (m =? 6) || (m =? 9) || (m =? 11))%Z then 30
  else 31.

(** The checks of the [datetime] constructor. *)
Definition valid_datetime (t : datetime) : bool :=
  ((1 <=? dt_year t) && (dt_year t <=? 9999) &&
   (1 <=? dt_month t) && (dt_month t <=? 12) &&
   (1 <=? dt_day t) && (dt_day t <=? days_in_month (dt_year t) (dt_month t)) &&
   (0 <=? dt_hour t) && (dt_hour t <=? 23) &&
   (0 <=? dt_minute t) && (dt_minute t <=? 59) &&
   (0 <=? dt_second t) && (dt_second t <=? 59))%Z.

(** The fields a match gives, with the library's defaults for the others. *)
Definition datetime_of_groups (cs : captures) : option datetime :=
  let num name dflt :=
    match group cs name with
    | Some s => int_of_group s
    | None => dflt
    end in
  let month :=
    match group cs "B", group cs "b" with
    | Some s, _ => index_of (lower s) month_names 1
    | None, Some s => index_of (lower s) month_abbrs 1
    | None, None => Some (num "m" 1%Z)
    end in
  match month with
  | Some m =>
      let t := Datetime (num "Y" 1900%Z) m (num "d" 1%Z)
                        (num "H" 0%Z) (num "M" 0%Z) (num "S" 0%Z) 0 in
      if valid_datetime t then Some t else None
  | None => None
  end.

(** [datetime.strptime(s, fmt)]; [None] is its [ValueError]. *)
Definition strptime (s fmt : string) : option datetime :=
  match format_regex false fmt with
  | Some r =>
      match match_at true r s with
      | Some (n, cs) =>
          if (n =? String.length s)%nat then datetime_of_groups cs else None
      | None => None
      end
  | None => None
  end.

Fixpoint zeros (n : nat) : string :=
  match n with
  | O => EmptyString
  | S n' => String "0" (zeros n')
  end.

(** A number in at least [w] digits. *)
Definition pad (w : nat) (n : Z) : string :=
  let s := str_of_Z n in zeros (w - String.length s) ++ s.

(** [t.strftime("%Y-%m-%d")]. The C library writes the year of [%Y] as it
    is, without leading zeros: the year 999 gives ["999-01-01"]. The month
    and the day take two digits. *)
Definition strftime_ymd (t : datetime) : string :=
  str_of_Z (dt_year t) ++ "-" ++ pad 2 (dt_month t) ++ "-" ++ pad 2 (dt_day t).

(** [t.isoformat(sep)] up to the seconds' fraction; here the year takes four
    digits. *)
Definition isoformat_date (t : datetime) : string :=
  pad 4 (dt_year t) ++ "-" ++ pad 2 (dt_month t) ++ "-" ++ pad 2 (dt_day t).

(** [str(t)] for a [datetime], which is [t.isoformat(" ")]. *)
Definition str_of_datetime (t : datetime) : string :=
  isoformat_date t ++ " " ++ pad 2 (dt_hour t) ++ ":" ++ pad 2 (dt_minute t)
    ++ ":" ++ pad 2 (dt_second t)
    ++ (if (dt_microsecond t =? 0)%Z then EmptyString
         else "." ++ pad 6 (dt_microsecond t)).

(** ** [data_transformer.py] *)

Module DataTransformer.

(** [for f in fields: if f in d: ... d[f]; break]: the value under the
    first of [fields] that is a key of [d]. *)
Fixpoint first_present (fields : list string) (d : dict) : option value :=
  match fields with
  | [] => None
  | f :: fields' =>
      match d !! f with
      | Some v => Some v
      | None => first_present fields' d
      end
  end.

(** The search loop of [_extract_classes] and [_extract_owner]: sources in
    order, in each the first field present; the loop stops at the first
    truthy value, and otherwise keeps the last value it met. *)
Fixpoint scan_sources (fields : list string) (sources : list value) (found : value)
  : value :=
  match sources with
  | [] => found
  | VDict d :: rest =>
      let found' :=
        match first_present fields d with
        | Some v => v
        | None => found
        end in
      if truthy found' then found' else scan_sources fields rest found'
  | _ :: rest => scan_sources fields rest found
  end.

(** [raw_data = record.get("raw_data", {}) or {}],
    [excel_data = raw_data.get("_raw_excel_data", {}) or {}],
    [all_sources = [record, raw_data, excel_data]]. A truthy [raw_data]
    that is not a dict has no [get]. *)
Definition all_sources (record : dict) : result (list value) :=
  let raw_data := py_or (get_or record "raw_data" (VDict ∅)) (VDict ∅) in
  match raw_data with
  | VDict rd =>
      let excel_data := py_or (get_or rd "_raw_excel_data" (VDict ∅)) (VDict ∅) in
      Ok [VDict record; raw_data; excel_data]
  | _ => Raise AttributeError
  end.

(** The descent of a dotted key. *)
Fixpoint descend (v : value) (keys : list string) : value :=
  match keys with
  | [] => v
  | k :: keys' =>
      match v with
      | VDict d =>
          match d !! k with
          | Some v' => descend v' keys'
          | None => VNone
          end
      | _ => VNone
      end
  end.

Fixpoint _extract_field (record : dict) (possible_keys : list string) (default : value)
  : value :=
  match possible_keys with
  | [] => default
  | key :: keys =>
      if contains_char "." key then
        let v := descend (VDict record) (split_on "." key) in
        if negb (is_none v) then v else _extract_field record keys default
      else
        match record !! key with
        | Some v => if usable v then v else _extract_field record keys default
        | None => _extract_field record keys default
        end
  end.

Fixpoint _extract_field_multisource (sources : list value) (possible_keys : list string)
    (default : value) : value :=
  match sources with
  | [] => default
  | VDict d :: rest =>
      let v := _extract_field d possible_keys VNone in
      if usable v then v else _extract_field_multisource rest possible_keys default
  | _ :: rest => _extract_field_multisource rest possible_keys default
  end.

(** [re.sub(r'\s+', ' ', text.strip())], guarded. *)
Definition ws_plus : regex := RPlus isspace.

Definition _normalize_text (text : value) : value :=
  match text with
  | VStr s => if truthy text then VStr (re_sub false ws_plus " " (strip s)) else text
  | _ => text
  end.

(** The candidate keys of the fields that [transform_trademark] resolves
    through [_extract_field_multisource]. *)
Inductive field :=
| registration_number | serial_number | registration_date | expiry_date
| status | mark_text | mark_drawing_code | filing_date | published_date
| goods_services.

Definition candidate_keys (f : field) : list string :=
  match f with
  | registration_number =>
      ["registrationNumber"; "regNumber"; "registration_number"; "regNum";
       "application_number"; "Application Number"]
  | serial_number =>
      ["serialNumber"; "serial_number"; "serialNum"; "applicationNumber";
       "application_id"; "Application Id"]
  | registration_date =>
      ["registrationDate"; "registration_date"; "regDate"; "registeredDate"]
  | expiry_date => ["expiryDate"; "expiry_date"; "expirationDate"; "expDate"]
  | status => ["status"; "markStatus"; "currentStatus"; "statusCode"]
  | mark_text =>
      ["markText"; "mark_text"; "wordMark"; "markDescription"; "title"; "Title"]
  | mark_drawing_code => ["markDrawingCode"; "mark_drawing_code"; "drawingCode"]
  | filing_date =>
      ["filingDate"; "filing_date"; "applicationDate"; "appDate";
       "application_date"; "Application Date"]
  | published_date => ["publishedDate"; "publicationDate"; "pubDate"]
  | goods_services =>
      ["goodsServices"; "goods_services"; "description"; "goodsAndServices"]
  end.

Definition date_formats : list string :=
  ["%Y-%m-%d"; "%Y/%m/%d"; "%m/%d/%Y"; "%d/%m/%Y"; "%d.%m.%Y"; "%d-%m-%Y";
   "%Y-%m-%dT%H:%M:%S"; "%Y-%m-%dT%H:%M:%SZ"; "%Y-%m-%d %H:%M:%S";
   "%B %d, %Y"; "%b %d, %Y"; "%d %B %Y"; "%d %b %Y"].

(** The loop over the formats: the first that parses. *)
Fixpoint first_format (s : string) (formats : list string) : option datetime :=
  match formats with
  | [] => None
  | fmt :: formats' =>
      match strptime s fmt with
      | Some t => Some t
      | None => first_format s formats'
      end
  end.

Definition class_fields : list string :=
  ["classes"; "internationalClasses"; "classCodes"; "goodsServicesClasses";
   "trademarkClasses"; "i_p_c"; "I P C"; "ipc"].

Definition owner_fields : list string :=
  ["owner"; "applicant"; "assignee"; "ownerName"; "applicantName"].

Definition rep_fields : list string :=
  ["representative"; "attorney"; "correspondent"; "lawyer"; "representativeName"].

Definition event_fields : list string :=
  ["events"; "history"; "prosecutionHistory"; "statusHistory"; "eventHistory"].

(** [r'[Cc]lass\s+(\d+)']. *)
Definition class_pattern : regex :=
  rseq [RSet (fun c => Ascii.eqb c "C" || Ascii.eqb c "c"); rstr "lass";
        RPlus isspace; RGroup "1" (RPlus isdigit)].

Definition class_entry (class_number description : value) : value :=
  VDict (<["class_number" := class_number]> (<["description" := description]> ∅)).

Definition _extract_representative (record : dict) : value :=
  let rep_data :=
    match first_present rep_fields record with
    | Some v => v
    | None => VNone
    end in
  let '(name, firm, address, phone, email) :=
    match rep_data with
    | VDict d =>
        if truthy rep_data then
          (py_or (get d "name") (get d "attorneyName"),
           py_or (get d "firm") (get d "lawFirm"),
           get d "address",
           py_or (get d "phone") (get d "telephone"),
           get d "email")
        else (VNone, VNone, VNone, VNone, VNone)
    | _ => (VNone, VNone, VNone, VNone, VNone)
    end in
  if truthy name || truthy firm || truthy address || truthy phone || truthy email
  then VDict (<["name" := name]> (<["firm" := firm]> (<["address" := address]>
               (<["phone" := phone]> (<["email" := email]> ∅)))))
  else VNone.

Definition _extract_owner (record : dict) : result value :=
  let! sources := all_sources record in
  let owner_data := scan_sources owner_fields sources VNone in
  let '(name, address, city, state, country, postal_code) :=
    if truthy owner_data then
      match owner_data with
      | VDict d =>
          (py_or (py_or (get d "name") (get d "ownerName")) (get d "applicantName"),
           match first_present ["address"; "street"; "streetAddress"] d with
           | Some v => v
           | None => VNone
           end,
           get d "city",
           py_or (get d "state") (get d "stateProvince"),
           py_or (get d "country") (get d "countryCode"),
           py_or (py_or (get d "postalCode") (get d "postal_code")) (get d "zip"))
      | VStr _ => (owner_data, VNone, VNone, VNone, VNone, VNone)
      | _ => (VNone, VNone, VNone, VNone, VNone, VNone)
      end
    else (VNone, VNone, VNone, VNone, VNone, VNone) in
  let country :=
    if truthy country then country
    else _extract_field_multisource sources ["country"; "Country"] VNone in
  let name := if truthy name then _normalize_text name else name in
  Ok (VDict (<["name" := name]> (<["address" := address]> (<["city" := city]>
        (<["state" := state]> (<["country" := country]>
        (<["postal_code" := postal_code]> ∅))))))).

Section Runtime.

(** Four library functions stay parameters: [repr] of floats and containers
    (the rendering of a float, and of a dict in insertion order, is not
    fixed by this model), [float(s)] ([None] is its [ValueError]), the split
    of a finite float into whole seconds and microseconds, and the local
    time of an instant, which reads the time zone of the host. *)
Variable py_repr : value -> string.
Variable float_of_str : string -> option spec_float.
Variable float_timeval : spec_float -> Z * Z.
Variable localtime : Z -> Z -> result datetime.

(** [str(v)]. *)
Definition py_str (v : value) : string :=
  match v with
  | VNone => "None"
  | VBool b => if b then "True" else "False"
  | VInt n => str_of_Z n
  | VStr s => s
  | VDatetime t => str_of_datetime t
  | _ => py_repr v
  end.

(** Whether a count of seconds fits the platform's [time_t]. *)
Definition time_t_ok (n : Z) : bool := ((- 2 ^ 63 <=? n) && (n <? 2 ^ 63))%Z.

(** [datetime.fromtimestamp(v)] for a number. *)
Definition fromtimestamp (v : value) : result datetime :=
  match v with
  | VBool b => localtime (if b then 1 else 0)%Z 0%Z
  | VInt n => if time_t_ok n then localtime n 0%Z else Raise OverflowError
  | VFloat S754_nan => Raise ValueError
  | VFloat (S754_infinity _) => Raise OverflowError
  | VFloat f =>
      let '(sec, us) := float_timeval f in
      if time_t_ok sec then localtime sec us else Raise OverflowError
  | _ => Raise TypeError
  end.

Definition _normalize_date (date_value : value) : result value :=
  match date_value with
  | VNone => Ok VNone
  | VStr s =>
      match first_format s date_formats with
      | Some t => Ok (VStr (strftime_ymd t))
      | None =>
          match float_of_str s with
          | Some f =>
              match fromtimestamp (VFloat f) with
              | Ok t => Ok (VStr (strftime_ymd t))
              | Raise ValueError | Raise TypeError => Ok VNone
              | Raise e => Raise e
              end
          | None => Ok VNone
          end
      end
  | VBool _ | VInt _ | VFloat _ =>
      match fromtimestamp date_value with
      | Ok t => Ok (VStr (strftime_ymd t))
      | Raise ValueError | Raise OSError => Ok VNone
      | Raise e => Raise e
      end
  | VDatetime t => Ok (VStr (strftime_ymd t))
  | _ => Ok VNone
  end.

(** The entries one element of a class list gives. *)
Definition classes_of_item (cls : value) : list value :=
  match cls with
  | VDict d =>
      [class_entry
         (py_or (py_or (get d "classNumber") (get d "class_number")) (get d "code"))
         (py_or (get d "description") (get d "classDescription"))]
  | VBool _ | VInt _ | VStr _ => [class_entry (VStr (py_str cls)) VNone]
  | _ => []
  end.

Definition _extract_classes (record : dict) : result (list value) :=
  let! sources := all_sources record in
  let ipc_data := scan_sources class_fields sources VNone in
  let classes :=
    if truthy ipc_data then
      match ipc_data with
      | VList l => List.concat (List.map classes_of_item l)
      | VDict d =>
          [class_entry (py_or (get d "classNumber") (get d "class_number"))
                       (get d "description")]
      | VStr s =>
          List.map (fun code => class_entry (VStr code) VNone)
            (List.filter (fun code => truthy (VStr code))
               (List.map strip (split_on ";" s)))
      | _ => []
      end
    else [] in
  match classes with
  | [] =>
      let goods :=
        _extract_field_multisource sources
          ["goodsServices"; "goods_services"; "description"] VNone in
      if truthy goods then
        Ok (List.map (fun m => class_entry (VStr m) VNone)
              (re_findall false class_pattern "1" (py_str goods)))
      else Ok []
  | _ => Ok classes
  end.

Definition event_entry (event : dict) : result value :=
  let! date := _normalize_date (py_or (get event "date") (get event "eventDate")) in
  Ok (VDict (<["date" := date]>
       (<["type" := py_or (py_or (get event "type") (get event "eventType"))
                          (get event "code")]>
       (<["description" := py_or (get event "description")
                                 (get event "eventDescription")]>
       (<["code" := py_or (get event "code") (get event "eventCode")]> ∅))))).

Fixpoint events_of_list (l : list value) : result (list value) :=
  match l with
  | [] => Ok []
  | VDict event :: l' =>
      let! e := event_entry event in
      let! es := events_of_list l' in
      Ok (e :: es)
  | _ :: l' => events_of_list l'
  end.

Definition _extract_events (record : dict) : result (list value) :=
  match first_present event_fields record with
  | Some (VList l) => events_of_list l
  | _ => Ok []
  end.

Definition extract (sources : list value) (f : field) : value :=
  _extract_field_multisource sources (candidate_keys f) VNone.

Definition transform_trademark (record : dict) : result dict :=
  let! sources := all_sources record in
  let v_registration_number := extract sources registration_number in
  let v_serial_number := extract sources serial_number in
  let! v_registration_date := _normalize_date (extract sources registration_date) in
  let! v_expiry_date := _normalize_date (extract sources expiry_date) in
  let v_status := extract sources status in
  let v_mark_text := extract sources mark_text in
  let v_mark_drawing_code := extract sources mark_drawing_code in
  let! v_classes := _extract_classes record in
  let! v_owner := _extract_owner record in
  let v_representative := _extract_representative record in
  let! v_events := _extract_events record in
  let! v_filing_date := _normalize_date (extract sources filing_date) in
  let! v_published_date := _normalize_date (extract sources published_date) in
  let v_goods_services := extract sources goods_services in
  Ok (<["registration_number" := v_registration_number]>
     (<["serial_number" := v_serial_number]>
     (<["registration_date" := v_registration_date]>
     (<["expiry_date" := v_expiry_date]>
     (<["status" := v_status]>
     (<["mark_text" := v_mark_text]>
     (<["mark_drawing_code" := v_mark_drawing_code]>
     (<["classes" := VList v_classes]>
     (<["owner" := v_owner]>
     (<["representative" := v_representative]>
     (<["events" := VList v_events]>
     (<["filing_date" := v_filing_date]>
     (<["published_date" := v_published_date]>
     (<["goods_services" := v_goods_services]>
     (<["raw_data" := VDict record]> ∅))))))))))))))).

(** [[DataTransformer.transform_trademark(record) for record in records]]:
    the records in order; the first that raises ends the batch. *)
Fixpoint transform_batch (records : list dict) : result (list dict) :=
  match records with
  | [] => Ok []
  | record :: records' =>
      let! t := transform_trademark record in
      let! ts := transform_batch records' in
      Ok (t :: ts)
  end.

End Runtime.

End DataTransformer.

(** ** [data_cleaner.py] *)

Module DataCleaner.

(** [re.sub(r'\s+', ' ', text.strip())], guarded. *)
Definition ws_plus : regex := RPlus isspace.

Definition _normalize_text (text : value) : value :=
  match text with
  | VStr s => if truthy text then VStr (re_sub false ws_plus " " (strip s)) else text
  | _ => text
  end.

(** [r'\s+(Inc\.?|LLC|L\.L\.C\.?|Corp\.?|Corporation|Ltd\.?|Limited)$'],
    used under [re.IGNORECASE]; first the alternatives of its group. *)
Definition designator_alternatives : regex :=
  ralt [RSeq (rstr "Inc") (ROpt (RChr "."));
        rstr "LLC";
        RSeq (rstr "L.L.C") (ROpt (RChr "."));
        RSeq (rstr "Corp") (ROpt (RChr "."));
        rstr "Corporation";
        RSeq (rstr "Ltd") (ROpt (RChr "."));
        rstr "Limited"].

Definition legal_suffix : regex :=
  rseq [RPlus isspace; RGroup "1" designator_alternatives; REnd].

(** [r'[^\d+]']. *)
Definition not_phone_char : regex :=
  RSet (fun c => negb (isdigit c || Ascii.eqb c "+")).

(** [if k in d and d[k]: d[k] = f(d[k])]. *)
Definition update_if_truthy (k : string) (f : value -> result value) (d : dict)
  : result dict :=
  match d !! k with
  | Some v => if truthy v then let! v' := f v in Ok (<[k := v']> d) else Ok d
  | None => Ok d
  end.

(** The steps on one truthy sub-field. *)
Definition normalize_text_step (v : value) : result value := Ok (_normalize_text v).

(** [re.sub(pattern, '', _normalize_text(name), flags=re.IGNORECASE)]. *)
Definition strip_legal_suffix (s : string) : string := re_sub true legal_suffix "" s.

Definition clean_name (v : value) : result value :=
  match _normalize_text v with
  | VStr s => Ok (VStr (strip_legal_suffix s))
  | _ => Raise TypeError
  end.

(** [v.strip().upper()]. *)
Definition strip_upper (v : value) : result value :=
  match v with
  | VStr s => Ok (VStr (upper (strip s)))
  | _ => Raise AttributeError
  end.

(** [v.strip().lower()]. *)
Definition strip_lower (v : value) : result value :=
  match v with
  | VStr s => Ok (VStr (lower (strip s)))
  | _ => Raise AttributeError
  end.

(** [re.sub(r'[^\d+]', '', v)]. *)
Definition clean_phone (v : value) : result value :=
  match v with
  | VStr s => Ok (VStr (re_sub false not_phone_char "" s))
  | _ => Raise TypeError
  end.

(** [k in l] for one of the string literals [keys] and a list [l]. *)
Definition mentions (keys : list string) (l : list value) : bool :=
  existsb (fun k => existsb (is_str k) l) keys.

Definition _clean_owner (owner : value) : result value :=
  if negb (truthy owner) then Ok owner
  else
    match owner with
    | VDict d =>
        let! d := update_if_truthy "name" clean_name d in
        let! d := update_if_truthy "address" normalize_text_step d in
        let! d := update_if_truthy "city" normalize_text_step d in
        let! d := update_if_truthy "state" strip_upper d in
        let! d := update_if_truthy "country" strip_upper d in
        let! d := update_if_truthy "postal_code" strip_upper d in
        Ok (VDict d)
    | VList l =>
        (* a list has [copy]; a field name among its elements is then used
           as an index *)
        if mentions ["name"; "address"; "city"; "state"; "country"; "postal_code"] l
        then Raise TypeError else Ok owner
    | _ => Raise AttributeError
    end.

Definition _clean_representative (rep : value) : result value :=
  if negb (truthy rep) then Ok rep
  else
    match rep with
    | VDict d =>
        let! d := update_if_truthy "name" normalize_text_step d in
        let! d := update_if_truthy "firm" normalize_text_step d in
        let! d := update_if_truthy "address" normalize_text_step d in
        let! d := update_if_truthy "phone" clean_phone d in
        let! d := update_if_truthy "email" strip_lower d in
        Ok (VDict d)
    | VList l =>
        if mentions ["name"; "firm"; "address"; "phone"; "email"] l
        then Raise TypeError else Ok rep
    | _ => Raise AttributeError
    end.

Definition required_owner : dict :=
  <["name" := VNone]> (<["address" := VNone]> (<["city" := VNone]>
  (<["state" := VNone]> (<["country" := VNone]> (<["postal_code" := VNone]> ∅))))).

Definition required_structure : dict :=
  <["registration_number" := VNone]>
  (<["serial_number" := VNone]>
  (<["registration_date" := VNone]>
  (<["expiry_date" := VNone]>
  (<["status" := VNone]>
  (<["mark_text" := VNone]>
  (<["mark_drawing_code" := VNone]>
  (<["classes" := VList []]>
  (<["owner" := VDict required_owner]>
  (<["representative" := VNone]>
  (<["events" := VList []]>
  (<["filing_date" := VNone]>
  (<["published_date" := VNone]>
  (<["goods_services" := VNone]> ∅))))))))))))).

(** [if k not in d or not isinstance(d[k], list): d[k] = []]. *)
Definition ensure_list (k : string) (d : dict) : dict :=
  match d !! k with
  | Some (VList _) => d
  | _ => <[k := VList []]> d
  end.

Definition _ensure_required_fields (record : dict) : result dict :=
  (* cleaned = required_structure.copy(); cleaned.update(record) *)
  let cleaned := record ∪ required_structure in
  let! owner :=
    match record !! "owner" with
    | Some v =>
        if truthy v then
          match v with
          | VDict o => Ok (VDict (o ∪ required_owner))
          | _ => Raise TypeError
          end
        else Ok (VDict required_owner)
    | None => Ok (VDict required_owner)
    end in
  let cleaned := <["owner" := owner]> cleaned in
  let cleaned := ensure_list "classes" cleaned in
  let cleaned := ensure_list "events" cleaned in
  Ok cleaned.

Definition clean_trademark (record : dict) : result dict :=
  let! cleaned := update_if_truthy "owner" _clean_owner record in
  let! cleaned := update_if_truthy "representative" _clean_representative cleaned in
  let! cleaned := update_if_truthy "mark_text" normalize_text_step cleaned in
  let! cleaned := update_if_truthy "status" normalize_text_step cleaned in
  let! cleaned := update_if_truthy "goods_services" normalize_text_step cleaned in
  _ensure_required_fields cleaned.

(** [[DataCleaner.clean_trademark(record) for record in records]]. *)
Fixpoint clean_batch (records : list dict) : result (list dict) :=
  match records with
  | [] => Ok []
  | record :: records' =>
      let! c := clean_trademark record in
      let! cs := clean_batch records' in
      Ok (c :: cs)
  end.

(** *** Flattening *)

(** A number as [m * 2 ^ e], an infinity or a NaN, to order [int], [bool]
    and [float] exactly, as Python does. *)
Inductive number := NNan | NInf (negative : bool) | NFin (m e : Z).

Definition number_of (v : value) : option number :=
  match v with
  | VBool b => Some (NFin (if b then 1 else 0) 0)
  | VInt n => Some (NFin n 0)
  | VFloat (S754_zero _) => Some (NFin 0 0)
  | VFloat (S754_infinity s) => Some (NInf s)
  | VFloat S754_nan => Some NNan
  | VFloat (S754_finite s m e) => Some (NFin (if s then Z.neg m else Z.pos m) e)
  | _ => None
  end.

Definition number_gt (a b : number) : bool :=
  match a, b with
  | NNan, _ | _, NNan => false
  | NInf sa, NInf sb => negb sa && sb
  | NInf sa, NFin _ _ => negb sa
  | NFin _ _, NInf sb => sb
  | NFin ma ea, NFin mb eb =>
      (if ea <? eb then mb * 2 ^ (eb - ea) <? ma
       else mb <? ma * 2 ^ (ea - eb))%Z
  end.

(** [a > b] for strings: by code points, a proper prefix being smaller. *)
Fixpoint str_gt (a b : string) : bool :=
  match a, b with
  | EmptyString, _ => false
  | String _ _, EmptyString => true
  | String x a', String y b' =>
      if (code y <? code x)%nat then true
      else if (code x <? code y)%nat then false
      else str_gt a' b'
  end.

Fixpoint lex_gt (a b : list Z) : bool :=
  match a, b with
  | x :: a', y :: b' => if (y <? x)%Z then true else if (x <? y)%Z then false else lex_gt a' b'
  | _, _ => false
  end.

Definition datetime_fields (t : datetime) : list Z :=
  [dt_year t; dt_month t; dt_day t; dt_hour t; dt_minute t; dt_second t;
   dt_microsecond t].

Section Runtime.

(** Two library functions stay parameters: [repr] of floats and containers,
    as in the transformer, and the order of two lists, which rests on the
    equality of their elements. *)
Variable py_repr : value -> string.
Variable list_gt : list value -> list value -> result bool.

(** [a > b]. *)
Definition py_gt (a b : value) : result bool :=
  match number_of a, number_of b with
  | Some x, Some y => Ok (number_gt x y)
  | _, _ =>
      match a, b with
      | VStr x, VStr y => Ok (str_gt x y)
      | VDatetime x, VDatetime y => Ok (lex_gt (datetime_fields x) (datetime_fields y))
      | VList x, VList y => list_gt x y
      | _, _ => Raise TypeError
      end
  end.

(** [c.get(k)] on an element that need not be a dict. *)
Definition item_get (c : value) (k : string) : result value :=
  match c with
  | VDict d => Ok (get d k)
  | _ => Raise AttributeError
  end.

(** [[str(c.get("class_number", "")) for c in classes if c.get("class_number")]]. *)
Fixpoint class_numbers_of (classes : list value) : result (list string) :=
  match classes with
  | [] => Ok []
  | c :: classes' =>
      let! n := item_get c "class_number" in
      let! rest := class_numbers_of classes' in
      Ok (if truthy n then DataTransformer.py_str py_repr n :: rest else rest)
  end.

(** [[e for e in events if e.get("date")]]. *)
Fixpoint dated_events (events : list value) : result (list value) :=
  match events with
  | [] => Ok []
  | e :: events' =>
      let! d := item_get e "date" in
      let! rest := dated_events events' in
      Ok (if truthy d then e :: rest else rest)
  end.

(** [max(l, key=lambda x: x.get("date", ""), default=None)]: the first of
    the greatest; [best] is the greatest so far. *)
Fixpoint max_by_date (best : value) (l : list value) : result value :=
  match l with
  | [] => Ok best
  | e :: l' =>
      let! d := item_get e "date" in
      let! b := item_get best "date" in
      let! gt := py_gt d b in
      max_by_date (if gt then e else best) l'
  end.

Definition latest_event (events : list value) : result value :=
  let! dated := dated_events events in
  match dated with
  | [] => Ok VNone
  | e :: l => max_by_date e l
  end.

Definition flatten_owner (flattened : dict) : dict :=
  match flattened !! "owner" with
  | Some (VDict owner) =>
      <["owner_postal_code" := get owner "postal_code"]>
      (<["owner_country" := get owner "country"]>
      (<["owner_state" := get owner "state"]>
      (<["owner_city" := get owner "city"]>
      (<["owner_address" := get owner "address"]>
      (<["owner_name" := get owner "name"]> (delete "owner" flattened))))))
  | _ => flattened
  end.

Definition flatten_representative (flattened : dict) : dict :=
  match flattened !! "representative" with
  | Some (VDict rep) =>
      <["rep_email" := get rep "email"]>
      (<["rep_phone" := get rep "phone"]>
      (<["rep_address" := get rep "address"]>
      (<["rep_firm" := get rep "firm"]>
      (<["rep_name" := get rep "name"]> (delete "representative" flattened)))))
  | _ => flattened
  end.

Definition flatten_classes (flattened : dict) : result dict :=
  match flattened !! "classes" with
  | Some (VList classes) =>
      let! class_numbers := class_numbers_of classes in
      Ok (<["class_count" := VInt (Z.of_nat (List.length classes))]>
         (<["class_numbers" :=
              match class_numbers with
              | [] => VNone
              | _ => VStr (join ", " class_numbers)
              end]> (delete "classes" flattened)))
  | _ =>
      Ok (<["class_count" := VInt 0]> (<["class_numbers" := VNone]> flattened))
  end.

Definition flatten_events (flattened : dict) : result dict :=
  match flattened !! "events" with
  | Some (VList events) =>
      let flattened :=
        <["event_count" := VInt (Z.of_nat (List.length events))]>
          (delete "events" flattened) in
      let! latest := latest_event events in
      let! date := if truthy latest then item_get latest "date" else Ok VNone in
      let! type := if truthy latest then item_get latest "type" else Ok VNone in
      Ok (<["latest_event_type" := type]> (<["latest_event_date" := date]> flattened))
  | _ =>
      Ok (<["latest_event_type" := VNone]> (<["latest_event_date" := VNone]>
         (<["event_count" := VInt 0]> flattened)))
  end.

Definition flatten_record (record : dict) : result dict :=
  let flattened := flatten_owner record in
  let flattened := flatten_representative flattened in
  let! flattened := flatten_classes flattened in
  let! flattened := flatten_events flattened in
  Ok (delete "raw_data" flattened).

End Runtime.

End DataCleaner.

(** ** [static_data_loader.py] *)

Module StaticDataLoader.

(** [s.replace(a, b)] for one-character [a] and [b]. *)
Definition replace_char (a b : ascii) (s : string) : string :=
  smap (fun c => if Ascii.eqb c a then b else c) s.

(** [str(key).strip().lower().replace(' ', '_').replace('-', '_')] for a
    key that is a string. *)
Definition normalized_key (key : string) : string :=
  replace_char "-" "_" (replace_char " " "_" (lower (strip key))).

Section Runtime.

(** [pd.isna(value)] as the condition of an [if] stays a parameter: it is
    true of a null, a NaN or a NaT, false of the other scalars, and the test
    raises for a value that [pd.isna] maps to an array of several flags. *)
Variable isna : value -> result bool.

(** The loop of [_format_record] over [record.items()]; a row of the sheet
    is the list of its cells by header, in the order of the columns. *)
Fixpoint format_items (items : list (string * value)) (formatted : dict)
  : result dict :=
  match items with
  | [] => Ok formatted
  | (key, value) :: items' =>
      let! na := isna value in
      format_items items'
        (if na then <[key := VNone]> formatted
         else <[normalized_key key := value]> formatted)
  end.

Definition _format_record (record : list (string * value)) : result dict :=
  let! formatted := format_items record ∅ in
  Ok (<["_raw_excel_data" := VDict (list_to_map record)]> formatted).

End Runtime.

End StaticDataLoader.

(** * Properties *)

Import DataTransformer.
Import DataCleaner.
Import StaticDataLoader.

(** ** Vocabulary of the properties *)

Definition rep_entity (name firm address phone email : value) : value :=
  VDict (<["name" := name]> (<["firm" := firm]> (<["address" := address]>
          (<["phone" := phone]> (<["email" := email]> ∅))))).

Definition phone_only : dict :=
  {["representative" := VDict {["phone" := VStr "+1 555 0100"]}]}.

(** The fields of the canonical schema. *)
Definition canonical_fields : list string :=
  ["registration_number"; "serial_number"; "registration_date"; "expiry_date";
   "status"; "mark_text"; "mark_drawing_code"; "classes"; "owner";
   "representative"; "events"; "filing_date"; "published_date"; "goods_services"].

Definition owner_keys : list string :=
  ["name"; "address"; "city"; "state"; "country"; "postal_code"].

Definition frame_example : dict :=
  <["source_file" := VStr "data.xls"]> (<["status" := VStr " LIVE "]> ∅).

(** Every canonical field is a key; [classes] and [events] are lists; the
    owner is a mapping with its six sub-keys. *)
Definition complete (out : dict) : Prop :=
  (forall k, In k canonical_fields -> is_Some (out !! k)) /\
  (exists l, out !! "classes" = Some (VList l)) /\
  (exists l, out !! "events" = Some (VList l)) /\
  (exists o, out !! "owner" = Some (VDict o) /\
             forall k, In k owner_keys -> is_Some (o !! k)).

(** The record of the specification's end-to-end scenario. *)
Definition scenario : dict :=
  <["application_number" := VStr "RN123"]>
  (<["Application Date" := VStr "01.02.2020"]>
  (<["owner" := VDict {["name" := VStr "Acme Corp."]}]> ∅)).

Definition undotted (keys : list string) : Prop :=
  Forall (fun k => contains_char "." k = false) keys.

Definition field_name (f : field) : string :=
  match f with
  | registration_number => "registration_number"
  | serial_number => "serial_number"
  | registration_date => "registration_date"
  | expiry_date => "expiry_date"
  | status => "status"
  | mark_text => "mark_text"
  | mark_drawing_code => "mark_drawing_code"
  | filing_date => "filing_date"
  | published_date => "published_date"
  | goods_services => "goods_services"
  end.

Definition is_date (f : field) : bool :=
  match f with
  | registration_date | expiry_date | filing_date | published_date => true
  | _ => false
  end.

(** A record whose top level spells the registration number [regNumber]
    and whose raw view spells it [registrationNumber]. *)
Definition two_spellings_raw : dict := {["registrationNumber" := VStr "B"]}.

Definition two_spellings : dict :=
  <["regNumber" := VStr "A"]> (<["raw_data" := VDict two_spellings_raw]> ∅).

(** The shape ["YYYY-MM-DD"]. *)
Definition is_ymd (s : string) : bool :=
  match s with
  | String y1 (String y2 (String y3 (String y4 (String h1 (String m1 (String m2
      (String h2 (String d1 (String d2 EmptyString))))))))) =>
      isdigit y1 && isdigit y2 && isdigit y3 && isdigit y4 && Ascii.eqb h1 "-" &&
      isdigit m1 && isdigit m2 && Ascii.eqb h2 "-" && isdigit d1 && isdigit d2
  | _ => false
  end.

Definition all_digits (w : nat) (s : string) : bool :=
  ((String.length s =? w)%nat && forallb isdigit (list_ascii_of_string s)).

(** [P] on the first [n] naturals. *)
Fixpoint upto (P : Z -> bool) (n : nat) : bool :=
  match n with
  | O => true
  | S n' => P (Z.of_nat n') && upto P n'
  end.

(** [rlang ic r s s']: the pattern [r] matches a prefix of [s] and leaves [s']. *)
Inductive rlang (ic : bool) : regex -> string -> string -> Prop :=
| L_eps s : rlang ic REps s s
| L_chr c x s : chr_eq ic c x = true -> rlang ic (RChr c) (String x s) s
| L_set (p : ascii -> bool) x s : p x = true -> rlang ic (RSet p) (String x s) s
| L_plus_one (p : ascii -> bool) x s : p x = true -> rlang ic (RPlus p) (String x s) s
| L_plus_more (p : ascii -> bool) x s s' :
    p x = true -> rlang ic (RPlus p) s s' -> rlang ic (RPlus p) (String x s) s'
| L_seq r1 r2 s s' s'' :
    rlang ic r1 s s' -> rlang ic r2 s' s'' -> rlang ic (RSeq r1 r2) s s''
| L_alt_l r1 r2 s s' : rlang ic r1 s s' -> rlang ic (RAlt r1 r2) s s'
| L_alt_r r1 r2 s s' : rlang ic r2 s s' -> rlang ic (RAlt r1 r2) s s'
| L_opt_some r s s' : rlang ic r s s' -> rlang ic (ROpt r) s s'
| L_opt_none r s : rlang ic (ROpt r) s s
| L_end s : at_end s = true -> rlang ic REnd s s
| L_group name r s s' : rlang ic r s s' -> rlang ic (RGroup name r) s s'.

Fixpoint drop_str (n : nat) (s : string) : string :=
  match n, s with
  | S n', String _ s' => drop_str n' s'
  | _, _ => s
  end.

Definition sub_ws (s : string) : string := re_sub false ws_plus " " s.

(** Normalized text: no white space at either end, and between words one
    space character. *)
Definition starts_clean (s : string) : bool :=
  match s with
  | String c _ => negb (isspace c)
  | EmptyString => true
  end.

Fixpoint single_spaced (s : string) : bool :=
  match s with
  | EmptyString => true
  | String c s' =>
      (negb (isspace c) ||
       (Ascii.eqb c " " &&
        match s' with
        | String d _ => negb (isspace d)
        | EmptyString => false
        end)) && single_spaced s'
  end.

Definition normalized (s : string) : bool := starts_clean s && single_spaced s.

(** The text that [_normalize_text] gives for a string. *)
Definition normalize (s : string) : string := sub_ws (strip s).

(** The designators, in lower case, as the alternatives of the pattern and
    its optional dots spell them. *)
Definition designators : list string :=
  ["inc"; "inc."; "llc"; "l.l.c"; "l.l.c."; "corp"; "corp."; "corporation";
   "ltd"; "ltd."; "limited"].

Definition is_designator (d : string) : bool :=
  existsb (String.eqb (lower d)) designators.

Definition suffix_tail : regex := RSeq (RGroup "1" designator_alternatives) REnd.

Fixpoint no_space (s : string) : bool :=
  match s with
  | EmptyString => true
  | String c s' => negb (isspace c) && no_space s'
  end.

(** [re.sub] of a character class by the empty text keeps the other
    characters. *)
Fixpoint sfilter (keep : ascii -> bool) (s : string) : string :=
  match s with
  | EmptyString => EmptyString
  | String c s' => if keep c then String c (sfilter keep s') else sfilter keep s'
  end.

(** A value is fixed by a step when the step, if it runs, returns it. *)
Definition fixed (f : value -> result value) (v : value) : Prop :=
  truthy v = true -> f v = Ok v.

Definition idem_step (f : value -> result value) : Prop :=
  forall v v', f v = Ok v' -> fixed f v'.

(** The owner name after one pass: a normalized text, so that a second
    pass changes it only by stripping a further suffix. *)
Definition name_ok (v : value) : Prop :=
  truthy v = true -> exists n, v = VStr n /\ normalized n = true.

(** What one pass of [_clean_owner] leaves in each sub-field. *)
Definition owner_cleaned (o : dict) : Prop :=
  (forall v, o !! "name" = Some v -> name_ok v) /\
  (forall v, o !! "address" = Some v -> fixed normalize_text_step v) /\
  (forall v, o !! "city" = Some v -> fixed normalize_text_step v) /\
  (forall v, o !! "state" = Some v -> fixed strip_upper v) /\
  (forall v, o !! "country" = Some v -> fixed strip_upper v) /\
  (forall v, o !! "postal_code" = Some v -> fixed strip_upper v).

(** The owner name that normalization leaves does not end in a space
    followed by a legal designator. *)
Definition owner_name_settled (r : dict) : Prop :=
  forall (o : dict) (n stem d : string),
    r !! "owner" = Some (VDict o) -> o !! "name" = Some (VStr n) ->
    n = stem ++ " " ++ d -> is_designator d = false.

(** A canonical record whose owner name carries two designators. *)
Definition suffixed_twice : dict :=
  <["owner" := VDict (<["name" := VStr "Acme Inc LLC"]> required_owner)]>
    required_structure.

Definition owner_name_of (m : result dict) : option value :=
  match m with
  | Ok d =>
      match d !! "owner" with
      | Some (VDict o) => o !! "name"
      | _ => None
      end
  | Raise _ => None
  end.

Fixpoint all_chars (p : ascii -> bool) (s : string) : bool :=
  match s with
  | EmptyString => true
  | String c s' => p c && all_chars p s'
  end.

(** The text does not go on with a character of the class. *)
Definition stops (p : ascii -> bool) (s : string) : bool :=
  match s with
  | EmptyString => true
  | String c _ => negb (p c)
  end.

Definition class_numbers_found (m : result (list value)) : option (list value) :=
  match m with
  | Ok l =>
      Some (List.map (fun c => match c with VDict d => get d "class_number" | _ => VNone end) l)
  | Raise _ => None
  end.

Definition shouted : dict := {["goods_services" := VStr "CLASS 9"]}.

Definition capitalized : dict := {["goods_services" := VStr "Class 9"]}.

(** A character that [clean_phone] keeps: a digit or a plus sign. *)
Definition phone_char (c : ascii) : bool := isdigit c || Ascii.eqb c "+".

(** A sub-field that the string methods of the cleaner accept: a string, or
    a falsy value, which the guards skip. *)
Definition str_or_falsy (v : value) : bool :=
  match v with
  | VStr _ => true
  | _ => negb (truthy v)
  end.

Definition fields_ok (keys : list string) (d : dict) : bool :=
  forallb (fun k => match d !! k with
                    | Some v => str_or_falsy v
                    | None => true
                    end) keys.

(** The owners and representatives with which [clean_trademark] returns. *)
Definition owner_accepted (v : value) : bool :=
  negb (truthy v) ||
  match v with
  | VDict o => fields_ok ["name"; "state"; "country"; "postal_code"] o
  | _ => false
  end.

Definition representative_accepted (v : value) : bool :=
  negb (truthy v) ||
  match v with
  | VDict r => fields_ok ["phone"; "email"] r
  | VList l => negb (mentions ["name"; "firm"; "address"; "phone"; "email"] l)
  | _ => false
  end.

Definition accepted (record : dict) : bool :=
  match record !! "owner" with
  | Some v => owner_accepted v
  | None => true
  end &&
  match record !! "representative" with
  | Some v => representative_accepted v
  | None => true
  end.

Definition rep_keys : list string := ["name"; "firm"; "address"; "phone"; "email"].

(** Whether the guarded step [if k in d and d[k]: d[k] = f(d[k])] returns. *)
Definition guard_ok (k : string) (f : value -> result value) (d : dict) : bool :=
  match d !! k with
  | Some v => if truthy v then is_ok (f v) else true
  | None => true
  end.

Definition owner_with_state : dict := {["state" := VStr " ca "]}.

Definition rep_with_phone : dict := {["phone" := VStr "+1 (555) 010-0199"]}.

(** The date of an entry of [events], and its text. *)
Definition event_date (e : value) : value :=
  match e with
  | VDict d => get d "date"
  | _ => VNone
  end.

Definition date_text (e : value) : string :=
  match event_date e with
  | VStr s => s
  | _ => EmptyString
  end.

(** An event as the transformer builds it: a mapping whose date is a string
    or null. *)
Definition text_dated (e : value) : Prop :=
  exists d, e = VDict d /\ (get d "date" = VNone \/ exists s, get d "date" = VStr s).

Definition hoisted_owner_keys : list (string * string) :=
  [("owner_name", "name"); ("owner_address", "address"); ("owner_city", "city");
   ("owner_state", "state"); ("owner_country", "country");
   ("owner_postal_code", "postal_code")].

Definition hoisted_rep_keys : list (string * string) :=
  [("rep_name", "name"); ("rep_firm", "firm"); ("rep_address", "address");
   ("rep_phone", "phone"); ("rep_email", "email")].

Definition nested_record : dict :=
  <["owner" := VDict {["name" := VStr "Acme"]}]>
  (<["representative" := VNone]> (<["raw_data" := VDict ∅]> ∅)).

Definition two_events : list value :=
  [VDict {["date" := VStr "2020-01-02"]}; VDict {["date" := VStr "2021-03-15"]}].

Definition events_record : dict := {["events" := VList two_events]}.

Definition bare_classes : dict := {["classes" := VList [VStr "9"]]}.

Definition is_dict (v : value) : bool :=
  match v with
  | VDict _ => true
  | _ => false
  end.

Definition event_keys : list string := ["date"; "type"; "description"; "code"].

(** What [_normalize_date] can return: null or a string. *)
Definition null_or_text (v : value) : Prop := v = VNone \/ exists s, v = VStr s.

Definition semicolon_classes : dict := {["classes" := VStr "9; 42"]}.

Definition text_owner : dict := {["owner" := VStr "Acme  Ltd"]}.

Definition text_representative : dict := {["representative" := VStr "J. Smith"]}.

(** The pattern of a directive the library knows. *)
Definition directive (d : ascii) : regex :=
  match directive_regex d with
  | Some r => r
  | None => REps
  end.

(** The pattern of the format [%Y-%m-%d], and its part after the year. *)
Definition month_day_regex : regex :=
  RSeq (RChr "-") (RSeq (directive "m") (RSeq (RChr "-") (RSeq (directive "d") REps))).

Definition ymd_regex : regex := RSeq (directive "Y") month_day_regex.

Definition epoch : datetime := Datetime 1970 1 1 0 0 0 0.

(** The key under which [_format_record] stores a cell. *)
Definition stored_key (na : bool) (key : string) : string :=
  if na then key else normalized_key key.

(** A character that a normalized key cannot hold. *)
Definition key_char (c : ascii) : bool :=
  negb (Ascii.eqb c " " || Ascii.eqb c "-" || in_range "A" "Z" c).

(** [pd.isna] on the cells of a sheet, which are null, numbers, strings or
    dates. *)
Definition isna_scalar (v : value) : result bool :=
  match v with
  | VNone | VFloat S754_nan => Ok true
  | _ => Ok false
  end.

Definition sheet_row : list (string * value) :=
  [("Application Number", VStr "RN123"); ("Title", VNone)].

(** The three character maps of [normalized_key], as one. *)
Definition key_map (c : ascii) : ascii :=
  let c1 := lower_char c in
  let c2 := if Ascii.eqb c1 " " then "_"%char else c1 in
  if Ascii.eqb c2 "-" then "_"%char else c2.

(** A record whose owner name is reached by the dotted key [owner.name]. *)
Definition nested_owner : dict := {["owner" := VDict {["name" := VStr "Acme"]}]}.

(** ** Lemmas and theorems *)

(** ** Results and dicts *)

Lemma is_ok_true {A} (m : result A) : is_ok m = true -> exists a, m = Ok a.
Proof. destruct m; [eauto|discriminate]. Qed.

Lemma bind_ok {A B} (m : result A) (f : A -> result B) (b : B) :
  bind m f = Ok b -> exists a, m = Ok a /\ f a = Ok b.
Proof. destruct m; simpl; [eauto|discriminate]. Qed.

Lemma dict_is_empty_true (d : dict) : dict_is_empty d = true <-> d = ∅.
Proof.
  unfold dict_is_empty. rewrite <- map_to_list_empty_iff.
  destruct (map_to_list d); split; intros; congruence.
Qed.

Lemma truthy_insert (k : string) (v : value) (d : dict) :
  truthy (VDict (<[k := v]> d)) = true.
Proof.
  simpl. destruct (dict_is_empty (<[k := v]> d)) eqn:E; [|done].
  apply dict_is_empty_true in E. by apply insert_non_empty in E.
Qed.

Lemma truthy_not_none (v : value) : truthy v = true -> v <> VNone.
Proof. by destruct v. Qed.

Lemma first_present_none (fields : list string) (d : dict) :
  (forall f, In f fields -> d !! f = None) -> first_present fields d = None.
Proof.
  induction fields as [|f fields IH]; simpl; intros H; [done|].
  rewrite (H f) by auto. apply IH. auto.
Qed.

Lemma truthy_singleton (k : string) (v : value) : truthy (VDict {[k := v]}) = true.
Proof. rewrite <- insert_empty. apply truthy_insert. Qed.

(** ** Representative extraction *)

Lemma extract_representative_cases (record : dict) :
  _extract_representative record = VNone \/
  exists name firm address phone email,
    _extract_representative record = rep_entity name firm address phone email /\
    (truthy name || truthy firm || truthy address || truthy phone || truthy email) = true.
Proof.
  unfold _extract_representative.
  destruct (match first_present rep_fields record with Some v => v | None => VNone end)
    as [| | | | | |d|]; simpl; auto.
  destruct (negb (dict_is_empty d)); simpl; auto.
  match goal with |- context [if ?b then _ else _] => destruct b eqn:E end; auto.
  right. do 5 eexists. split; [reflexivity|]. exact E.
Qed.

(** C7. Representative extraction never builds an entity of nulls: a
    record with none of the representative keys gives null; a record whose
    ["representative"] mapping holds only a (non-empty) phone gives the
    entity with that phone and null elsewhere; and whenever an entity is
    returned it has the five sub-keys and one of them is not null. *)
Theorem representative_nullability :
  (forall record : dict,
      (forall f, In f rep_fields -> record !! f = None) ->
      _extract_representative record = VNone) /\
  (forall (record : dict) (phone : value),
      record !! "representative" = Some (VDict {["phone" := phone]}) ->
      truthy phone = true ->
      _extract_representative record = rep_entity VNone VNone VNone phone VNone) /\
  (forall (record : dict) (rep : dict),
      _extract_representative record = VDict rep ->
      (forall k, In k ["name"; "firm"; "address"; "phone"; "email"] ->
                 is_Some (rep !! k)) /\
      exists k v, rep !! k = Some v /\ v <> VNone).
Proof.
  split; [|split].
  - intros record H. unfold _extract_representative.
    by rewrite first_present_none.
  - intros record phone Hrep Hp. unfold _extract_representative, rep_fields.
    cbn [first_present]. rewrite Hrep. cbv beta iota zeta.
    rewrite truthy_singleton.
    change (get {["phone" := phone]} "name") with VNone.
    change (get {["phone" := phone]} "attorneyName") with VNone.
    change (get {["phone" := phone]} "firm") with VNone.
    change (get {["phone" := phone]} "lawFirm") with VNone.
    change (get {["phone" := phone]} "address") with VNone.
    change (get {["phone" := phone]} "telephone") with VNone.
    change (get {["phone" := phone]} "email") with VNone.
    change (get {["phone" := phone]} "phone") with phone.
    unfold py_or. rewrite Hp. simpl. rewrite Hp. reflexivity.
  - intros record rep H.
    destruct (extract_representative_cases record) as [E|(n & f & a & p & e & E & T)];
      [congruence|].
    rewrite E in H. unfold rep_entity in H. injection H as <-. split.
    + intros k Hk. simpl in Hk.
      destruct Hk as [<-|[<-|[<-|[<-|[<-|[]]]]]]; simplify_map_eq; eauto.
    + repeat (apply orb_prop in T; destruct T as [T|T]).
      * exists "name", n. simplify_map_eq. eauto using truthy_not_none.
      * exists "firm", f. simplify_map_eq. eauto using truthy_not_none.
      * exists "address", a. simplify_map_eq. eauto using truthy_not_none.
      * exists "phone", p. simplify_map_eq. eauto using truthy_not_none.
      * exists "email", e. simplify_map_eq. eauto using truthy_not_none.
Qed.

Lemma representative_nullability_witness :
  _extract_representative phone_only
    = rep_entity VNone VNone VNone (VStr "+1 555 0100") VNone.
Proof.
  exact (proj1 (proj2 representative_nullability) phone_only (VStr "+1 555 0100")
           (lookup_singleton_eq _ _) eq_refl).
Defined.

(** ** Normalization: the frame of [clean_trademark] *)

Ltac inv_bind H :=
  match type of H with
  | bind ?m _ = Ok _ =>
      let E := fresh "E" in
      destruct m eqn:E; simpl in H; [|discriminate H]
  end.

Lemma update_if_truthy_ne k f (d d' : dict) k' :
  update_if_truthy k f d = Ok d' -> k <> k' -> d' !! k' = d !! k'.
Proof.
  unfold update_if_truthy. intros H Hne.
  destruct (d !! k) as [v|]; [destruct (truthy v)|]; try (by injection H as <-).
  inv_bind H. injection H as <-. by rewrite lookup_insert_ne.
Qed.

Lemma update_if_truthy_eq k f (d d' : dict) :
  update_if_truthy k f d = Ok d' ->
  (exists v v', d !! k = Some v /\ truthy v = true /\ f v = Ok v' /\ d' = <[k := v']> d) \/
  (d' = d /\ forall v, d !! k = Some v -> truthy v = false).
Proof.
  unfold update_if_truthy. intros H.
  destruct (d !! k) as [v|] eqn:Ek; [destruct (truthy v) eqn:Et|].
  - inv_bind H. injection H as <-. left. eauto 10.
  - injection H as <-. right. split; [done|]. intros ? [= <-]. done.
  - injection H as <-. right. split; [done|]. intros ? [=].
Qed.

Lemma ensure_list_ne k (d : dict) k' : k <> k' -> ensure_list k d !! k' = d !! k'.
Proof.
  intros Hne. unfold ensure_list.
  destruct (d !! k) as [[]|]; try done; by rewrite lookup_insert_ne.
Qed.

Lemma ensure_list_eq k (d : dict) :
  ensure_list k d !! k =
    match d !! k with
    | Some (VList l) => Some (VList l)
    | _ => Some (VList [])
    end.
Proof.
  unfold ensure_list.
  destruct (d !! k) as [[]|] eqn:E; try done; by rewrite lookup_insert_eq.
Qed.

Lemma required_structure_None k :
  ~ In k canonical_fields -> required_structure !! k = None.
Proof.
  intros H. unfold required_structure.
  repeat (rewrite lookup_insert_ne; [|intros <-; apply H; simpl; tauto]).
  apply lookup_empty.
Qed.

Lemma required_structure_Some k :
  In k canonical_fields -> is_Some (required_structure !! k).
Proof.
  simpl. intros H.
  repeat (destruct H as [<-|H]; [by eexists|]). done.
Qed.

(** A key outside the canonical schema goes through
    [_ensure_required_fields] untouched. *)
Lemma ensure_required_frame (record out : dict) k :
  _ensure_required_fields record = Ok out ->
  ~ In k canonical_fields -> out !! k = record !! k.
Proof.
  unfold _ensure_required_fields. intros H Hk.
  inv_bind H. injection H as <-.
  assert (k <> "owner" /\ k <> "classes" /\ k <> "events") as (? & ? & ?).
  { repeat split; intros ->; apply Hk; simpl; tauto. }
  rewrite !ensure_list_ne, lookup_insert_ne by done.
  apply lookup_union_l. by apply required_structure_None.
Qed.

(** C10. [clean_trademark] keeps every key outside the canonical schema,
    with its value; what it adds or rewrites lies inside the schema. *)
Theorem clean_trademark_frame (record out : dict) (k : string) :
  clean_trademark record = Ok out ->
  ~ In k canonical_fields ->
  out !! k = record !! k.
Proof.
  unfold clean_trademark. intros H Hk.
  do 5 inv_bind H.
  rewrite (ensure_required_frame _ _ _ H Hk).
  repeat match goal with
  | E : update_if_truthy ?f _ _ = Ok ?d |- ?d !! k = _ =>
      rewrite (update_if_truthy_ne _ _ _ _ k E);
      [clear E|intros <-; apply Hk; simpl; tauto]
  end.
  reflexivity.
Qed.

Lemma clean_trademark_frame_witness :
  exists out,
    clean_trademark frame_example = Ok out /\
    out !! "source_file" = frame_example !! "source_file".
Proof.
  destruct (is_ok_true (clean_trademark frame_example)) as [out E];
    [vm_compute; reflexivity|].
  exists out. split; [exact E|].
  apply (clean_trademark_frame _ _ _ E).
  simpl. intros H. repeat (destruct H as [H|H]; [discriminate H|]). exact H.
Defined.

(** ** Completeness of the canonical record *)

Lemma required_owner_Some k : In k owner_keys -> required_owner !! k = Some VNone.
Proof.
  simpl. intros H. repeat (destruct H as [<-|H]; [done|]). done.
Qed.

Lemma ensure_required_owner (record out : dict) :
  _ensure_required_fields record = Ok out ->
  exists o, out !! "owner" = Some (VDict o) /\
    (forall k, In k owner_keys -> is_Some (o !! k)) /\
    (forall k, In k owner_keys ->
       o !! k = match record !! "owner" with
                | Some (VDict ro) =>
                    if truthy (VDict ro) then
                      match ro !! k with Some v => Some v | None => Some VNone end
                    else Some VNone
                | _ => Some VNone
                end).
Proof.
  unfold _ensure_required_fields. intros H. inv_bind H. injection H as <-.
  rewrite !ensure_list_ne, lookup_insert_eq by done.
  destruct (record !! "owner") as [v|] eqn:Eo.
  - destruct (truthy v) eqn:Et.
    + destruct v; try discriminate E. injection E as <-.
      eexists. split; [reflexivity|]. split.
      * intros k Hk. apply lookup_union_is_Some. right.
        rewrite required_owner_Some; eauto.
      * intros k Hk. rewrite Et, lookup_union, required_owner_Some by done.
        by destruct (d !! k).
    + injection E as <-. eexists. split; [reflexivity|]. split.
      * intros k Hk. rewrite required_owner_Some; eauto.
      * intros k Hk. rewrite required_owner_Some by done.
        destruct v; try done. by rewrite Et.
  - injection E as <-. eexists. split; [reflexivity|]. split.
    + intros k Hk. rewrite required_owner_Some; eauto.
    + intros k Hk. by rewrite required_owner_Some.
Qed.

Lemma ensure_required_complete (record out : dict) :
  _ensure_required_fields record = Ok out -> complete out.
Proof.
  intros H. pose proof (ensure_required_owner _ _ H) as (o & Ho & Hk & _).
  unfold _ensure_required_fields in H. inv_bind H. injection H as <-.
  assert (Hev : exists l,
    ensure_list "events" (ensure_list "classes"
      (<["owner" := a]> (record ∪ required_structure))) !! "events" = Some (VList l)).
  { rewrite ensure_list_eq.
    match goal with |- context [match ?x with _ => _ end] =>
      destruct x as [[]|] end; eauto. }
  assert (Hcl : exists l,
    ensure_list "events" (ensure_list "classes"
      (<["owner" := a]> (record ∪ required_structure))) !! "classes" = Some (VList l)).
  { rewrite ensure_list_ne, ensure_list_eq by done.
    match goal with |- context [match ?x with _ => _ end] =>
      destruct x as [[]|] end; eauto. }
  split; [|split; [|split]]; eauto.
  intros k Hin.
  destruct (decide (k = "events")) as [->|]; [destruct Hev; eauto|].
  destruct (decide (k = "classes")) as [->|]; [destruct Hcl; eauto|].
  destruct (decide (k = "owner")) as [->|]; [eauto|].
  rewrite !ensure_list_ne, lookup_insert_ne by done.
  apply lookup_union_is_Some. right. by apply required_structure_Some.
Qed.

(** A record that [clean_trademark] returns is complete, whatever the input. *)
Lemma clean_trademark_complete (record out : dict) :
  clean_trademark record = Ok out -> complete out.
Proof.
  unfold clean_trademark. intros H. do 5 inv_bind H.
  eauto using ensure_required_complete.
Qed.

(** A field absent from the input of [_ensure_required_fields] takes its
    default. *)
Lemma ensure_required_default (record out : dict) k :
  _ensure_required_fields record = Ok out ->
  In k canonical_fields -> record !! k = None ->
  out !! k = required_structure !! k.
Proof.
  intros H Hin Hk.
  destruct (decide (k = "owner")) as [->|].
  { unfold _ensure_required_fields in H. rewrite Hk in H. simpl in H.
    injection H as <-. by rewrite !ensure_list_ne, lookup_insert_eq. }
  unfold _ensure_required_fields in H. inv_bind H. injection H as <-.
  destruct (decide (k = "events")) as [->|].
  { rewrite ensure_list_eq, ensure_list_ne, lookup_insert_ne, lookup_union_r by done.
    done. }
  destruct (decide (k = "classes")) as [->|].
  { rewrite ensure_list_ne, ensure_list_eq, lookup_insert_ne, lookup_union_r by done.
    done. }
  by rewrite !ensure_list_ne, lookup_insert_ne, lookup_union_r.
Qed.

(** A list under [k] survives [clean_trademark]. *)
Lemma clean_trademark_keeps_list (record out : dict) k l :
  k = "classes" \/ k = "events" ->
  clean_trademark record = Ok out ->
  record !! k = Some (VList l) -> out !! k = Some (VList l).
Proof.
  intros Hk H Hl. unfold clean_trademark in H. do 5 inv_bind H.
  assert (a3 !! k = Some (VList l)) as Ha.
  { repeat match goal with
    | E : update_if_truthy ?f _ _ = Ok ?d |- ?d !! k = _ =>
        rewrite (update_if_truthy_ne _ _ _ _ k E); [clear E|by destruct Hk as [-> | ->]]
    end. done. }
  unfold _ensure_required_fields in H. inv_bind H. injection H as <-.
  destruct Hk as [-> | ->].
  - rewrite ensure_list_ne, ensure_list_eq, lookup_insert_ne by done.
    by rewrite (lookup_union_l' a3), Ha by eauto.
  - rewrite ensure_list_eq, ensure_list_ne, lookup_insert_ne by done.
    by rewrite (lookup_union_l' a3), Ha by eauto.
Qed.

Section Completeness.

Variable py_repr : value -> string.
Variable float_of_str : string -> option spec_float.
Variable float_timeval : spec_float -> Z * Z.
Variable localtime : Z -> Z -> result datetime.

Let transform := transform_trademark py_repr float_of_str float_timeval localtime.

Lemma transform_classes_events (raw t : dict) :
  transform raw = Ok t ->
  exists classes events,
    _extract_classes py_repr raw = Ok classes /\
    _extract_events float_of_str float_timeval localtime raw = Ok events /\
    t !! "classes" = Some (VList classes) /\
    t !! "events" = Some (VList events).
Proof.
  unfold transform, transform_trademark. intros H.
  repeat inv_bind H. injection H as <-.
  do 2 eexists. repeat split; by simplify_map_eq.
Qed.

(** C1. Extraction followed by normalization gives a record with every
    canonical field: [classes] and [events] are the lists extraction found
    (empty when it found none), and the owner is a mapping with all of its
    six sub-keys. *)
Theorem pipeline_complete (raw t out : dict) :
  transform raw = Ok t ->
  clean_trademark t = Ok out ->
  complete out /\
  exists classes events,
    _extract_classes py_repr raw = Ok classes /\
    _extract_events float_of_str float_timeval localtime raw = Ok events /\
    out !! "classes" = Some (VList classes) /\
    out !! "events" = Some (VList events).
Proof.
  intros Ht Hc. split; [eauto using clean_trademark_complete|].
  destruct (transform_classes_events _ _ Ht) as (cl & ev & ? & ? & ? & ?).
  exists cl, ev. repeat split; eauto using clean_trademark_keeps_list.
Qed.

End Completeness.

Lemma pipeline_complete_witness :
  exists py_repr float_of_str float_timeval localtime t out,
    transform_trademark py_repr float_of_str float_timeval localtime scenario = Ok t /\
    clean_trademark t = Ok out /\
    complete out.
Proof.
  exists (fun _ => EmptyString), (fun _ => None), (fun _ => (0, 0)%Z),
         (fun _ _ => Raise OSError).
  destruct (is_ok_true
              (bind (transform_trademark (fun _ => EmptyString) (fun _ => None)
                       (fun _ => (0, 0)%Z) (fun _ _ => Raise OSError) scenario)
                    clean_trademark)) as [out E]; [vm_compute; reflexivity|].
  destruct (bind_ok _ _ _ E) as (t & Ht & Hc).
  exists t, out. split; [exact Ht|]. split; [exact Hc|].
  exact (proj1 (pipeline_complete _ _ _ _ _ _ _ Ht Hc)).
Defined.

(** ** Flattening: class count and class numbers *)

Section Flattening.

Variable py_repr : value -> string.
Variable list_gt : list value -> list value -> result bool.

Let flatten := flatten_record py_repr list_gt.

Lemma flatten_owner_other (d : dict) k :
  ~ In k ["owner"; "owner_name"; "owner_address"; "owner_city"; "owner_state";
          "owner_country"; "owner_postal_code"] ->
  flatten_owner d !! k = d !! k.
Proof.
  intros H. unfold flatten_owner.
  destruct (d !! "owner") as [[]|]; try done.
  repeat (rewrite lookup_insert_ne; [|intros <-; apply H; simpl; tauto]).
  apply lookup_delete_ne. intros <-; apply H; simpl; tauto.
Qed.

Lemma flatten_representative_other (d : dict) k :
  ~ In k ["representative"; "rep_name"; "rep_firm"; "rep_address"; "rep_phone";
          "rep_email"] ->
  flatten_representative d !! k = d !! k.
Proof.
  intros H. unfold flatten_representative.
  destruct (d !! "representative") as [[]|]; try done.
  repeat (rewrite lookup_insert_ne; [|intros <-; apply H; simpl; tauto]).
  apply lookup_delete_ne. intros <-; apply H; simpl; tauto.
Qed.

Lemma flatten_events_other (d d' : dict) k :
  ~ In k ["events"; "event_count"; "latest_event_date"; "latest_event_type"] ->
  flatten_events list_gt d = Ok d' -> d' !! k = d !! k.
Proof.
  intros H. unfold flatten_events.
  destruct (d !! "events") as [[]|]; intros E;
    try (injection E as <-;
         by repeat (rewrite lookup_insert_ne; [|intros <-; apply H; simpl; tauto])).
  do 3 inv_bind E. injection E as <-.
  repeat (rewrite lookup_insert_ne; [|intros <-; apply H; simpl; tauto]).
  apply lookup_delete_ne. intros <-; apply H; simpl; tauto.
Qed.

(** The class numbers listed: of the entries whose [class_number] is
    truthy, in order. An element that is not a mapping has no [get]. *)
Lemma class_numbers_of_inv (classes : list value) (nums : list string) :
  class_numbers_of py_repr classes = Ok nums ->
  exists ds, classes = List.map VDict ds /\
    nums = List.map (fun d => py_str py_repr (get d "class_number"))
             (List.filter (fun d => truthy (get d "class_number")) ds).
Proof.
  revert nums. induction classes as [|c classes IH]; simpl; intros nums H.
  - injection H as <-. by exists [].
  - do 2 inv_bind H. injection H as <-.
    destruct c; try discriminate E. injection E as <-.
    destruct (IH _ eq_refl) as (ds & -> & ->). exists (d :: ds). split; [done|].
    simpl. by destruct (truthy (get d "class_number")).
Qed.

Definition example_class_list : list value :=
  [class_entry (VStr "9") VNone; class_entry VNone (VStr "software")].

Definition example_classes : dict := {["classes" := VList example_class_list]}.

(** C9. In [flatten_record], [class_count] is the length of the whole
    [classes] list, while [class_numbers] joins the numbers of the entries
    whose [class_number] is truthy (so never a null one), or is null when
    there is none; the count can exceed the numbers listed. *)
Theorem flatten_class_count :
  (forall (record out : dict) (classes : list value),
     record !! "classes" = Some (VList classes) ->
     flatten record = Ok out ->
     out !! "class_count" = Some (VInt (Z.of_nat (List.length classes))) /\
     exists ds listed,
       classes = List.map VDict ds /\
       listed = List.map (fun d => py_str py_repr (get d "class_number"))
                  (List.filter (fun d => truthy (get d "class_number")) ds) /\
       out !! "class_numbers" =
         Some (match listed with [] => VNone | _ => VStr (join ", " listed) end) /\
       (List.length listed <= List.length classes)%nat /\
       Forall (fun d => get d "class_number" <> VNone)
              (List.filter (fun d => truthy (get d "class_number")) ds)) /\
  (match flatten example_classes with
   | Ok out => (out !! "class_count", out !! "class_numbers")
   | Raise _ => (None, None)
   end = (Some (VInt 2), Some (VStr "9"))).
Proof.
  split; [|vm_compute; reflexivity].
  intros record out classes Hc H.
  unfold flatten, flatten_record in H. do 2 inv_bind H. injection H as <-.
  unfold flatten_classes in E.
  rewrite flatten_representative_other, flatten_owner_other, Hc in E
    by (simpl; intros H; repeat (destruct H as [H|H]; [discriminate H|]); exact H).
  inv_bind E. injection E as <-.
  rewrite !lookup_delete_ne by done.
  assert (forall k, k = "class_count" \/ k = "class_numbers" ->
           ~ In k ["events"; "event_count"; "latest_event_date"; "latest_event_type"])
    as Hother.
  { intros k [-> | ->] H; simpl in H;
      repeat (destruct H as [H|H]; [discriminate H|]); exact H. }
  rewrite (flatten_events_other _ _ "class_count" (Hother _ (or_introl eq_refl)) E0).
  rewrite (flatten_events_other _ _ "class_numbers" (Hother _ (or_intror eq_refl)) E0).
  rewrite lookup_insert_eq, lookup_insert_ne, lookup_insert_eq by done.
  split; [done|].
  destruct (class_numbers_of_inv _ _ E1) as (ds & -> & ->).
  exists ds. eexists. split; [done|]. split; [done|]. split; [done|]. split.
  - rewrite !length_map. apply filter_length_le.
  - apply Forall_forall. intros d Hd. apply list_elem_of_In, filter_In in Hd as [_ Hd].
    by apply truthy_not_none.
Qed.

End Flattening.

Lemma flatten_class_count_witness :
  exists py_repr list_gt out,
    flatten_record py_repr list_gt example_classes = Ok out /\
    out !! "class_count" = Some (VInt 2).
Proof.
  exists (fun _ => EmptyString), (fun _ _ => Raise TypeError).
  destruct (is_ok_true (flatten_record (fun _ => EmptyString)
                          (fun _ _ => Raise TypeError) example_classes)) as [out E];
    [vm_compute; reflexivity|].
  exists out. split; [exact E|].
  exact (proj1 (proj1 (flatten_class_count _ _) example_classes out
                  example_class_list (lookup_singleton_eq _ _) E)).
Defined.

(** ** Multi-source lookup *)

Lemma candidate_keys_undotted (f : field) : undotted (candidate_keys f).
Proof. destruct f; repeat constructor. Qed.

(** Without dotted keys, [_extract_field] returns the value under the first
    key that holds a usable one. *)
Lemma extract_field_none (d : dict) (keys : list string) (dflt : value) :
  undotted keys ->
  (forall k, In k keys -> usable (get d k) = false) ->
  _extract_field d keys dflt = dflt.
Proof.
  induction 1 as [|k keys Hk _ IH]; simpl; intros H; [done|].
  rewrite Hk. pose proof (H k (or_introl eq_refl)) as Hu.
  unfold get, get_or in Hu.
  destruct (d !! k); [rewrite Hu|]; apply IH; auto.
Qed.

Lemma extract_field_first (d : dict) (pre post : list string) k v (dflt : value) :
  undotted (pre ++ k :: post) ->
  (forall k', In k' pre -> usable (get d k') = false) ->
  d !! k = Some v -> usable v = true ->
  _extract_field d (pre ++ k :: post) dflt = v.
Proof.
  induction pre as [|k0 pre IH]; simpl; intros Hd Hpre Hk Hv.
  - apply Forall_cons in Hd as [-> _]. by rewrite Hk, Hv.
  - apply Forall_cons in Hd as [-> Hd].
    pose proof (Hpre k0 (or_introl eq_refl)) as Hu. unfold get, get_or in Hu.
    destruct (d !! k0); [rewrite Hu|]; apply IH; auto.
Qed.

Lemma py_or_empty_dict (d : dict) : py_or (VDict d) (VDict ∅) = VDict d.
Proof.
  unfold py_or. destruct (truthy (VDict d)) eqn:E; [done|].
  cbn [truthy] in E. destruct (dict_is_empty d) eqn:E'; [|discriminate E].
  by apply dict_is_empty_true in E' as ->.
Qed.

Lemma all_sources_raw (record sec : dict) :
  record !! "raw_data" = Some (VDict sec) ->
  exists third, all_sources record = Ok [VDict record; VDict sec; third].
Proof.
  intros H. unfold all_sources, get_or. rewrite H, py_or_empty_dict. eauto.
Qed.

Section Precedence.

Variable py_repr : value -> string.
Variable float_of_str : string -> option spec_float.
Variable float_timeval : spec_float -> Z * Z.
Variable localtime : Z -> Z -> result datetime.

Let transform := transform_trademark py_repr float_of_str float_timeval localtime.
Let normalize_date := _normalize_date float_of_str float_timeval localtime.

(** What [transform_trademark] stores under a field resolved by the
    multi-source lookup. *)
Lemma transform_field (record t : dict) (sources : list value) (f : field) :
  all_sources record = Ok sources ->
  transform record = Ok t ->
  if is_date f
  then exists x, normalize_date (extract sources f) = Ok x /\
                 t !! field_name f = Some x
  else t !! field_name f = Some (extract sources f).
Proof.
  unfold transform, transform_trademark. intros Hs H. rewrite Hs in H. simpl in H.
  repeat inv_bind H. injection H as <-.
  destruct f; simpl; try (eexists; split; [eassumption|]);
    repeat (rewrite lookup_insert_ne by done); by rewrite lookup_insert_eq.
Qed.

(** C3, as the code has it. The sources are searched one after the other,
    each for all the candidate keys of the field: when no candidate key
    holds a usable (non-null, non-empty) value at the top level, the lookup
    returns the value of the first candidate key that holds one in the
    secondary view; when some candidate key holds one at the top level, the
    first such top-level value is returned, whatever the secondary view
    holds. [transform_trademark] stores that value under the field, after
    date normalization for the date fields. *)
Theorem multisource_precedence
    (record sec : dict) (f : field) (pre post : list string) (k : string) (v : value) :
  record !! "raw_data" = Some (VDict sec) ->
  candidate_keys f = (pre ++ k :: post)%list ->
  exists sources,
    all_sources record = Ok sources /\
    ((forall k', In k' (candidate_keys f) -> usable (get record k') = false) ->
     (forall k', In k' pre -> usable (get sec k') = false) ->
     sec !! k = Some v -> usable v = true ->
     extract sources f = v) /\
    ((forall k', In k' pre -> usable (get record k') = false) ->
     record !! k = Some v -> usable v = true ->
     extract sources f = v) /\
    (forall t, transform record = Ok t ->
       if is_date f
       then exists x, normalize_date (extract sources f) = Ok x /\
                      t !! field_name f = Some x
       else t !! field_name f = Some (extract sources f)).
Proof.
  intros Hraw Hkeys.
  destruct (all_sources_raw _ _ Hraw) as [third Hs].
  exists [VDict record; VDict sec; third]. split; [done|].
  pose proof (candidate_keys_undotted f) as Hu.
  split; [|split].
  - intros Htop Hpre Hk Hv. unfold extract. simpl.
    rewrite (extract_field_none record) by done. simpl.
    rewrite Hkeys in Hu |- *.
    by rewrite (extract_field_first sec pre post k v), Hv.
  - intros Hpre Hk Hv. unfold extract. simpl.
    rewrite Hkeys in Hu |- *.
    by rewrite (extract_field_first record pre post k v), Hv.
  - intros t Ht. exact (transform_field _ _ _ f Hs Ht).
Qed.

End Precedence.

(** C3 as stated fails: the candidate key [registrationNumber] is absent at
    the top level and holds a usable value in the raw view, yet the lookup
    returns the top-level value of another candidate key. *)
Lemma multisource_key_counterexample :
  In "registrationNumber" (candidate_keys registration_number) /\
  two_spellings !! "registrationNumber" = None /\
  two_spellings !! "raw_data" = Some (VDict two_spellings_raw) /\
  two_spellings_raw !! "registrationNumber" = Some (VStr "B") /\
  usable (VStr "B") = true /\
  match all_sources two_spellings with
  | Ok sources => extract sources registration_number
  | Raise _ => VNone
  end = VStr "A" /\
  VStr "A" <> VStr "B".
Proof.
  repeat split; try (vm_compute; reflexivity); try discriminate.
  simpl. tauto.
Qed.

Lemma multisource_precedence_witness :
  exists sources,
    all_sources two_spellings = Ok sources /\
    extract sources registration_number = VStr "A".
Proof.
  destruct (multisource_precedence (fun _ => EmptyString) (fun _ => None)
              (fun _ => (0, 0)%Z) (fun _ _ => Raise OSError)
              two_spellings two_spellings_raw registration_number
              ["registrationNumber"] ["registration_number"; "regNum";
                "application_number"; "Application Number"] "regNumber" (VStr "A")
              eq_refl eq_refl) as (sources & Hs & _ & Htop & _).
  exists sources. split; [exact Hs|]. apply Htop.
  - intros k' [<-|[]]. reflexivity.
  - reflexivity.
  - reflexivity.
Defined.

(** ** Date normalization *)

Lemma upto_spec (P : Z -> bool) (n : nat) (i : Z) :
  upto P n = true -> (0 <= i < Z.of_nat n)%Z -> P i = true.
Proof.
  induction n as [|n IH]; simpl; intros H Hi; [lia|].
  apply andb_true_iff in H as [H1 H2].
  destruct (decide (i = Z.of_nat n)) as [->|]; [done|]. apply IH; [done|lia].
Qed.

Lemma pad4_digits (n : Z) : (0 <= n < 10000)%Z -> all_digits 4 (pad 4 n) = true.
Proof.
  intros H. apply (upto_spec (fun i => all_digits 4 (pad 4 i)) (Z.to_nat 10000));
    [vm_compute; reflexivity|lia].
Qed.

Lemma pad2_digits (n : Z) : (0 <= n < 100)%Z -> all_digits 2 (pad 2 n) = true.
Proof.
  intros H. apply (upto_spec (fun i => all_digits 2 (pad 2 i)) (Z.to_nat 100));
    [vm_compute; reflexivity|lia].
Qed.

Lemma days_in_month_le (y m : Z) : (days_in_month y m <= 31)%Z.
Proof.
  unfold days_in_month.
  repeat match goal with |- context [if ?b then _ else _] => destruct b end; lia.
Qed.

Lemma digits_val_acc (d : Decimal.uint) (acc : positive) :
  digits_val (Z.pos acc) (NilEmpty.string_of_uint d) = Z.pos (Pos.of_uint_acc d acc).
Proof.
  revert acc. induction d as [|d IH|d IH|d IH|d IH|d IH|d IH|d IH|d IH|d IH|d IH];
    intros acc; cbn [NilEmpty.string_of_uint digits_val Pos.of_uint_acc]; [done|..];
    rewrite <- IH; f_equal;
    match goal with
    | |- context [digit_val ?c] =>
        let v := eval vm_compute in (digit_val c) in change (digit_val c) with v
    end; lia.
Qed.

Lemma digits_val_uint (d : Decimal.uint) :
  digits_val 0 (NilEmpty.string_of_uint d) = Z.of_N (Pos.of_uint d).
Proof.
  induction d as [|d IH|d IH|d IH|d IH|d IH|d IH|d IH|d IH|d IH|d IH];
    cbn [NilEmpty.string_of_uint digits_val Pos.of_uint]; [done|exact IH|..];
    cbn [Z.of_N]; rewrite <- digits_val_acc; f_equal.
Qed.

Lemma digits_val_str_of_Z (n : Z) : (0 <= n)%Z -> digits_val 0 (str_of_Z n) = n.
Proof.
  intros Hn. unfold str_of_Z. destruct n as [|p|p]; [done| |lia].
  cbn [Z.to_int NilZero.string_of_int]. unfold NilZero.string_of_uint.
  pose proof (Unsigned.of_to p) as Hp.
  destruct (Pos.to_uint p) eqn:E; [cbn in Hp; discriminate Hp|..];
    rewrite digits_val_uint, Hp; reflexivity.
Qed.

Lemma uint_digits (d : Decimal.uint) :
  all_chars isdigit (NilEmpty.string_of_uint d) = true.
Proof.
  induction d as [|d IH|d IH|d IH|d IH|d IH|d IH|d IH|d IH|d IH|d IH];
    cbn [NilEmpty.string_of_uint all_chars]; [done|..]; by rewrite IH.
Qed.

Lemma str_of_Z_digits (n : Z) : (0 <= n)%Z -> all_chars isdigit (str_of_Z n) = true.
Proof.
  intros Hn. unfold str_of_Z. destruct n as [|p|p]; [done| |lia].
  cbn [Z.to_int NilZero.string_of_int]. unfold NilZero.string_of_uint.
  destruct (Pos.to_uint p) eqn:E; [done|..]; apply uint_digits.
Qed.

Lemma digit_val_le (c : ascii) : isdigit c = true -> (0 <= digit_val c <= 9)%Z.
Proof.
  unfold isdigit, digit_val. intros [H1 H2]%andb_true_iff.
  apply Nat.leb_le in H1, H2. lia.
Qed.

Lemma digits_val_lt (s : string) :
  forall acc, (0 <= acc)%Z -> all_chars isdigit s = true ->
  (digits_val acc s < (acc + 1) * 10 ^ Z.of_nat (String.length s))%Z.
Proof.
  induction s as [|c s IH]; intros acc Hacc Hs.
  - cbn [digits_val String.length]. lia.
  - cbn [all_chars] in Hs. apply andb_true_iff in Hs as [Hc Hs].
    pose proof (digit_val_le c Hc) as Hd.
    cbn [digits_val String.length]. rewrite Nat2Z.inj_succ, Z.pow_succ_r by lia.
    pose proof (IH (10 * acc + digit_val c)%Z ltac:(lia) Hs) as Hlt.
    pose proof (Z.pow_pos_nonneg 10 (Z.of_nat (String.length s)) ltac:(lia) ltac:(lia)).
    nia.
Qed.

(** A year of four digits is written in four characters, so that padding
    adds nothing to it. *)
Lemma pad4_year (y : Z) : (1000 <= y)%Z -> pad 4 y = str_of_Z y.
Proof.
  intros Hy. unfold pad.
  pose proof (digits_val_lt (str_of_Z y) 0 ltac:(lia)
                (str_of_Z_digits y ltac:(lia))) as Hlt.
  rewrite digits_val_str_of_Z in Hlt by lia.
  destruct (String.length (str_of_Z y)) as [|[|[|[|n]]]]; [simpl in Hlt; lia..|].
  reflexivity.
Qed.

(** A year below 1000 is written in fewer than four characters. *)
Lemma short_year (y : Z) :
  (0 <= y < 1000)%Z -> (String.length (str_of_Z y) <=? 3)%nat = true.
Proof.
  intros H. apply (upto_spec (fun i => (String.length (str_of_Z i) <=? 3)%nat)
                     (Z.to_nat 1000)); [vm_compute; reflexivity|lia].
Qed.

Lemma strftime_ymd_shape (t : datetime) :
  valid_datetime t = true -> (1000 <= dt_year t)%Z ->
  is_ymd (strftime_ymd t) = true.
Proof.
  unfold valid_datetime. rewrite !andb_true_iff, !Z.leb_le.
  intros [[[[[[[[[[[? ?] ?] ?] ?] ?] _] _] _] _] _] _] Hy1000.
  pose proof (days_in_month_le (dt_year t) (dt_month t)).
  unfold strftime_ymd. rewrite <- (pad4_year _ Hy1000).
  pose proof (pad4_digits (dt_year t) ltac:(lia)) as Hy.
  pose proof (pad2_digits (dt_month t) ltac:(lia)) as Hm.
  pose proof (pad2_digits (dt_day t) ltac:(lia)) as Hd.
  unfold all_digits in *.
  destruct (pad 4 (dt_year t)) as [|y1 [|y2 [|y3 [|y4 [|]]]]]; try discriminate Hy.
  destruct (pad 2 (dt_month t)) as [|m1 [|m2 [|]]]; try discriminate Hm.
  destruct (pad 2 (dt_day t)) as [|d1 [|d2 [|]]]; try discriminate Hd.
  simpl in *. rewrite !andb_true_iff in *.
  destruct Hy as (? & ? & ? & ? & _), Hm as (? & ? & _), Hd as (? & ? & _).
  repeat split; assumption.
Qed.

(** The text of a year below 1000 is too short for the shape. *)
Lemma strftime_ymd_short (t : datetime) :
  valid_datetime t = true -> (dt_year t < 1000)%Z ->
  is_ymd (strftime_ymd t) = false.
Proof.
  unfold valid_datetime. rewrite !andb_true_iff, !Z.leb_le.
  intros [[[[[[[[[[[? ?] ?] ?] ?] ?] _] _] _] _] _] _] Hy1000.
  pose proof (days_in_month_le (dt_year t) (dt_month t)).
  unfold strftime_ymd.
  pose proof (short_year (dt_year t) ltac:(lia)) as Hy.
  pose proof (pad2_digits (dt_month t) ltac:(lia)) as Hm.
  pose proof (pad2_digits (dt_day t) ltac:(lia)) as Hd.
  unfold all_digits in *.
  destruct (pad 2 (dt_month t)) as [|m1 [|m2 [|]]]; try discriminate Hm.
  destruct (pad 2 (dt_day t)) as [|d1 [|d2 [|]]]; try discriminate Hd.
  destruct (str_of_Z (dt_year t)) as [|y1 [|y2 [|y3 [|]]]]; try discriminate Hy;
    reflexivity.
Qed.

Lemma strftime_ymd_is_ymd (t : datetime) :
  valid_datetime t = true ->
  is_ymd (strftime_ymd t) = (1000 <=? dt_year t)%Z.
Proof.
  intros Hv. destruct (Z.leb_spec 1000 (dt_year t)).
  - by apply strftime_ymd_shape.
  - by apply strftime_ymd_short.
Qed.

Lemma strptime_valid (s fmt : string) (t : datetime) :
  strptime s fmt = Some t -> valid_datetime t = true.
Proof.
  unfold strptime, datetime_of_groups. intros H.
  repeat match type of H with
  | match ?x with _ => _ end = _ => destruct x eqn:?; try discriminate H
  | (if ?x then _ else _) = _ => destruct x eqn:?; try discriminate H
  | (let (_, _) := ?x in _) = _ => destruct x eqn:?
  end; by injection H as <-.
Qed.

Lemma first_format_valid (s : string) (formats : list string) (t : datetime) :
  first_format s formats = Some t -> valid_datetime t = true.
Proof.
  induction formats as [|fmt formats IH]; simpl; [done|].
  destruct (strptime s fmt) eqn:E; [|done].
  intros [= <-]. eauto using strptime_valid.
Qed.

Section Dates.

Variable float_of_str : string -> option spec_float.
Variable float_timeval : spec_float -> Z * Z.
Variable localtime : Z -> Z -> result datetime.

Let normalize_date := _normalize_date float_of_str float_timeval localtime.

(** C4. The documented examples of date normalization; the ambiguous
    ["01/02/2020"] parses under both slash patterns and takes the month-first
    one, which stands earlier in the list. Any text that one of the patterns
    parses is rendered by [strftime], and the rendering has the shape
    ["YYYY-MM-DD"] exactly when the year is 1000 or later: the year is
    written without leading zeros, so that ["0999-01-01"], which the first
    pattern parses, becomes ["999-01-01"]. *)
Theorem normalize_date_patterns :
  normalize_date (VStr "15.03.2021") = Ok (VStr "2021-03-15") /\
  normalize_date (VStr "2021-03-15T10:00:00Z") = Ok (VStr "2021-03-15") /\
  normalize_date (VStr "March 15, 2021") = Ok (VStr "2021-03-15") /\
  normalize_date (VStr "01/02/2020") = Ok (VStr "2020-01-02") /\
  (option_map strftime_ymd (strptime "01/02/2020" "%m/%d/%Y") = Some "2020-01-02" /\
   option_map strftime_ymd (strptime "01/02/2020" "%d/%m/%Y") = Some "2020-02-01" /\
   exists pre mid post,
     date_formats = (pre ++ "%m/%d/%Y" :: mid ++ "%d/%m/%Y" :: post)%list /\
     Forall (fun fmt => strptime "01/02/2020" fmt = None) pre) /\
  (forall s t,
     first_format s date_formats = Some t ->
     normalize_date (VStr s) = Ok (VStr (strftime_ymd t)) /\
     is_ymd (strftime_ymd t) = (1000 <=? dt_year t)%Z) /\
  (normalize_date (VStr "0999-01-01") = Ok (VStr "999-01-01") /\
   is_ymd "999-01-01" = false).
Proof.
  split; [vm_compute; reflexivity|].
  split; [vm_compute; reflexivity|].
  split; [vm_compute; reflexivity|].
  split; [vm_compute; reflexivity|].
  split; [split; [vm_compute; reflexivity|split; [vm_compute; reflexivity|]]|].
  - exists ["%Y-%m-%d"; "%Y/%m/%d"], [],
      ["%d.%m.%Y"; "%d-%m-%Y"; "%Y-%m-%dT%H:%M:%S"; "%Y-%m-%dT%H:%M:%SZ";
       "%Y-%m-%d %H:%M:%S"; "%B %d, %Y"; "%b %d, %Y"; "%d %B %Y"; "%d %b %Y"].
    split; [reflexivity|].
    constructor; [vm_compute; reflexivity|].
    constructor; [vm_compute; reflexivity|]. constructor.
  - split; [|split; vm_compute; reflexivity].
    intros s t H. split.
    + unfold normalize_date, _normalize_date. by rewrite H.
    + eauto using strftime_ymd_is_ymd, first_format_valid.
Qed.

End Dates.

Lemma normalize_date_patterns_witness :
  exists float_of_str float_timeval localtime t,
    first_format "2021-03-15" date_formats = Some t /\
    _normalize_date float_of_str float_timeval localtime (VStr "2021-03-15") =
      Ok (VStr (strftime_ymd t)).
Proof.
  exists (fun _ => None), (fun _ => (0, 0)%Z), (fun _ _ => Raise OSError).
  destruct (first_format "2021-03-15" date_formats) as [t|] eqn:E;
    [|vm_compute in E; discriminate E].
  exists t. split; [reflexivity|].
  exact (proj1 (proj1 (proj2 (proj2 (proj2 (proj2 (proj2
           (normalize_date_patterns _ _ _)))))) "2021-03-15" t E)).
Defined.

(** ** Inputs on which the core raises *)

Section Failures.

Variable py_repr : value -> string.
Variable float_of_str : string -> option spec_float.
Variable float_timeval : spec_float -> Z * Z.
Variable localtime : Z -> Z -> result datetime.

Let normalize_date := _normalize_date float_of_str float_timeval localtime.
Let transform := transform_trademark py_repr float_of_str float_timeval localtime.

(** C6, at inputs where the code raises. A timestamp beyond the range of
    [time_t] passes the handler of the numeric branch, which catches
    [ValueError] and [OSError] only; a [raw_data] that is a string has no
    [get]; a numeric owner state has no [strip]. *)
Theorem core_raises :
  normalize_date (VInt (10 ^ 30)) = Raise OverflowError /\
  transform {["raw_data" := VStr "x"]} = Raise AttributeError /\
  bind (transform {["owner" := VDict {["state" := VInt 5]}]}) clean_trademark
    = Raise AttributeError.
Proof.
  split; [reflexivity|]. split; vm_compute; reflexivity.
Qed.

End Failures.

(** ** The matcher and the language of a pattern *)

Lemma plus_run_sound {A} (ic : bool) (p : ascii -> bool) (s : string)
    (k : string -> option A) (a : A) :
  plus_run p s k = Some a ->
  exists s', rlang ic (RPlus p) s s' /\ k s' = Some a.
Proof.
  induction s as [|x s IH]; simpl; [done|].
  destruct (p x) eqn:Hp; [|done].
  destruct (plus_run p s k) as [a'|] eqn:E.
  - intros [= ->]. destruct (IH eq_refl) as (s' & H1 & H2).
    exists s'. split; [by apply L_plus_more|done].
  - intros H. exists s. split; [by apply L_plus_one|done].
Qed.

(** A result of the matcher comes from a match in the language. *)
Lemma rmatch_sound {A} (ic : bool) (r : regex) :
  forall (s : string) (cs : captures) (k : string -> captures -> option A) (a : A),
  rmatch ic r s cs k = Some a ->
  exists s' cs', rlang ic r s s' /\ k s' cs' = Some a.
Proof.
  induction r as [|c|p|p|r1 IH1 r2 IH2|r1 IH1 r2 IH2|r1 IH1| |name r1 IH1];
    simpl; intros s cs k a H.
  - eauto using rlang.
  - destruct s as [|x s]; [done|]. destruct (chr_eq ic c x) eqn:E; [|done].
    eauto using rlang.
  - destruct s as [|x s]; [done|]. destruct (p x) eqn:E; [|done].
    eauto using rlang.
  - apply (plus_run_sound ic) in H as (s' & H1 & H2). eauto.
  - apply IH1 in H as (s' & cs' & H1 & H). apply IH2 in H as (s'' & cs'' & H2 & H).
    eauto using rlang.
  - destruct (rmatch ic r1 s cs k) eqn:E.
    + injection H as ->. apply IH1 in E as (s' & cs' & H1 & H). eauto using rlang.
    + apply IH2 in H as (s' & cs' & H1 & H). eauto using rlang.
  - destruct (rmatch ic r1 s cs k) eqn:E.
    + injection H as ->. apply IH1 in E as (s' & cs' & H1 & H). eauto using rlang.
    + eauto using rlang.
  - destruct (at_end s) eqn:E; [|done]. eauto using rlang.
  - apply IH1 in H as (s' & cs' & H1 & H). eauto using rlang.
Qed.

(** A match in the language, followed by a continuation that accepts what
    it leaves, makes the matcher succeed. *)
Lemma rmatch_complete {A} (ic : bool) (r : regex) (s s' : string) :
  rlang ic r s s' ->
  forall (cs : captures) (k : string -> captures -> option A),
  (forall cs', is_Some (k s' cs')) -> is_Some (rmatch ic r s cs k).
Proof.
  induction 1; simpl; intros cs k Hk.
  - auto.
  - rewrite H. auto.
  - rewrite H. auto.
  - rewrite H. destruct (plus_run p s _); eauto.
  - rewrite H. specialize (IHrlang cs k Hk). simpl in IHrlang.
    by destruct (plus_run p s _).
  - apply IHrlang1. intros cs'. by apply IHrlang2.
  - destruct (IHrlang cs k Hk) as [a ->]. eauto.
  - destruct (rmatch ic r1 s cs k); [eauto|by apply IHrlang].
  - destruct (IHrlang cs k Hk) as [a ->]. eauto.
  - destruct (rmatch ic r s cs k); eauto.
  - rewrite H. auto.
  - apply IHrlang. intros cs'. apply Hk.
Qed.

(** What a successful [match_at] took is a match in the language. *)
Lemma match_at_sound (ic : bool) (r : regex) (s : string) n cs :
  match_at ic r s = Some (n, cs) ->
  exists s', rlang ic r s s' /\ n = String.length s - String.length s'.
Proof.
  unfold match_at. intros H. apply rmatch_sound in H as (s' & cs' & H1 & H2).
  injection H2 as <- <-. eauto.
Qed.

Lemma match_at_complete (ic : bool) (r : regex) (s s' : string) :
  rlang ic r s s' -> is_Some (match_at ic r s).
Proof. intros H. apply (rmatch_complete _ _ _ _ H). eauto. Qed.

Lemma match_at_none (ic : bool) (r : regex) (s : string) :
  (forall s', ~ rlang ic r s s') -> match_at ic r s = None.
Proof.
  intros H. destruct (match_at ic r s) as [[n cs]|] eqn:E; [|done].
  apply match_at_sound in E as (s' & E & _). by apply H in E.
Qed.

(** What a match leaves is a suffix of where it started. *)
Lemma str_app_cons (c : ascii) (a b : string) : String c a ++ b = String c (a ++ b).
Proof. reflexivity. Qed.

Lemma str_app_nil_l (a : string) : EmptyString ++ a = a.
Proof. reflexivity. Qed.

Lemma str_app_assoc (a b c : string) : (a ++ b) ++ c = a ++ (b ++ c).
Proof. induction a as [|x a IH]; [done|]. by rewrite !str_app_cons, IH. Qed.

Lemma str_app_nil_r (a : string) : a ++ EmptyString = a.
Proof. induction a as [|x a IH]; [done|]. by rewrite str_app_cons, IH. Qed.

Lemma str_length_app (a b : string) :
  String.length (a ++ b) = String.length a + String.length b.
Proof. induction a as [|x a IH]; [done|]. rewrite str_app_cons. simpl. by rewrite IH. Qed.

Lemma rlang_suffix (ic : bool) (r : regex) (s s' : string) :
  rlang ic r s s' -> exists p, s = p ++ s'.
Proof.
  induction 1.
  - by exists EmptyString.
  - by exists (String x EmptyString).
  - by exists (String x EmptyString).
  - by exists (String x EmptyString).
  - destruct IHrlang as [q ->]. by exists (String x q).
  - destruct IHrlang1 as [q1 ->], IHrlang2 as [q2 ->]. exists (q1 ++ q2).
    by rewrite str_app_assoc.
  - done.
  - done.
  - done.
  - by exists EmptyString.
  - by exists EmptyString.
  - done.
Qed.

(** ** Scanning: [re.sub] over white space *)

Lemma sub_scan_skip (ic : bool) (r : regex) (repl s : string) (n : nat) :
  n <= String.length s ->
  sub_scan ic r repl s n = sub_scan ic r repl (drop_str n s) 0.
Proof.
  revert n. induction s as [|c s IH]; intros [|n] H; simpl in *; try done; [lia|].
  apply IH. lia.
Qed.

Lemma length_lstrip (s : string) : String.length (lstrip s) <= String.length s.
Proof. induction s as [|c s IH]; simpl; [done|]. destruct (isspace c); simpl; lia. Qed.

Lemma drop_lstrip (s : string) :
  drop_str (String.length s - String.length (lstrip s)) s = lstrip s.
Proof.
  induction s as [|c s IH]; simpl; [done|].
  pose proof (length_lstrip s).
  destruct (isspace c); simpl.
  - replace (S (String.length s) - String.length (lstrip s))
      with (S (String.length s - String.length (lstrip s))) by lia.
    done.
  - by rewrite Nat.sub_diag.
Qed.

(** A greedy run before a continuation that always accepts takes the
    longest run. *)
Lemma plus_run_longest {A} (c : ascii) (s : string) (k : string -> option A)
    (f : string -> A) :
  (forall s', k s' = Some (f s')) ->
  isspace c = true ->
  plus_run isspace (String c s) k = Some (f (lstrip s)).
Proof.
  intros Hk. revert c. induction s as [|d s IH]; intros c Hc; simpl; rewrite Hc; [done|].
  destruct (isspace d) eqn:Hd; [|done].
  specialize (IH d Hd). simpl in IH. rewrite Hd in IH. by rewrite IH.
Qed.

Lemma match_at_ws_plus (c : ascii) (s : string) :
  isspace c = true ->
  match_at false ws_plus (String c s)
    = Some (S (String.length s - String.length (lstrip s)), []).
Proof.
  intros Hc. unfold match_at, ws_plus. cbn [rmatch].
  rewrite (plus_run_longest c s _
             (fun s' => (String.length (String c s) - String.length s',
                         [] : captures)))
    by done.
  pose proof (length_lstrip s). cbn [String.length]. do 2 f_equal. lia.
Qed.

Lemma sub_ws_nil : sub_ws EmptyString = EmptyString.
Proof. reflexivity. Qed.

Lemma sub_ws_other (c : ascii) (s : string) :
  isspace c = false -> sub_ws (String c s) = String c (sub_ws s).
Proof.
  intros Hc. unfold sub_ws, re_sub. cbn [sub_scan].
  unfold match_at, ws_plus. cbn [rmatch plus_run]. by rewrite Hc.
Qed.

Lemma sub_ws_space (c : ascii) (s : string) :
  isspace c = true -> sub_ws (String c s) = String " " (sub_ws (lstrip s)).
Proof.
  intros Hc. unfold sub_ws, re_sub. cbn [sub_scan].
  rewrite match_at_ws_plus by done. pose proof (length_lstrip s).
  rewrite sub_scan_skip by lia. by rewrite drop_lstrip.
Qed.

Lemma rstrip_single_spaced (s : string) : single_spaced s = true -> rstrip s = s.
Proof.
  induction s as [|c s IH]; simpl; [done|].
  intros H. apply andb_true_iff in H as [H1 H2]. rewrite (IH H2).
  destruct s as [|d s]; [|done].
  destruct (isspace c); [|done]. simpl in H1. by rewrite andb_false_r in H1.
Qed.

Lemma lstrip_starts_clean (s : string) : starts_clean s = true -> lstrip s = s.
Proof. destruct s as [|c s]; simpl; [done|]. by destruct (isspace c). Qed.

Lemma strip_normalized (s : string) : normalized s = true -> strip s = s.
Proof.
  unfold normalized, strip. intros H. apply andb_true_iff in H as [H1 H2].
  by rewrite lstrip_starts_clean, rstrip_single_spaced.
Qed.

Lemma sub_ws_single_spaced (s : string) : single_spaced s = true -> sub_ws s = s.
Proof.
  induction s as [|c s IH]; [done|]. cbn [single_spaced].
  intros H. apply andb_true_iff in H as [H1 H2].
  destruct (isspace c) eqn:Hc.
  - simpl in H1. apply andb_true_iff in H1 as [Hsp Hd].
    apply Ascii.eqb_eq in Hsp as ->.
    rewrite sub_ws_space by done.
    destruct s as [|d s]; [done|]. cbn [lstrip].
    apply negb_true_iff in Hd. by rewrite Hd, IH.
  - by rewrite sub_ws_other, IH.
Qed.

Lemma starts_clean_lstrip (s : string) : starts_clean (lstrip s) = true.
Proof.
  induction s as [|c s IH]; simpl; [done|].
  destruct (isspace c) eqn:Hc; [done|]. simpl. by rewrite Hc.
Qed.

Lemma lstrip_nil_rstrip (s : string) : lstrip s = EmptyString -> rstrip s = EmptyString.
Proof.
  induction s as [|c s IH]; simpl; [done|].
  destruct (isspace c) eqn:Hc; [|done]. intros H. by rewrite (IH H).
Qed.

Lemma rstrip_fixed_tail (c : ascii) (s : string) :
  rstrip (String c s) = String c s -> rstrip s = s.
Proof.
  simpl. destruct (rstrip s) eqn:E.
  - destruct (isspace c); [done|]. by intros [= <-].
  - by intros [= <-].
Qed.

Lemma rstrip_fixed_lstrip (s : string) : rstrip s = s -> rstrip (lstrip s) = lstrip s.
Proof.
  induction s as [|c s IH]; [done|]. intros H. cbn [lstrip].
  destruct (isspace c); [|done]. apply IH. by apply rstrip_fixed_tail in H.
Qed.

Lemma rstrip_idem (s : string) : rstrip (rstrip s) = rstrip s.
Proof.
  induction s as [|c s IH]; [done|]. cbn [rstrip].
  destruct (rstrip s) as [|d r] eqn:E.
  - destruct (isspace c) eqn:Hc; [done|]. simpl. by rewrite Hc.
  - remember (String d r) as u eqn:Hu. cbn [rstrip]. rewrite IH.
    by rewrite Hu.
Qed.

Lemma starts_clean_rstrip (s : string) :
  starts_clean s = true -> starts_clean (rstrip s) = true.
Proof.
  destruct s as [|c s]; simpl; [done|]. intros Hc.
  destruct (rstrip s); [|done]. apply negb_true_iff in Hc. rewrite Hc. simpl. by rewrite Hc.
Qed.

Lemma starts_clean_sub_ws (s : string) :
  starts_clean s = true -> starts_clean (sub_ws s) = true.
Proof.
  destruct s as [|c s]; [done|]. simpl. intros Hc.
  apply negb_true_iff in Hc. rewrite sub_ws_other by done. simpl. by rewrite Hc.
Qed.

(** Collapsing the white space of a text that does not end in white space
    leaves single spaces only. *)
Lemma single_spaced_sub_ws (n : nat) :
  forall s, String.length s <= n -> rstrip s = s -> single_spaced (sub_ws s) = true.
Proof.
  induction n as [|n IH]; intros [|c s] Hn Hr; try done; [simpl in Hn; lia|].
  simpl in Hn. pose proof (rstrip_fixed_tail _ _ Hr) as Hs.
  destruct (isspace c) eqn:Hc.
  - rewrite sub_ws_space by done.
    pose proof (length_lstrip s). pose proof (starts_clean_lstrip s) as Hl.
    pose proof (starts_clean_sub_ws _ Hl) as Hl'.
    cbn [single_spaced]. rewrite IH by (try lia; by apply rstrip_fixed_lstrip).
    destruct (lstrip s) as [|d u] eqn:E.
    + apply lstrip_nil_rstrip in E. simpl in Hr. rewrite E, Hc in Hr. done.
    + destruct (sub_ws (String d u)) as [|d' u'] eqn:E'.
      * simpl in Hl. apply negb_true_iff in Hl.
        rewrite sub_ws_other in E' by done. done.
      * simpl in Hl'. by rewrite Hl'.
  - rewrite sub_ws_other by done. cbn [single_spaced]. rewrite Hc. simpl.
    apply IH; [lia|done].
Qed.

Lemma normalize_normalized (s : string) : normalized (normalize s) = true.
Proof.
  unfold normalized, normalize, strip. apply andb_true_iff. split.
  - apply starts_clean_sub_ws, starts_clean_rstrip, starts_clean_lstrip.
  - apply (single_spaced_sub_ws (String.length (rstrip (lstrip s)))); [done|].
    apply rstrip_idem.
Qed.

Lemma normalize_fixed (s : string) : normalized s = true -> normalize s = s.
Proof.
  intros H. unfold normalize. rewrite strip_normalized by done.
  apply sub_ws_single_spaced. unfold normalized in H.
  by apply andb_true_iff in H as [_ H].
Qed.

Lemma normalize_idem (s : string) : normalize (normalize s) = normalize s.
Proof. apply normalize_fixed, normalize_normalized. Qed.

(** ** The legal-entity suffix *)

Lemma legal_suffix_unfold : legal_suffix = RSeq (RPlus isspace) suffix_tail.
Proof. reflexivity. Qed.

Lemma chr_eq_lower (c x : ascii) : chr_eq true c x = true -> lower_char x = lower_char c.
Proof. unfold chr_eq. intros H. by apply Ascii.eqb_eq in H. Qed.

Ltac invert_lang :=
  repeat match goal with
  | H : rlang _ (RSeq _ _) _ _ |- _ => inversion H; clear H; subst
  | H : rlang _ (RAlt _ _) _ _ |- _ => inversion H; clear H; subst
  | H : rlang _ (ROpt _) _ _ |- _ => inversion H; clear H; subst
  | H : rlang _ (RGroup _ _) _ _ |- _ => inversion H; clear H; subst
  | H : rlang _ (RChr _) _ _ |- _ => inversion H; clear H; subst
  | H : rlang _ REnd _ _ |- _ => inversion H; clear H; subst
  end.

(** What the alternatives and the anchor match is a designator, up to the
    end of the text. *)
Lemma suffix_tail_sound (s s' : string) :
  rlang true suffix_tail s s' ->
  at_end s' = true /\ exists p, s = p ++ s' /\ is_designator p = true.
Proof.
  unfold suffix_tail, designator_alternatives. cbv [ralt rstr]. intros H.
  invert_lang;
    (split; [assumption|]);
    repeat match goal with
    | H : chr_eq true ?c _ = true |- _ =>
        apply chr_eq_lower in H;
        let v := eval vm_compute in (lower_char c) in
        change (lower_char c) with v in H
    end;
    match goal with
    | |- exists p, ?s = p ++ ?s' /\ _ =>
        let rec prefix t :=
          lazymatch t with
          | s' => constr:(EmptyString)
          | String ?x ?t' => let r := prefix t' in constr:(String x r)
          end in
        let p := prefix s in exists p
    end;
    (split; [reflexivity|]);
    unfold is_designator, lower; cbn [smap];
    repeat match goal with H : lower_char _ = _ |- _ => rewrite H; clear H end;
    reflexivity.
Qed.

(** A designator is matched by the alternatives, up to the anchor. *)
Lemma suffix_tail_complete (d : string) :
  is_designator d = true -> rlang true suffix_tail d EmptyString.
Proof.
  intros H.
  assert (rmatch true suffix_tail d []
            (fun s' _ => match s' with EmptyString => Some tt | _ => None end)
          = Some tt) as Hm.
  { unfold is_designator, designators in H. cbn [existsb] in H.
    repeat (apply orb_prop in H; destruct H as [H|H]); try discriminate H;
      apply String.eqb_eq in H;
      repeat (destruct d as [|? d]; [discriminate H|]);
      unfold lower in H; cbn [smap] in H.
    all: repeat match type of H with
         | String _ _ = String _ _ => injection H as ? H
         end.
    all: match goal with
         | H : smap lower_char ?d = EmptyString |- _ =>
             destruct d; [clear H|discriminate H]
         end.
    all: cbv [suffix_tail designator_alternatives ralt rstr rmatch chr_eq].
    all: repeat match goal with H : lower_char _ = _ |- _ => rewrite H; clear H end.
    all: reflexivity. }
  apply rmatch_sound in Hm as (s' & cs' & Hl & Hk).
  by destruct s'.
Qed.

Lemma isspace_lower (c : ascii) : isspace (lower_char c) = isspace c.
Proof. destruct c as [[] [] [] [] [] [] [] []]; reflexivity. Qed.

Lemma no_space_lower (s : string) : no_space (lower s) = no_space s.
Proof.
  induction s as [|c s IH]; [done|]. unfold lower in *. cbn [smap no_space].
  by rewrite isspace_lower, IH.
Qed.

Lemma no_space_app (a b : string) : no_space (a ++ b) = no_space a && no_space b.
Proof.
  induction a as [|c a IH]; [done|]. rewrite str_app_cons. cbn [no_space].
  by rewrite IH, andb_assoc.
Qed.

Lemma designator_no_space (d : string) : is_designator d = true -> no_space d = true.
Proof.
  unfold is_designator, designators. cbn [existsb]. intros H.
  rewrite <- no_space_lower.
  repeat (apply orb_prop in H; destruct H as [H|H]); try discriminate H;
    apply String.eqb_eq in H; by rewrite H.
Qed.

Lemma designator_starts_clean (d : string) :
  is_designator d = true -> starts_clean d = true /\ d <> EmptyString.
Proof.
  intros H. pose proof (designator_no_space _ H) as Hn.
  destruct d as [|c d]; [discriminate H|]. simpl in Hn.
  apply andb_true_iff in Hn as [Hc _]. done.
Qed.

Lemma at_end_cases (s : string) :
  at_end s = true -> s = EmptyString \/ s = String "010" EmptyString.
Proof.
  destruct s as [|c [|d s]]; simpl; try done; [by left|].
  intros H. apply Ascii.eqb_eq in H as ->. by right.
Qed.

(** In single-spaced text a white space is a space character with a word
    after it, and the last character is not white space. *)
Lemma single_spaced_cons_space (c : ascii) (s : string) :
  single_spaced (String c s) = true -> isspace c = true ->
  c = " "%char /\ starts_clean s = true /\ s <> EmptyString /\ single_spaced s = true.
Proof.
  cbn [single_spaced]. intros H Hc. rewrite Hc in H. simpl in H.
  apply andb_true_iff in H as [H1 H2]. apply andb_true_iff in H1 as [H0 H1].
  apply Ascii.eqb_eq in H0. destruct s; [done|]. done.
Qed.

Lemma single_spaced_tail (c : ascii) (s : string) :
  single_spaced (String c s) = true -> single_spaced s = true.
Proof. cbn [single_spaced]. intros H. by apply andb_true_iff in H as [_ H]. Qed.

Lemma single_spaced_last (p : string) (c : ascii) :
  single_spaced (p ++ String c EmptyString) = true -> isspace c = false.
Proof.
  induction p as [|x p IH].
  - rewrite str_app_nil_l. simpl. destruct (isspace c); [|done].
    by rewrite andb_false_r.
  - rewrite str_app_cons. intros H. by apply single_spaced_tail, IH in H.
Qed.

Lemma plus_space_inv (ic : bool) (c : ascii) (rest s1 : string) :
  rlang ic (RPlus isspace) (String c rest) s1 ->
  starts_clean rest = true -> s1 = rest.
Proof.
  intros H Hr. inversion H; subst; [done|].
  match goal with Hm : rlang _ (RPlus _) rest _ |- _ => inversion Hm; subst end;
    simpl in Hr;
    match goal with E : isspace ?x = true |- _ => by rewrite E in Hr end.
Qed.

Lemma legal_match_inv (c : ascii) (rest : string) (n : nat) (cs : captures) :
  single_spaced (String c rest) = true ->
  match_at true legal_suffix (String c rest) = Some (n, cs) ->
  c = " "%char /\ is_designator rest = true /\ n = S (String.length rest).
Proof.
  intros Hs Hm. apply match_at_sound in Hm as (s' & Hl & ->).
  rewrite legal_suffix_unfold in Hl.
  inversion Hl as [| | | | |? ? ? s1 ? Hp Ht| | | | | |]; subst.
  assert (isspace c = true) as Hc by (inversion Hp; subst; done).
  destruct (single_spaced_cons_space _ _ Hs Hc) as (-> & Hclean & Hne & Hrest).
  apply plus_space_inv in Hp as ->; [|done].
  apply suffix_tail_sound in Ht as (Hend & p & -> & Hd).
  destruct (at_end_cases _ Hend) as [-> | ->].
  - rewrite str_app_nil_r. split; [done|]. split; [done|]. simpl. lia.
  - by apply single_spaced_last in Hrest.
Qed.

Lemma legal_match_designator (d : string) :
  is_designator d = true ->
  exists cs, match_at true legal_suffix (String " " d) = Some (S (String.length d), cs).
Proof.
  intros Hd. destruct (designator_starts_clean _ Hd) as [Hclean Hne].
  assert (rlang true legal_suffix (String " " d) EmptyString) as Hl.
  { rewrite legal_suffix_unfold. eapply L_seq; [by apply L_plus_one|].
    by apply suffix_tail_complete. }
  destruct (match_at_complete _ _ _ _ Hl) as [[n cs] Hm].
  exists cs. rewrite Hm. do 2 f_equal.
  apply match_at_sound in Hm as (s' & Hl' & ->).
  rewrite legal_suffix_unfold in Hl'.
  inversion Hl' as [| | | | |? ? ? s1 ? Hp Ht| | | | | |]; subst.
  apply plus_space_inv in Hp as ->; [|done].
  apply suffix_tail_sound in Ht as (Hend & p & E & Hp).
  destruct (at_end_cases _ Hend) as [-> | ->]; [simpl; lia|].
  apply designator_no_space in Hd. rewrite E, no_space_app in Hd.
  by rewrite andb_comm in Hd.
Qed.

Lemma legal_nomatch_word (c : ascii) (s : string) :
  isspace c = false -> match_at true legal_suffix (String c s) = None.
Proof. intros Hc. unfold match_at. cbn [legal_suffix rseq rmatch plus_run]. by rewrite Hc. Qed.

Lemma drop_str_all (s : string) : drop_str (String.length s) s = EmptyString.
Proof. induction s; simpl; auto. Qed.

Lemma no_space_middle (a b : string) : no_space (a ++ " " ++ b) = false.
Proof.
  rewrite no_space_app. rewrite str_app_cons. cbn [no_space].
  by rewrite andb_false_r.
Qed.

(** The suffix is removed when it stands at the end, after a space. *)
Lemma strip_suffix_decomp (stem d : string) :
  single_spaced (stem ++ " " ++ d) = true ->
  is_designator d = true ->
  strip_legal_suffix (stem ++ " " ++ d) = stem.
Proof.
  intros Hs Hd. unfold strip_legal_suffix, re_sub.
  induction stem as [|c stem IH].
  - rewrite str_app_nil_l, str_app_cons, str_app_nil_l. cbn [sub_scan].
    destruct (legal_match_designator _ Hd) as [cs ->].
    rewrite str_app_nil_l, sub_scan_skip, drop_str_all by lia. reflexivity.
  - rewrite str_app_cons in Hs |- *. cbn [sub_scan].
    destruct (match_at true legal_suffix (String c (stem ++ " " ++ d)))
      as [[n cs]|] eqn:Hm.
    + apply legal_match_inv in Hm as (_ & Hm & _); [|done].
      apply designator_no_space in Hm. by rewrite no_space_middle in Hm.
    + f_equal. apply IH. by apply single_spaced_tail in Hs.
Qed.

(** Otherwise the text is left as it is. *)
Lemma strip_suffix_cases (s : string) :
  single_spaced s = true ->
  strip_legal_suffix s = s \/
  exists stem d, s = stem ++ " " ++ d /\ is_designator d = true.
Proof.
  unfold strip_legal_suffix, re_sub.
  induction s as [|c s IH]; intros Hs; [by left|].
  cbn [sub_scan].
  destruct (match_at true legal_suffix (String c s)) as [[n cs]|] eqn:Hm.
  - apply legal_match_inv in Hm as (-> & Hd & _); [|done].
    right. by exists EmptyString, s.
  - destruct (IH (single_spaced_tail _ _ Hs)) as [-> | (stem & d & -> & Hd)].
    + by left.
    + right. by exists (String c stem), d.
Qed.

Lemma single_spaced_prefix (a b : string) :
  single_spaced (a ++ " " ++ b) = true -> single_spaced a = true.
Proof.
  induction a as [|c a IH]; [done|]. rewrite str_app_cons. cbn [single_spaced].
  intros H. apply andb_true_iff in H as [H1 H2]. rewrite (IH H2), andb_true_r.
  destruct a as [|x a]; [|done].
  rewrite str_app_nil_l, str_app_cons in H1. simpl in H1.
  destruct (isspace c); [|done]. by rewrite andb_false_r in H1.
Qed.

Lemma normalized_strip_suffix (t : string) :
  normalized t = true -> normalized (strip_legal_suffix t) = true.
Proof.
  intros H. pose proof H as H'. unfold normalized in H'.
  apply andb_true_iff in H' as [Hc Hs].
  destruct (strip_suffix_cases _ Hs) as [-> | (stem & d & -> & Hd)]; [done|].
  rewrite strip_suffix_decomp by done.
  unfold normalized. rewrite (single_spaced_prefix _ _ Hs), andb_true_r.
  destruct stem; [|done]. done.
Qed.

Lemma clean_name_text (name : string) :
  name <> EmptyString ->
  clean_name (VStr name) = Ok (VStr (strip_legal_suffix (normalize name))).
Proof.
  intros H. unfold clean_name, _normalize_text. cbn [truthy].
  destruct (String.eqb_spec name EmptyString) as [->|_]; [done|]. reflexivity.
Qed.

(** C5. On the normalized owner name, the pattern removes a designator of
    the fixed set (in any letter case) exactly when it is the last word,
    after a space, and it removes that one occurrence only: what stands
    before it is returned as it is. *)
Theorem legal_suffix_stripping :
  (forall name : string,
     name <> EmptyString ->
     clean_name (VStr name) = Ok (VStr (strip_legal_suffix (normalize name))) /\
     normalized (normalize name) = true) /\
  (forall t stem d : string,
     normalized t = true -> t = stem ++ " " ++ d -> is_designator d = true ->
     strip_legal_suffix t = stem) /\
  (forall t : string,
     normalized t = true -> strip_legal_suffix t <> t ->
     exists stem d,
       t = stem ++ " " ++ d /\ is_designator d = true /\ strip_legal_suffix t = stem) /\
  strip_legal_suffix (normalize "Acme Corp.") = "Acme" /\
  strip_legal_suffix (normalize "Acme Corporation of America")
    = "Acme Corporation of America" /\
  strip_legal_suffix (normalize "Acme Inc LLC") = "Acme Inc" /\
  match _clean_owner (VDict {["name" := VStr "Acme Corp."]}) with
  | Ok (VDict owner) => owner !! "name"
  | _ => None
  end = Some (VStr "Acme").
Proof.
  split; [|split; [|split; [|repeat split; vm_compute; reflexivity]]].
  - intros name H. split; [by apply clean_name_text|apply normalize_normalized].
  - intros t stem d Hn -> Hd. apply strip_suffix_decomp; [|done].
    unfold normalized in Hn. by apply andb_true_iff in Hn as [_ Hn].
  - intros t Hn Hne. pose proof Hn as Hn'. unfold normalized in Hn'.
    apply andb_true_iff in Hn' as [_ Hs].
    destruct (strip_suffix_cases _ Hs) as [E | (stem & d & -> & Hd)]; [done|].
    exists stem, d. split; [done|]. split; [done|]. by apply strip_suffix_decomp.
Qed.

Lemma legal_suffix_stripping_witness :
  normalized "Acme Inc LLC" = true /\
  is_designator "LLC" = true /\
  strip_legal_suffix "Acme Inc LLC" = "Acme Inc".
Proof.
  split; [reflexivity|]. split; [reflexivity|].
  exact (proj1 (proj2 legal_suffix_stripping) "Acme Inc LLC" "Acme Inc" "LLC"
           eq_refl eq_refl eq_refl).
Defined.

(** ** The field steps of normalization are idempotent *)

Lemma isspace_upper (c : ascii) : isspace (upper_char c) = isspace c.
Proof. destruct c as [[] [] [] [] [] [] [] []]; reflexivity. Qed.

Lemma upper_char_idem (c : ascii) : upper_char (upper_char c) = upper_char c.
Proof. destruct c as [[] [] [] [] [] [] [] []]; reflexivity. Qed.

Lemma lower_char_idem (c : ascii) : lower_char (lower_char c) = lower_char c.
Proof. destruct c as [[] [] [] [] [] [] [] []]; reflexivity. Qed.

Lemma smap_idem (f : ascii -> ascii) (s : string) :
  (forall c, f (f c) = f c) -> smap f (smap f s) = smap f s.
Proof. intros Hf. induction s as [|c s IH]; simpl; [done|]. by rewrite Hf, IH. Qed.

Section MapStrip.

Variable f : ascii -> ascii.
Hypothesis f_space : forall c, isspace (f c) = isspace c.

Lemma lstrip_smap (s : string) : lstrip (smap f s) = smap f (lstrip s).
Proof.
  induction s as [|c s IH]; simpl; [done|]. rewrite f_space.
  by destruct (isspace c).
Qed.

Lemma rstrip_smap (s : string) : rstrip (smap f s) = smap f (rstrip s).
Proof.
  induction s as [|c s IH]; simpl; [done|]. rewrite IH, f_space.
  destruct (rstrip s); simpl; [|done]. by destruct (isspace c).
Qed.

Lemma strip_smap (s : string) : strip (smap f s) = smap f (strip s).
Proof. unfold strip. by rewrite lstrip_smap, rstrip_smap. Qed.

End MapStrip.

Lemma strip_idem (s : string) : strip (strip s) = strip s.
Proof.
  unfold strip.
  rewrite (lstrip_starts_clean (rstrip (lstrip s)))
    by apply starts_clean_rstrip, starts_clean_lstrip.
  apply rstrip_idem.
Qed.

Lemma upper_strip_idem (s : string) : upper (strip (upper (strip s))) = upper (strip s).
Proof.
  unfold upper. rewrite (strip_smap _ isspace_upper), strip_idem.
  apply smap_idem, upper_char_idem.
Qed.

Lemma lower_strip_idem (s : string) : lower (strip (lower (strip s))) = lower (strip s).
Proof.
  unfold lower. rewrite (strip_smap _ isspace_lower), strip_idem.
  apply smap_idem, lower_char_idem.
Qed.

Lemma re_sub_set (p : ascii -> bool) (s : string) :
  re_sub false (RSet p) EmptyString s = sfilter (fun c => negb (p c)) s.
Proof.
  unfold re_sub. induction s as [|c s IH]; [done|].
  cbn [sub_scan sfilter]. unfold match_at. cbn [rmatch].
  destruct (p c); cbn [negb]; [|by rewrite IH].
  cbn [String.length]. rewrite Nat.sub_succ_l, Nat.sub_diag by lia.
  by rewrite str_app_nil_l, IH.
Qed.

Lemma sfilter_idem (keep : ascii -> bool) (s : string) :
  sfilter keep (sfilter keep s) = sfilter keep s.
Proof.
  induction s as [|c s IH]; simpl; [done|].
  destruct (keep c) eqn:E; [|done]. simpl. by rewrite E, IH.
Qed.

Lemma normalize_text_str (s : string) :
  DataCleaner._normalize_text (VStr s) = VStr (normalize s).
Proof.
  unfold DataCleaner._normalize_text. cbn [truthy].
  by destruct (String.eqb_spec s EmptyString) as [->|_].
Qed.

Lemma normalize_text_idem (v : value) :
  DataCleaner._normalize_text (DataCleaner._normalize_text v)
    = DataCleaner._normalize_text v.
Proof.
  destruct v as [| | | |s| | |]; try done.
  by rewrite !normalize_text_str, normalize_idem.
Qed.

Lemma normalize_text_step_idem : idem_step normalize_text_step.
Proof.
  intros v v' H _. injection H as <-. unfold normalize_text_step.
  by rewrite normalize_text_idem.
Qed.

Lemma strip_upper_idem : idem_step strip_upper.
Proof.
  intros [| | | |s| | |] v' H _; try done. injection H as <-. simpl.
  by rewrite upper_strip_idem.
Qed.

Lemma strip_lower_idem : idem_step strip_lower.
Proof.
  intros [| | | |s| | |] v' H _; try done. injection H as <-. simpl.
  by rewrite lower_strip_idem.
Qed.

Lemma clean_phone_idem : idem_step clean_phone.
Proof.
  intros [| | | |s| | |] v' H _; try done. injection H as <-.
  unfold clean_phone, not_phone_char. by rewrite !re_sub_set, sfilter_idem.
Qed.

Lemma clean_name_ok (v v' : value) :
  truthy v = true -> clean_name v = Ok v' -> name_ok v'.
Proof.
  unfold clean_name. intros Hv H _.
  destruct v as [| | | |s| | |]; try done.
  rewrite normalize_text_str in H. injection H as <-.
  eexists. split; [done|]. apply normalized_strip_suffix, normalize_normalized.
Qed.

Lemma clean_name_fixed (n : string) :
  normalized n = true -> strip_legal_suffix n = n -> fixed clean_name (VStr n).
Proof.
  intros Hn Hs Ht. cbn [truthy] in Ht.
  rewrite clean_name_text by (intros ->; done).
  by rewrite normalize_fixed, Hs.
Qed.

(** ** A second pass of [clean_trademark] *)

Lemma update_establishes k f (d d' : dict) :
  idem_step f -> update_if_truthy k f d = Ok d' ->
  forall v, d' !! k = Some v -> fixed f v.
Proof.
  intros Hf H v Hv.
  destruct (update_if_truthy_eq _ _ _ _ H) as [(v0 & v' & _ & _ & Hfv & ->)|[-> Hd]].
  - rewrite lookup_insert_eq in Hv. injection Hv as <-. eauto.
  - intros Ht. by rewrite (Hd _ Hv) in Ht.
Qed.

Lemma update_noop k f (d : dict) :
  (forall v, d !! k = Some v -> fixed f v) -> update_if_truthy k f d = Ok d.
Proof.
  intros H. unfold update_if_truthy.
  destruct (d !! k) as [v|] eqn:E; [|done].
  destruct (truthy v) eqn:Et; [|done].
  rewrite (H v eq_refl Et). simpl. by rewrite insert_id.
Qed.

Lemma update_name_ok (d d' : dict) :
  update_if_truthy "name" clean_name d = Ok d' ->
  forall v, d' !! "name" = Some v -> name_ok v.
Proof.
  intros H v Hv.
  destruct (update_if_truthy_eq _ _ _ _ H) as [(v0 & v' & _ & Ht & Hfv & ->)|[-> Hd]].
  - rewrite lookup_insert_eq in Hv. injection Hv as <-. eauto using clean_name_ok.
  - intros Ht. by rewrite (Hd _ Hv) in Ht.
Qed.

Lemma truthy_dict_lookup (o : dict) k v : o !! k = Some v -> truthy (VDict o) = true.
Proof.
  intros H. cbn [truthy]. destruct (dict_is_empty o) eqn:E; [|done].
  apply dict_is_empty_true in E as ->. by rewrite lookup_empty in H.
Qed.

Lemma clean_owner_cleaned (v0 : value) (o : dict) :
  truthy v0 = true -> _clean_owner v0 = Ok (VDict o) -> owner_cleaned o.
Proof.
  unfold _clean_owner. intros Ht H. rewrite Ht in H. cbn [negb] in H.
  destruct v0 as [| | | | |l|d|]; try discriminate H.
  { by destruct (mentions _ l). }
  do 6 inv_bind H. injection H as <-.
  pose proof (update_name_ok _ _ E) as H1.
  pose proof (update_establishes _ _ _ _ normalize_text_step_idem E0) as H2.
  pose proof (update_establishes _ _ _ _ normalize_text_step_idem E1) as H3.
  pose proof (update_establishes _ _ _ _ strip_upper_idem E2) as H4.
  pose proof (update_establishes _ _ _ _ strip_upper_idem E3) as H5.
  pose proof (update_establishes _ _ _ _ strip_upper_idem E4) as H6.
  repeat split; intros v Hv.
  - apply H1.
    rewrite (update_if_truthy_ne _ _ _ _ "name" E4),
            (update_if_truthy_ne _ _ _ _ "name" E3),
            (update_if_truthy_ne _ _ _ _ "name" E2),
            (update_if_truthy_ne _ _ _ _ "name" E1),
            (update_if_truthy_ne _ _ _ _ "name" E0) in Hv by done. done.
  - apply H2.
    rewrite (update_if_truthy_ne _ _ _ _ "address" E4),
            (update_if_truthy_ne _ _ _ _ "address" E3),
            (update_if_truthy_ne _ _ _ _ "address" E2),
            (update_if_truthy_ne _ _ _ _ "address" E1) in Hv by done. done.
  - apply H3.
    rewrite (update_if_truthy_ne _ _ _ _ "city" E4),
            (update_if_truthy_ne _ _ _ _ "city" E3),
            (update_if_truthy_ne _ _ _ _ "city" E2) in Hv by done. done.
  - apply H4.
    rewrite (update_if_truthy_ne _ _ _ _ "state" E4),
            (update_if_truthy_ne _ _ _ _ "state" E3) in Hv by done. done.
  - apply H5.
    rewrite (update_if_truthy_ne _ _ _ _ "country" E4) in Hv by done. done.
  - by apply H6.
Qed.

Lemma clean_owner_noop (o : dict) :
  truthy (VDict o) = true ->
  (forall v, o !! "name" = Some v -> fixed clean_name v) ->
  (forall v, o !! "address" = Some v -> fixed normalize_text_step v) ->
  (forall v, o !! "city" = Some v -> fixed normalize_text_step v) ->
  (forall v, o !! "state" = Some v -> fixed strip_upper v) ->
  (forall v, o !! "country" = Some v -> fixed strip_upper v) ->
  (forall v, o !! "postal_code" = Some v -> fixed strip_upper v) ->
  _clean_owner (VDict o) = Ok (VDict o).
Proof.
  intros Ht H1 H2 H3 H4 H5 H6. unfold _clean_owner. rewrite Ht. cbn [negb].
  rewrite (update_noop "name") by done. cbn [bind].
  rewrite (update_noop "address") by done. cbn [bind].
  rewrite (update_noop "city") by done. cbn [bind].
  rewrite (update_noop "state") by done. cbn [bind].
  rewrite (update_noop "country") by done. cbn [bind].
  rewrite (update_noop "postal_code") by done. reflexivity.
Qed.

Lemma clean_representative_idem : idem_step _clean_representative.
Proof.
  intros v0 v' H Ht'. unfold _clean_representative in H.
  destruct (truthy v0) eqn:Ht; cbn [negb] in H;
    [|injection H as <-; by rewrite Ht in Ht'].
  destruct v0 as [| | | | |l|d|]; try discriminate H.
  { destruct (mentions _ l) eqn:E; [done|]. injection H as <-.
    unfold _clean_representative. by rewrite Ht, E. }
  do 5 inv_bind H. injection H as <-.
  pose proof (update_establishes _ _ _ _ normalize_text_step_idem E) as H1.
  pose proof (update_establishes _ _ _ _ normalize_text_step_idem E0) as H2.
  pose proof (update_establishes _ _ _ _ normalize_text_step_idem E1) as H3.
  pose proof (update_establishes _ _ _ _ clean_phone_idem E2) as H4.
  pose proof (update_establishes _ _ _ _ strip_lower_idem E3) as H5.
  unfold _clean_representative. rewrite Ht'. cbn [negb].
  rewrite (update_noop "name"); cbn [bind].
  2:{ intros v Hv. apply H1.
      rewrite (update_if_truthy_ne _ _ _ _ "name" E3),
              (update_if_truthy_ne _ _ _ _ "name" E2),
              (update_if_truthy_ne _ _ _ _ "name" E1),
              (update_if_truthy_ne _ _ _ _ "name" E0) in Hv by done. done. }
  rewrite (update_noop "firm"); cbn [bind].
  2:{ intros v Hv. apply H2.
      rewrite (update_if_truthy_ne _ _ _ _ "firm" E3),
              (update_if_truthy_ne _ _ _ _ "firm" E2),
              (update_if_truthy_ne _ _ _ _ "firm" E1) in Hv by done. done. }
  rewrite (update_noop "address"); cbn [bind].
  2:{ intros v Hv. apply H3.
      rewrite (update_if_truthy_ne _ _ _ _ "address" E3),
              (update_if_truthy_ne _ _ _ _ "address" E2) in Hv by done. done. }
  rewrite (update_noop "phone"); cbn [bind].
  2:{ intros v Hv. apply H4.
      rewrite (update_if_truthy_ne _ _ _ _ "phone" E3) in Hv by done. done. }
  rewrite (update_noop "email"); cbn [bind]; [done|].
  intros v Hv. by apply H5.
Qed.

Lemma union_absorb (m req : dict) :
  (forall k, is_Some (req !! k) -> is_Some (m !! k)) -> m ∪ req = m.
Proof.
  intros H. apply map_eq. intros k. rewrite lookup_union.
  destruct (m !! k) eqn:Em, (req !! k) eqn:Er; try done.
  destruct (H k) as [x Hx]; [by rewrite Er|]. by rewrite Em in Hx.
Qed.

Lemma required_owner_None k : ~ In k owner_keys -> required_owner !! k = None.
Proof.
  intros H. unfold required_owner.
  repeat (rewrite lookup_insert_ne; [|intros <-; apply H; simpl; tauto]).
  apply lookup_empty.
Qed.

Lemma In_dec_str (k : string) (l : list string) : In k l \/ ~ In k l.
Proof. destruct (in_dec string_dec k l); auto. Qed.

(** On a complete record, required-field completion changes nothing. *)
Lemma ensure_required_noop (r : dict) :
  complete r -> _ensure_required_fields r = Ok r.
Proof.
  intros (Hkeys & [cl Hcl] & [ev Hev] & o & Ho & Hok).
  unfold _ensure_required_fields. rewrite Ho.
  destruct (Hok "name") as [vn Hvn]; [simpl; tauto|].
  rewrite (truthy_dict_lookup _ _ _ Hvn). cbn [bind].
  rewrite (union_absorb o).
  2:{ intros k Hk. destruct (In_dec_str k owner_keys) as [Hin|Hin]; [auto|].
      rewrite required_owner_None in Hk by done. by destruct Hk. }
  rewrite (union_absorb r).
  2:{ intros k Hk. destruct (In_dec_str k canonical_fields) as [Hin|Hin]; [auto|].
      rewrite required_structure_None in Hk by done. by destruct Hk. }
  rewrite insert_id by done.
  unfold ensure_list. by rewrite Hcl, Hev.
Qed.

(** The value of a field other than owner, classes and events after
    [_ensure_required_fields]: the input's, or null. *)
Lemma ensure_required_scalar (c r : dict) k v :
  In k ["representative"; "mark_text"; "status"; "goods_services"] ->
  _ensure_required_fields c = Ok r ->
  r !! k = Some v -> c !! k = Some v \/ v = VNone.
Proof.
  intros Hk H Hv. unfold _ensure_required_fields in H. inv_bind H. injection H as <-.
  assert (k <> "owner" /\ k <> "classes" /\ k <> "events") as (? & ? & ?).
  { simpl in Hk. repeat split; intros ->;
      repeat (destruct Hk as [Hk|Hk]; [discriminate Hk|]); done. }
  rewrite !ensure_list_ne, lookup_insert_ne in Hv by done.
  apply lookup_union_Some_raw in Hv as [Hv|[_ Hv]]; [by left|right].
  simpl in Hk. repeat (destruct Hk as [<-|Hk]; [by injection Hv as <-|]). done.
Qed.

Lemma fixed_none (f : value -> result value) : fixed f VNone.
Proof. intros H. discriminate H. Qed.

Lemma settled_fixed (n : string) :
  normalized n = true ->
  (forall stem d, n = stem ++ " " ++ d -> is_designator d = false) ->
  fixed clean_name (VStr n).
Proof.
  intros Hn Hs. apply clean_name_fixed; [done|].
  unfold normalized in Hn. apply andb_true_iff in Hn as [_ Hn].
  destruct (strip_suffix_cases _ Hn) as [E|(stem & d & E & Hd)]; [done|].
  by rewrite (Hs _ _ E) in Hd.
Qed.

(** C2, as the code has it. A second pass of [clean_trademark] returns the
    record of the first, provided the owner name left by the first pass
    does not end in a further legal designator (one trailing occurrence is
    removed per pass). *)
Theorem clean_trademark_idempotent (x r : dict) :
  clean_trademark x = Ok r ->
  owner_name_settled r ->
  clean_trademark r = Ok r.
Proof.
  intros H Hset. pose proof (clean_trademark_complete _ _ H) as Hc.
  unfold clean_trademark in H. do 5 inv_bind H.
  rename a into c1, a0 into c2, a1 into c3, a2 into c4, a3 into c5.
  (* what the first pass left under each key *)
  assert (forall v, c5 !! "representative" = Some v -> fixed _clean_representative v)
    as Hrep.
  { intros v Hv.
    rewrite (update_if_truthy_ne _ _ _ _ "representative" E3),
            (update_if_truthy_ne _ _ _ _ "representative" E2),
            (update_if_truthy_ne _ _ _ _ "representative" E1) in Hv by done.
    by apply (update_establishes _ _ _ _ clean_representative_idem E0). }
  assert (forall v, c5 !! "mark_text" = Some v -> fixed normalize_text_step v) as Hmt.
  { intros v Hv.
    rewrite (update_if_truthy_ne _ _ _ _ "mark_text" E3),
            (update_if_truthy_ne _ _ _ _ "mark_text" E2) in Hv by done.
    by apply (update_establishes _ _ _ _ normalize_text_step_idem E1). }
  assert (forall v, c5 !! "status" = Some v -> fixed normalize_text_step v) as Hst.
  { intros v Hv.
    rewrite (update_if_truthy_ne _ _ _ _ "status" E3) in Hv by done.
    by apply (update_establishes _ _ _ _ normalize_text_step_idem E2). }
  assert (forall v, c5 !! "goods_services" = Some v -> fixed normalize_text_step v)
    as Hgs.
  { intros v. by apply (update_establishes _ _ _ _ normalize_text_step_idem E3). }
  assert (forall ro, c5 !! "owner" = Some (VDict ro) -> truthy (VDict ro) = true ->
                     owner_cleaned ro) as Hown.
  { intros ro Hv Ht.
    rewrite (update_if_truthy_ne _ _ _ _ "owner" E3),
            (update_if_truthy_ne _ _ _ _ "owner" E2),
            (update_if_truthy_ne _ _ _ _ "owner" E1),
            (update_if_truthy_ne _ _ _ _ "owner" E0) in Hv by done.
    destruct (update_if_truthy_eq _ _ _ _ E) as [(v0 & v' & _ & Ht0 & Hf & ->)|[-> Hd]].
    - rewrite lookup_insert_eq in Hv. injection Hv as ->.
      eauto using clean_owner_cleaned.
    - by rewrite (Hd _ Hv) in Ht. }
  (* the owner of the result *)
  destruct (ensure_required_owner _ _ H) as (o & Ho & Hkeys & Hval).
  assert (_clean_owner (VDict o) = Ok (VDict o)) as Hco.
  { assert (forall k v, In k owner_keys -> o !! k = Some v ->
              v = VNone \/ exists ro, c5 !! "owner" = Some (VDict ro) /\
                                     truthy (VDict ro) = true /\ ro !! k = Some v)
      as Hcase.
    { intros k v Hk Hv. rewrite (Hval k Hk) in Hv.
      destruct (c5 !! "owner") as [[| | | | | |ro|]|]; try (left; congruence).
      destruct (truthy (VDict ro)) eqn:Et; [|left; congruence].
      destruct (ro !! k) eqn:Ek; [|left; congruence].
      right. exists ro. repeat split; congruence. }
    destruct (Hkeys "name") as [vn Hvn]; [simpl; tauto|].
    apply clean_owner_noop; [by eapply truthy_dict_lookup|..]; intros v Hv.
    - destruct (Hcase "name" v) as [->|(ro & Hro & Ht & Hk)];
        [simpl; tauto|done|apply fixed_none|].
      destruct (Hown ro Hro Ht) as (Hn & _).
      intros Htv. destruct (Hn v Hk Htv) as (n & -> & Hnorm).
      apply settled_fixed; [done| |done].
      intros stem d. by apply (Hset o).
    - destruct (Hcase "address" v) as [->|(ro & Hro & Ht & Hk)];
        [simpl; tauto|done|apply fixed_none|].
      destruct (Hown ro Hro Ht) as (_ & Hf & _). eauto.
    - destruct (Hcase "city" v) as [->|(ro & Hro & Ht & Hk)];
        [simpl; tauto|done|apply fixed_none|].
      destruct (Hown ro Hro Ht) as (_ & _ & Hf & _). eauto.
    - destruct (Hcase "state" v) as [->|(ro & Hro & Ht & Hk)];
        [simpl; tauto|done|apply fixed_none|].
      destruct (Hown ro Hro Ht) as (_ & _ & _ & Hf & _). eauto.
    - destruct (Hcase "country" v) as [->|(ro & Hro & Ht & Hk)];
        [simpl; tauto|done|apply fixed_none|].
      destruct (Hown ro Hro Ht) as (_ & _ & _ & _ & Hf & _). eauto.
    - destruct (Hcase "postal_code" v) as [->|(ro & Hro & Ht & Hk)];
        [simpl; tauto|done|apply fixed_none|].
      destruct (Hown ro Hro Ht) as (_ & _ & _ & _ & _ & Hf). eauto. }
  (* the second pass *)
  unfold clean_trademark.
  rewrite (update_noop "owner"); cbn [bind].
  2:{ intros v Hv. rewrite Ho in Hv. injection Hv as <-. by intros _. }
  rewrite (update_noop "representative"); cbn [bind].
  2:{ intros v Hv.
      destruct (ensure_required_scalar c5 r "representative" v) as [Hv'| ->];
        [simpl; tauto|done|done|eauto|apply fixed_none]. }
  rewrite (update_noop "mark_text"); cbn [bind].
  2:{ intros v Hv.
      destruct (ensure_required_scalar c5 r "mark_text" v) as [Hv'| ->];
        [simpl; tauto|done|done|eauto|apply fixed_none]. }
  rewrite (update_noop "status"); cbn [bind].
  2:{ intros v Hv.
      destruct (ensure_required_scalar c5 r "status" v) as [Hv'| ->];
        [simpl; tauto|done|done|eauto|apply fixed_none]. }
  rewrite (update_noop "goods_services"); cbn [bind].
  2:{ intros v Hv.
      destruct (ensure_required_scalar c5 r "goods_services" v) as [Hv'| ->];
        [simpl; tauto|done|done|eauto|apply fixed_none]. }
  by apply ensure_required_noop.
Qed.

(** C2 as stated fails: the first pass leaves ["Acme Inc"], the second
    ["Acme"]. *)
Lemma clean_twice_counterexample :
  owner_name_of (clean_trademark suffixed_twice) = Some (VStr "Acme Inc") /\
  owner_name_of (bind (clean_trademark suffixed_twice) clean_trademark)
    = Some (VStr "Acme") /\
  bind (clean_trademark suffixed_twice) clean_trademark
    <> clean_trademark suffixed_twice.
Proof.
  assert (owner_name_of (clean_trademark suffixed_twice) = Some (VStr "Acme Inc"))
    as H1 by (vm_compute; reflexivity).
  assert (owner_name_of (bind (clean_trademark suffixed_twice) clean_trademark)
          = Some (VStr "Acme")) as H2 by (vm_compute; reflexivity).
  split; [exact H1|]. split; [exact H2|].
  intros E. rewrite E, H1 in H2. discriminate H2.
Qed.

Lemma clean_trademark_idempotent_witness :
  exists r, clean_trademark scenario = Ok r /\ clean_trademark r = Ok r.
Proof.
  destruct (is_ok_true (clean_trademark scenario)) as [r E];
    [vm_compute; reflexivity|].
  exists r. split; [exact E|].
  apply (clean_trademark_idempotent scenario r E).
  intros o n stem d Ho Hn ->.
  assert (owner_name_of (clean_trademark scenario) = Some (VStr "Acme")) as H
    by (vm_compute; reflexivity).
  rewrite E in H. unfold owner_name_of in H. rewrite Ho, Hn in H.
  injection H as H. apply (f_equal no_space) in H.
  rewrite no_space_middle in H. discriminate H.
Defined.

(** ** The class fallback *)

Lemma plus_run_exact {A} (p : ascii -> bool) (run rest : string)
    (k : string -> option A) (a : A) :
  run <> EmptyString -> all_chars p run = true -> stops p rest = true ->
  k rest = Some a ->
  plus_run p (run ++ rest) k = Some a.
Proof.
  intros Hne Hall Hstop Hk. induction run as [|c run IH]; [done|].
  rewrite str_app_cons. cbn [plus_run]. cbn [all_chars] in Hall.
  apply andb_true_iff in Hall as [-> Hall].
  destruct run as [|d run].
  - rewrite str_app_nil_l.
    destruct rest as [|x rest]; cbn [plus_run]; [done|].
    simpl in Hstop. apply negb_true_iff in Hstop. by rewrite Hstop.
  - by rewrite IH.
Qed.

Lemma take_str_app (a b : string) :
  take_str (String.length (a ++ b) - String.length b) (a ++ b) = a.
Proof.
  rewrite str_length_app, Nat.add_sub.
  induction a as [|c a IH]; [by destruct b|].
  rewrite str_app_cons. cbn [String.length take_str]. by rewrite IH.
Qed.

Lemma digit_not_space (c : ascii) : isdigit c = true -> isspace c = false.
Proof. destruct c as [[] [] [] [] [] [] [] []]; done. Qed.

(** What [class_pattern] matches: [Class] or [class], white space, digits;
    its group is the digits. *)
Lemma class_pattern_match (c : ascii) (ws ds tail : string) :
  c = "C"%char \/ c = "c"%char ->
  ws <> EmptyString -> all_chars isspace ws = true ->
  ds <> EmptyString -> all_chars isdigit ds = true ->
  stops isdigit tail = true ->
  match_at false class_pattern (String c ("lass" ++ ws ++ ds ++ tail))
    = Some (String.length (String c ("lass" ++ ws ++ ds)), [("1", ds)]).
Proof.
  intros Hc Hws Haws Hds Hads Htail.
  unfold match_at, class_pattern. cbn [rseq rstr rmatch].
  assert ((Ascii.eqb c "C" || Ascii.eqb c "c") = true) as ->
    by (destruct Hc as [-> | ->]; reflexivity).
  rewrite !str_app_cons, str_app_nil_l. cbn [chr_eq]. rewrite !Ascii.eqb_refl.
  apply plus_run_exact; [done|done| |].
  { destruct ds as [|d ds]; [done|]. rewrite str_app_cons. simpl.
    simpl in Hads. apply andb_true_iff in Hads as [Hd _].
    by rewrite (digit_not_space _ Hd). }
  apply plus_run_exact; [done|done|done|].
  rewrite take_str_app. do 2 f_equal.
  cbn [String.length]. rewrite !str_length_app. cbn [String.length]. lia.
Qed.

Lemma class_pattern_findall (c : ascii) (ws ds : string) :
  c = "C"%char \/ c = "c"%char ->
  ws <> EmptyString -> all_chars isspace ws = true ->
  ds <> EmptyString -> all_chars isdigit ds = true ->
  re_findall false class_pattern "1" (String c ("lass" ++ ws ++ ds)) = [ds].
Proof.
  intros Hc Hws Haws Hds Hads. unfold re_findall. cbn [findall_scan].
  pose proof (class_pattern_match c ws ds EmptyString Hc Hws Haws Hds Hads eq_refl)
    as Hm.
  rewrite str_app_nil_r in Hm. rewrite Hm. cbn [String.length List.find fst snd].
  rewrite String.eqb_refl. f_equal.
  generalize ("lass" ++ ws ++ ds). intros s.
  induction s as [|x s IH]; [done|]. cbn [String.length findall_scan]. exact IH.
Qed.

Lemma scan_sources_absent (fields : list string) (sources : list value) :
  (forall d f, In (VDict d) sources -> In f fields -> d !! f = None) ->
  scan_sources fields sources VNone = VNone.
Proof.
  induction sources as [|src sources IH]; intros H; [done|].
  assert (scan_sources fields sources VNone = VNone) as IH'
    by (apply IH; intros d f Hd; apply H; by right).
  destruct src; cbn [scan_sources]; try done.
  rewrite first_present_none; [done|].
  intros f Hf. apply (H d f); [by left|done].
Qed.

Section ClassFallback.

Variable py_repr : value -> string.

(** C8, as the code has it. With no class field in any source and a text
    under the goods/services keys, the classes are one entry per match of
    [[Cc]lass\s+(\d+)] in that text, each with the matched digits as
    [class_number] and a null description. The pattern accepts [Class] and
    [class]; it is not applied case-insensitively. *)
Theorem class_fallback (record : dict) (sources : list value) (text : string) :
  all_sources record = Ok sources ->
  (forall d f, In (VDict d) sources -> In f class_fields -> d !! f = None) ->
  _extract_field_multisource sources
    ["goodsServices"; "goods_services"; "description"] VNone = VStr text ->
  text <> EmptyString ->
  _extract_classes py_repr record
    = Ok (List.map (fun m => class_entry (VStr m) VNone)
            (re_findall false class_pattern "1" text)) /\
  (forall c ws ds,
     c = "C"%char \/ c = "c"%char ->
     ws <> EmptyString -> all_chars isspace ws = true ->
     ds <> EmptyString -> all_chars isdigit ds = true ->
     re_findall false class_pattern "1" (String c ("lass" ++ ws ++ ds)) = [ds]) /\
  re_findall false class_pattern "1" "Class 9, class 42 and CLASS 7" = ["9"; "42"].
Proof.
  intros Hs Habs Hg Ht. split; [|split; [apply class_pattern_findall|reflexivity]].
  unfold _extract_classes. rewrite Hs. cbn [bind].
  rewrite scan_sources_absent by done. cbn [truthy].
  rewrite Hg. cbn [truthy py_str].
  by destruct (String.eqb_spec text EmptyString).
Qed.

End ClassFallback.

(** C8 as stated fails: the spelling [CLASS 9] gives no class entry,
    whatever the rendering of other values. *)
Lemma class_shouted_counterexample :
  (fun py_repr => class_numbers_found (_extract_classes py_repr shouted))
    = (fun _ => Some []) /\
  (fun py_repr => class_numbers_found (_extract_classes py_repr capitalized))
    = (fun _ => Some [VStr "9"]).
Proof. split; vm_compute; reflexivity. Qed.

Lemma class_fallback_witness :
  exists py_repr sources,
    all_sources capitalized = Ok sources /\
    class_numbers_found (_extract_classes py_repr capitalized) = Some [VStr "9"].
Proof.
  exists (fun _ => EmptyString).
  destruct (is_ok_true (all_sources capitalized)) as [sources E];
    [vm_compute; reflexivity|].
  exists sources. split; [exact E|].
  assert (sources = [VDict capitalized; VDict ∅; VDict ∅]) as Es.
  { unfold all_sources in E.
    change (get_or capitalized "raw_data" (VDict ∅)) with (VDict ∅) in E.
    rewrite py_or_empty_dict in E.
    change (get_or ∅ "_raw_excel_data" (VDict ∅)) with (VDict ∅) in E.
    rewrite py_or_empty_dict in E. by injection E as <-. }
  rewrite (proj1 (class_fallback (fun _ => EmptyString) capitalized sources "Class 9"
                    E
                    ltac:(subst sources; intros d f [[= <-]|[[= <-]|[[= <-]|[]]]] Hf;
                          simpl in Hf;
                          repeat (destruct Hf as [<-|Hf]; [reflexivity|]);
                          destruct Hf)
                    ltac:(subst sources; reflexivity)
                    ltac:(discriminate))).
  reflexivity.
Defined.

(** * Further properties *)

(** ** Field lookup *)

(** X1. What the multi-source lookup returns is the default, or a usable
    (non-null, non-empty) value that [_extract_field] finds in one of the
    dict sources: a null or an empty string of a source is never passed on. *)
Theorem multisource_result_usable
    (sources : list value) (keys : list string) (dflt : value) :
  _extract_field_multisource sources keys dflt = dflt \/
  (usable (_extract_field_multisource sources keys dflt) = true /\
   exists d, In (VDict d) sources /\
     _extract_field d keys VNone = _extract_field_multisource sources keys dflt).
Proof.
  induction sources as [|src sources IH]; [by left|].
  assert (_extract_field_multisource sources keys dflt = dflt \/
    (usable (_extract_field_multisource sources keys dflt) = true /\
     exists d, In (VDict d) (src :: sources) /\
       _extract_field d keys VNone = _extract_field_multisource sources keys dflt))
    as IH'.
  { destruct IH as [IH|(Hu & d & Hd & E)]; [by left|right].
    split; [done|]. exists d. split; [by right|done]. }
  destruct src; cbn [_extract_field_multisource]; try exact IH'.
  destruct (usable (_extract_field d keys VNone)) eqn:E; [|exact IH'].
  right. split; [done|]. exists d. split; [by left|done].
Qed.

Lemma split_on_no_sep (sep : ascii) (s : string) :
  contains_char sep s = false -> split_on sep s = [s].
Proof.
  induction s as [|c s IH]; [done|]. cbn [contains_char split_on].
  intros H. apply orb_false_iff in H as [H1 H2]. by rewrite H1, IH.
Qed.

Lemma split_on_first (sep : ascii) (a b : string) :
  contains_char sep a = false ->
  split_on sep (a ++ String sep b) = a :: split_on sep b.
Proof.
  induction a as [|c a IH]; intros H.
  - rewrite str_app_nil_l. cbn [split_on]. by rewrite Ascii.eqb_refl.
  - cbn [contains_char] in H. apply orb_false_iff in H as [H1 H2].
    rewrite str_app_cons. cbn [split_on]. by rewrite H1, IH.
Qed.

Lemma contains_char_app (c : ascii) (a b : string) :
  contains_char c (a ++ b) = contains_char c a || contains_char c b.
Proof.
  induction a as [|x a IH]; [done|]. rewrite str_app_cons. cbn [contains_char].
  by rewrite IH, orb_assoc.
Qed.

(** X2. A dotted candidate key [a.b] is resolved by descent: it gives
    [record[a][b]] when [record[a]] is a mapping that has [b] with a value
    other than null (an empty string is accepted on this path), and the
    search goes on with the next candidates when [a] is missing, is not a
    mapping, or has no [b]. *)
Theorem dotted_key_lookup
    (record : dict) (a b : string) (keys : list string) (dflt : value) :
  contains_char "." a = false -> contains_char "." b = false ->
  (forall (inner : dict) (v : value),
     record !! a = Some (VDict inner) -> inner !! b = Some v -> v <> VNone ->
     _extract_field record ((a ++ "." ++ b) :: keys) dflt = v) /\
  (record !! a = None ->
   _extract_field record ((a ++ "." ++ b) :: keys) dflt
     = _extract_field record keys dflt) /\
  (forall w, record !! a = Some w -> (forall inner, w <> VDict inner) ->
   _extract_field record ((a ++ "." ++ b) :: keys) dflt
     = _extract_field record keys dflt) /\
  (forall inner, record !! a = Some (VDict inner) -> inner !! b = None ->
   _extract_field record ((a ++ "." ++ b) :: keys) dflt
     = _extract_field record keys dflt).
Proof.
  intros Ha Hb.
  assert (contains_char "." (a ++ "." ++ b) = true) as Hdot.
  { rewrite contains_char_app, str_app_cons. cbn [contains_char].
    by rewrite Ascii.eqb_refl, orb_true_r. }
  assert (split_on "." (a ++ "." ++ b) = [a; b]) as Hsplit.
  { rewrite str_app_cons, str_app_nil_l, split_on_first by done.
    by rewrite split_on_no_sep. }
  repeat split.
  - intros inner v H1 H2 Hv. cbn [_extract_field]. rewrite Hdot, Hsplit.
    cbn [descend]. rewrite H1, H2. by destruct v.
  - intros H1. cbn [_extract_field]. rewrite Hdot, Hsplit. cbn [descend].
    by rewrite H1.
  - intros w H1 Hw. cbn [_extract_field]. rewrite Hdot, Hsplit. cbn [descend].
    rewrite H1. destruct w; try done. by destruct (Hw d).
  - intros inner H1 H2. cbn [_extract_field]. rewrite Hdot, Hsplit. cbn [descend].
    by rewrite H1, H2.
Qed.

Lemma dotted_key_lookup_witness :
  _extract_field nested_owner ["owner.name"] VNone = VStr "Acme".
Proof.
  exact (proj1 (dotted_key_lookup nested_owner "owner" "name" [] VNone eq_refl eq_refl)
           {["name" := VStr "Acme"]} (VStr "Acme")
           (lookup_singleton_eq _ _) (lookup_singleton_eq _ _) ltac:(discriminate)).
Defined.

(** ** Text normalization *)

(** X3. [_normalize_text] is the same function in the two modules; a string
    becomes a text with no white space at either end and single spaces
    between words, any other value is returned as it is, and a second
    application changes nothing. *)
Theorem normalize_text_normal_form (v : value) :
  DataTransformer._normalize_text v = DataCleaner._normalize_text v /\
  DataCleaner._normalize_text (DataCleaner._normalize_text v)
    = DataCleaner._normalize_text v /\
  match v with
  | VStr s =>
      DataCleaner._normalize_text v = VStr (normalize s) /\
      normalized (normalize s) = true
  | _ => DataCleaner._normalize_text v = v
  end.
Proof.
  split; [reflexivity|]. split.
  - destruct v; try done. by rewrite !normalize_text_str, normalize_idem.
  - destruct v; try done. split; [apply normalize_text_str|apply normalize_normalized].
Qed.

(** ** The cleaner, field by field *)

Lemma update_if_truthy_lookup k f (d d' : dict) :
  update_if_truthy k f d = Ok d' ->
  d' !! k = match d !! k with
            | Some v =>
                if truthy v
                then match f v with Ok v' => Some v' | Raise _ => None end
                else Some v
            | None => None
            end.
Proof.
  unfold update_if_truthy. destruct (d !! k) as [v|] eqn:E.
  - destruct (truthy v); [|by intros [= <-]].
    destruct (f v); simpl; [|done]. intros [= <-]. by rewrite lookup_insert_eq.
  - by intros [= <-].
Qed.

Lemma update_if_truthy_dom k f (d d' : dict) k' :
  update_if_truthy k f d = Ok d' -> is_Some (d' !! k') <-> is_Some (d !! k').
Proof.
  intros H. destruct (decide (k = k')) as [<-|Hne].
  - destruct (update_if_truthy_eq _ _ _ _ H) as [(v & v' & E & _ & _ & ->)|[-> _]];
      [|done].
    rewrite lookup_insert_eq, E. split; eauto.
  - by rewrite (update_if_truthy_ne _ _ _ _ _ H Hne).
Qed.

Ltac chase_updates k :=
  repeat match goal with
  | E : update_if_truthy ?k' _ _ = Ok ?d' |- context [?d' !! k] =>
      rewrite (update_if_truthy_ne _ _ _ _ k E) by done
  end.

Lemma fixed_strip_upper (s : string) :
  fixed strip_upper (VStr s) -> strip s = s /\ upper s = s.
Proof.
  intros H. destruct (String.eqb s EmptyString) eqn:E.
  - apply String.eqb_eq in E as ->. done.
  - assert (upper (strip s) = s) as Hs.
    { assert (strip_upper (VStr s) = Ok (VStr s)) as H'.
      { apply H. cbn [truthy]. by rewrite E. }
      by injection H'. }
    split.
    + rewrite <- Hs at 1. unfold upper. by rewrite strip_smap, strip_idem by apply isspace_upper.
    + rewrite <- Hs at 1. unfold upper.
      rewrite smap_idem by apply upper_char_idem. done.
Qed.

Lemma fixed_strip_lower (s : string) :
  fixed strip_lower (VStr s) -> strip s = s /\ lower s = s.
Proof.
  intros H. destruct (String.eqb s EmptyString) eqn:E.
  - apply String.eqb_eq in E as ->. done.
  - assert (lower (strip s) = s) as Hs.
    { assert (strip_lower (VStr s) = Ok (VStr s)) as H'.
      { apply H. cbn [truthy]. by rewrite E. }
      by injection H'. }
    split.
    + rewrite <- Hs at 1. unfold lower. by rewrite strip_smap, strip_idem by apply isspace_lower.
    + rewrite <- Hs at 1. unfold lower.
      rewrite smap_idem by apply lower_char_idem. done.
Qed.

Lemma fixed_normalize_text (s : string) :
  fixed normalize_text_step (VStr s) -> normalized s = true.
Proof.
  intros H. destruct (String.eqb s EmptyString) eqn:E.
  - apply String.eqb_eq in E as ->. done.
  - assert (normalize_text_step (VStr s) = Ok (VStr s)) as H'.
    { apply H. cbn [truthy]. by rewrite E. }
    unfold normalize_text_step in H'. rewrite normalize_text_str in H'.
    injection H' as H'. rewrite <- H'. apply normalize_normalized.
Qed.

Lemma name_ok_normalized (s : string) : name_ok (VStr s) -> normalized s = true.
Proof.
  intros H. destruct (String.eqb s EmptyString) eqn:E.
  - apply String.eqb_eq in E as ->. done.
  - destruct H as (n & [= <-] & Hn); [cbn [truthy]; by rewrite E|done].
Qed.

Lemma ok_dict_true (m : result value) :
  match m with Ok (VDict _) => true | _ => false end = true ->
  exists o, m = Ok (VDict o).
Proof. destruct m as [[]|]; try discriminate; eauto. Qed.

Lemma clean_owner_dict (d o : dict) :
  _clean_owner (VDict d) = Ok (VDict o) ->
  (d = ∅ /\ o = ∅) \/
  exists d1 d2 d3 d4 d5,
    update_if_truthy "name" clean_name d = Ok d1 /\
    update_if_truthy "address" normalize_text_step d1 = Ok d2 /\
    update_if_truthy "city" normalize_text_step d2 = Ok d3 /\
    update_if_truthy "state" strip_upper d3 = Ok d4 /\
    update_if_truthy "country" strip_upper d4 = Ok d5 /\
    update_if_truthy "postal_code" strip_upper d5 = Ok o.
Proof.
  unfold _clean_owner. intros H. destruct (truthy (VDict d)) eqn:Ht; cbn [negb] in H.
  - right. do 6 inv_bind H. injection H as <-.
    do 5 eexists. repeat split; eassumption.
  - left. injection H as <-. cbn [truthy] in Ht.
    apply negb_false_iff, dict_is_empty_true in Ht. done.
Qed.

(** X4. In a cleaned owner [state], [country] and [postal_code] are the text
    given, trimmed and in upper case; so they have no white space at
    either end and [upper] leaves them as they are. *)
Theorem clean_owner_locale_fields (d o : dict) (k : string) :
  _clean_owner (VDict d) = Ok (VDict o) ->
  In k ["state"; "country"; "postal_code"] ->
  (forall s, d !! k = Some (VStr s) -> o !! k = Some (VStr (upper (strip s)))) /\
  (forall s, o !! k = Some (VStr s) -> strip s = s /\ upper s = s).
Proof.
  intros H Hk.
  destruct (clean_owner_dict _ _ H) as [[-> ->]|(d1 & d2 & d3 & d4 & d5 & E1 & E2 & E3 & E4 & E5 & E6)].
  { split; intros s Hs; by rewrite lookup_empty in Hs. }
  pose proof (update_if_truthy_lookup _ _ _ _ E4) as L4.
  pose proof (update_if_truthy_lookup _ _ _ _ E5) as L5.
  pose proof (update_if_truthy_lookup _ _ _ _ E6) as L6.
  assert (o !! k = match d !! k with
                   | Some v =>
                       if truthy v
                       then match strip_upper v with Ok v' => Some v' | Raise _ => None end
                       else Some v
                   | None => None
                   end) as L.
  { cbn [In] in Hk. destruct Hk as [<-|[<-|[<-|[]]]].
    - chase_updates "state". rewrite L4. by chase_updates "state".
    - chase_updates "country". rewrite L5. by chase_updates "country".
    - rewrite L6. by chase_updates "postal_code". }
  split.
  - intros s Hs. rewrite L, Hs. cbn [truthy strip_upper].
    destruct (String.eqb s EmptyString) eqn:E; [|done].
    apply String.eqb_eq in E as ->. reflexivity.
  - intros s Hs. apply fixed_strip_upper.
    cbn [In] in Hk. destruct Hk as [<-|[<-|[<-|[]]]].
    + apply (update_establishes _ _ _ _ strip_upper_idem E4).
      rewrite <- Hs. by chase_updates "state".
    + apply (update_establishes _ _ _ _ strip_upper_idem E5).
      rewrite <- Hs. by chase_updates "country".
    + by apply (update_establishes _ _ _ _ strip_upper_idem E6).
Qed.

Lemma clean_owner_locale_fields_witness :
  exists o, _clean_owner (VDict owner_with_state) = Ok (VDict o) /\
            o !! "state" = Some (VStr "CA").
Proof.
  destruct (ok_dict_true (_clean_owner (VDict owner_with_state))) as [o E];
    [vm_compute; reflexivity|].
  exists o. split; [exact E|].
  exact (proj1 (clean_owner_locale_fields owner_with_state o "state" E
                  (or_introl eq_refl)) " ca " (lookup_singleton_eq _ _)).
Defined.

Lemma not_owner_key k : ~ In k owner_keys ->
  "name" <> k /\ "address" <> k /\ "city" <> k /\ "state" <> k /\
  "country" <> k /\ "postal_code" <> k.
Proof. intros H. repeat split; intros <-; apply H; cbn; tauto. Qed.

(** X5. [_clean_owner] adds no key to the owner and removes none, leaves
    every key other than its six sub-fields as it is, and leaves in [name],
    [address] and [city], where they hold a string, normalized text. *)
Theorem clean_owner_keeps_keys (d o : dict) :
  _clean_owner (VDict d) = Ok (VDict o) ->
  (forall k, is_Some (o !! k) <-> is_Some (d !! k)) /\
  (forall k, ~ In k owner_keys -> o !! k = d !! k) /\
  (forall k s, In k ["name"; "address"; "city"] ->
     o !! k = Some (VStr s) -> normalized s = true).
Proof.
  intros H.
  destruct (clean_owner_dict _ _ H)
    as [[-> ->]|(d1 & d2 & d3 & d4 & d5 & E1 & E2 & E3 & E4 & E5 & E6)].
  { repeat split; try done. all: intros k s _ Hs; by rewrite lookup_empty in Hs. }
  split; [|split].
  - intros k.
    rewrite (update_if_truthy_dom _ _ _ _ k E6), (update_if_truthy_dom _ _ _ _ k E5),
      (update_if_truthy_dom _ _ _ _ k E4), (update_if_truthy_dom _ _ _ _ k E3),
      (update_if_truthy_dom _ _ _ _ k E2), (update_if_truthy_dom _ _ _ _ k E1).
    done.
  - intros k Hk. destruct (not_owner_key _ Hk) as (? & ? & ? & ? & ? & ?).
    by chase_updates k.
  - intros k s Hk Hs. cbn [In] in Hk. destruct Hk as [<-|[<-|[<-|[]]]].
    + apply name_ok_normalized, (update_name_ok _ _ E1).
      rewrite <- Hs. by chase_updates "name".
    + apply fixed_normalize_text,
        (update_establishes _ _ _ _ normalize_text_step_idem E2).
      rewrite <- Hs. by chase_updates "address".
    + apply fixed_normalize_text,
        (update_establishes _ _ _ _ normalize_text_step_idem E3).
      rewrite <- Hs. by chase_updates "city".
Qed.

Lemma clean_owner_keeps_keys_witness :
  exists o, _clean_owner (VDict owner_with_state) = Ok (VDict o) /\
            o !! "zip" = owner_with_state !! "zip".
Proof.
  destruct (ok_dict_true (_clean_owner (VDict owner_with_state))) as [o E];
    [vm_compute; reflexivity|].
  exists o. split; [exact E|].
  apply (proj1 (proj2 (clean_owner_keeps_keys owner_with_state o E))).
  cbn [In owner_keys]. intros H.
  repeat (destruct H as [H|H]; [discriminate H|]). exact H.
Defined.

Lemma clean_representative_dict (d r : dict) :
  _clean_representative (VDict d) = Ok (VDict r) ->
  (d = ∅ /\ r = ∅) \/
  exists d1 d2 d3 d4,
    update_if_truthy "name" normalize_text_step d = Ok d1 /\
    update_if_truthy "firm" normalize_text_step d1 = Ok d2 /\
    update_if_truthy "address" normalize_text_step d2 = Ok d3 /\
    update_if_truthy "phone" clean_phone d3 = Ok d4 /\
    update_if_truthy "email" strip_lower d4 = Ok r.
Proof.
  unfold _clean_representative. intros H.
  destruct (truthy (VDict d)) eqn:Ht; cbn [negb] in H.
  - right. do 5 inv_bind H. injection H as <-.
    do 4 eexists. repeat split; eassumption.
  - left. injection H as <-. cbn [truthy] in Ht.
    apply negb_false_iff, dict_is_empty_true in Ht. done.
Qed.

Lemma sfilter_ext (p q : ascii -> bool) (s : string) :
  (forall c, p c = q c) -> sfilter p s = sfilter q s.
Proof. intros H. induction s as [|c s IH]; [done|]. cbn. by rewrite H, IH. Qed.

Lemma all_chars_sfilter (p : ascii -> bool) (s : string) :
  all_chars p (sfilter p s) = true.
Proof.
  induction s as [|c s IH]; [done|]. cbn [sfilter].
  destruct (p c) eqn:E; [|done]. cbn [all_chars]. by rewrite E, IH.
Qed.

Lemma clean_phone_str (p : string) :
  clean_phone (VStr p) = Ok (VStr (sfilter phone_char p)).
Proof.
  cbn [clean_phone]. unfold not_phone_char. rewrite re_sub_set.
  do 2 f_equal. apply sfilter_ext. intros c. unfold phone_char.
  by rewrite negb_involutive.
Qed.

Lemma not_rep_key k : ~ In k rep_keys ->
  "name" <> k /\ "firm" <> k /\ "address" <> k /\ "phone" <> k /\ "email" <> k.
Proof. intros H. repeat split; intros <-; apply H; cbn; tauto. Qed.

(** X6. In a cleaned representative [phone] holds the digits and plus signs
    of the text given, in their order, and nothing else; [email] is the
    text given, trimmed and in lower case. No key is added or removed, and
    the keys other than the five sub-fields are left as they are. *)
Theorem clean_representative_contact (d r : dict) :
  _clean_representative (VDict d) = Ok (VDict r) ->
  (forall p, d !! "phone" = Some (VStr p) ->
     r !! "phone" = Some (VStr (sfilter phone_char p))) /\
  (forall p, r !! "phone" = Some (VStr p) -> all_chars phone_char p = true) /\
  (forall e, d !! "email" = Some (VStr e) ->
     r !! "email" = Some (VStr (lower (strip e)))) /\
  (forall e, r !! "email" = Some (VStr e) -> strip e = e /\ lower e = e) /\
  (forall k, is_Some (r !! k) <-> is_Some (d !! k)) /\
  (forall k, ~ In k rep_keys -> r !! k = d !! k).
Proof.
  intros H.
  destruct (clean_representative_dict _ _ H)
    as [[-> ->]|(d1 & d2 & d3 & d4 & E1 & E2 & E3 & E4 & E5)].
  { repeat split; try done. all: intros ? Hs; by rewrite lookup_empty in Hs. }
  pose proof (update_if_truthy_lookup _ _ _ _ E4) as L4.
  pose proof (update_if_truthy_lookup _ _ _ _ E5) as L5.
  split; [|split; [|split; [|split; [|split]]]].
  - intros p Hp. chase_updates "phone". rewrite L4. chase_updates "phone".
    rewrite Hp, clean_phone_str. cbn [truthy].
    destruct (String.eqb p EmptyString) eqn:E; [|done].
    apply String.eqb_eq in E as ->. reflexivity.
  - intros p Hp.
    assert (fixed clean_phone (VStr p)) as Hf.
    { apply (update_establishes _ _ _ _ clean_phone_idem E4).
      rewrite <- Hp. by chase_updates "phone". }
    destruct (String.eqb p EmptyString) eqn:E.
    + apply String.eqb_eq in E as ->. done.
    + assert (clean_phone (VStr p) = Ok (VStr p)) as Hc.
      { apply Hf. cbn [truthy]. by rewrite E. }
      rewrite clean_phone_str in Hc. injection Hc as Hc. rewrite <- Hc.
      apply all_chars_sfilter.
  - intros e He. rewrite L5. chase_updates "email". rewrite He.
    cbn [truthy strip_lower].
    destruct (String.eqb e EmptyString) eqn:E; [|done].
    apply String.eqb_eq in E as ->. reflexivity.
  - intros e He. apply fixed_strip_lower.
    by apply (update_establishes _ _ _ _ strip_lower_idem E5).
  - intros k.
    rewrite (update_if_truthy_dom _ _ _ _ k E5), (update_if_truthy_dom _ _ _ _ k E4),
      (update_if_truthy_dom _ _ _ _ k E3), (update_if_truthy_dom _ _ _ _ k E2),
      (update_if_truthy_dom _ _ _ _ k E1).
    done.
  - intros k Hk. destruct (not_rep_key _ Hk) as (? & ? & ? & ? & ?).
    by chase_updates k.
Qed.

Lemma clean_representative_contact_witness :
  exists r, _clean_representative (VDict rep_with_phone) = Ok (VDict r) /\
            r !! "phone" = Some (VStr "+15550100199").
Proof.
  destruct (ok_dict_true (_clean_representative (VDict rep_with_phone))) as [r E];
    [vm_compute; reflexivity|].
  exists r. split; [exact E|].
  exact (proj1 (clean_representative_contact rep_with_phone r E)
           "+1 (555) 010-0199" (lookup_singleton_eq _ _)).
Defined.

(** ** Required fields *)

(** X7. [_ensure_required_fields] is idempotent: applied to a record it has
    returned, it returns that record. *)
Theorem ensure_required_idempotent (record out : dict) :
  _ensure_required_fields record = Ok out ->
  _ensure_required_fields out = Ok out.
Proof.
  intros H. apply ensure_required_noop. exact (ensure_required_complete _ _ H).
Qed.

Lemma ensure_required_idempotent_witness :
  exists out, _ensure_required_fields frame_example = Ok out /\
              _ensure_required_fields out = Ok out.
Proof.
  destruct (is_ok_true (_ensure_required_fields frame_example)) as [out E];
    [vm_compute; reflexivity|].
  exists out. split; [exact E|]. exact (ensure_required_idempotent _ _ E).
Defined.

(** X8. [_ensure_required_fields] drops no key and keeps the value of every
    key but [owner], [classes] and [events], a null included. An owner that
    is a mapping keeps all its entries, those outside the six sub-fields
    too; a falsy owner is replaced by the six null sub-fields; [classes]
    and [events] are kept when they are lists and become the empty list
    otherwise. *)
Theorem ensure_required_merge (record out : dict) :
  _ensure_required_fields record = Ok out ->
  (forall k, is_Some (record !! k) -> is_Some (out !! k)) /\
  (forall k v, ~ In k ["owner"; "classes"; "events"] ->
     record !! k = Some v -> out !! k = Some v) /\
  (forall ro, record !! "owner" = Some (VDict ro) ->
     exists o, out !! "owner" = Some (VDict o) /\
               forall k v, ro !! k = Some v -> o !! k = Some v) /\
  (forall v, record !! "owner" = Some v -> truthy v = false ->
     out !! "owner" = Some (VDict required_owner)) /\
  (forall k, k = "classes" \/ k = "events" ->
     out !! k = Some (match record !! k with
                      | Some (VList l) => VList l
                      | _ => VList []
                      end)).
Proof.
  unfold _ensure_required_fields. intros H. inv_bind H. injection H as <-.
  assert (forall k, k = "classes" \/ k = "events" ->
    ensure_list "events" (ensure_list "classes"
      (<["owner" := a]> (record ∪ required_structure))) !! k
    = Some (match record !! k with
            | Some (VList l) => VList l
            | _ => VList []
            end)) as Hlists.
  { intros k [->| ->].
    - rewrite ensure_list_ne, ensure_list_eq, lookup_insert_ne by done.
      destruct (record !! "classes") as [v|] eqn:Ec.
      + rewrite (lookup_union_Some_l _ _ _ _ Ec). by destruct v.
      + rewrite lookup_union_r by done. reflexivity.
    - rewrite ensure_list_eq, ensure_list_ne, lookup_insert_ne by done.
      destruct (record !! "events") as [v|] eqn:Ec.
      + rewrite (lookup_union_Some_l _ _ _ _ Ec). by destruct v.
      + rewrite lookup_union_r by done. reflexivity. }
  assert (forall k v, ~ In k ["owner"; "classes"; "events"] ->
    record !! k = Some v ->
    ensure_list "events" (ensure_list "classes"
      (<["owner" := a]> (record ∪ required_structure))) !! k = Some v) as Hkeep.
  { intros k v Hk Hv.
    assert (k <> "owner" /\ k <> "classes" /\ k <> "events") as (? & ? & ?).
    { repeat split; intros ->; apply Hk; simpl; tauto. }
    rewrite !ensure_list_ne, lookup_insert_ne by done.
    by apply lookup_union_Some_l. }
  split; [|split; [done|split; [|split; [|done]]]].
  - intros k [v Hv].
    destruct (decide (k = "owner")) as [->|Ho].
    { rewrite !ensure_list_ne, lookup_insert_eq by done. eauto. }
    destruct (decide (k = "classes")) as [->|Hc].
    { rewrite Hlists by (by left). eauto. }
    destruct (decide (k = "events")) as [->|He].
    { rewrite Hlists by (by right). eauto. }
    rewrite (Hkeep k v); eauto.
    cbn [In]. intros [<-|[<-|[<-|[]]]]; done.
  - intros ro Hro. rewrite Hro in E.
    rewrite !ensure_list_ne, lookup_insert_eq by done.
    destruct (truthy (VDict ro)) eqn:Et.
    + injection E as <-. eexists. split; [reflexivity|].
      intros k v Hv. by apply lookup_union_Some_l.
    + injection E as <-. eexists. split; [reflexivity|].
      intros k v Hv. cbn [truthy] in Et.
      apply negb_false_iff, dict_is_empty_true in Et. subst ro.
      by rewrite lookup_empty in Hv.
  - intros v Hv Ht. rewrite Hv, Ht in E. injection E as <-.
    by rewrite !ensure_list_ne, lookup_insert_eq by done.
Qed.

Lemma ensure_required_merge_witness :
  exists out, _ensure_required_fields frame_example = Ok out /\
              out !! "source_file" = Some (VStr "data.xls").
Proof.
  destruct (is_ok_true (_ensure_required_fields frame_example)) as [out E];
    [vm_compute; reflexivity|].
  exists out. split; [exact E|].
  apply (proj1 (proj2 (ensure_required_merge _ _ E))).
  - cbn [In]. intros H. repeat (destruct H as [H|H]; [discriminate H|]). exact H.
  - reflexivity.
Defined.

(** ** When cleaning returns *)

Lemma update_is_ok k f (d : dict) : is_ok (update_if_truthy k f d) = guard_ok k f d.
Proof.
  unfold update_if_truthy, guard_ok. destruct (d !! k) as [v|]; [|done].
  destruct (truthy v); [|done]. by destruct (f v).
Qed.

Lemma guard_ok_ne k f k' g (d d' : dict) :
  update_if_truthy k' g d = Ok d' -> k' <> k -> guard_ok k f d' = guard_ok k f d.
Proof.
  intros H Hne. unfold guard_ok. by rewrite (update_if_truthy_ne _ _ _ _ _ H Hne).
Qed.

Lemma is_ok_update_bind {B} k f (d : dict) (g : dict -> result B) (b : bool) :
  (forall d', update_if_truthy k f d = Ok d' -> is_ok (g d') = b) ->
  is_ok (bind (update_if_truthy k f d) g) = guard_ok k f d && b.
Proof.
  intros H. rewrite <- update_is_ok.
  destruct (update_if_truthy k f d) as [d'|]; [|done]. cbn. eauto.
Qed.

Lemma guard_ok_normalize k (d : dict) : guard_ok k normalize_text_step d = true.
Proof. unfold guard_ok. destruct (d !! k) as [v|]; [|done]. by destruct (truthy v). Qed.

Lemma guard_ok_str k f (d : dict) :
  (forall v, truthy v = true -> is_ok (f v) = str_or_falsy v) ->
  guard_ok k f d = match d !! k with
                   | Some v => str_or_falsy v
                   | None => true
                   end.
Proof.
  intros H. unfold guard_ok. destruct (d !! k) as [v|]; [|done].
  destruct (truthy v) eqn:E; [by apply H|].
  unfold str_or_falsy. rewrite E. by destruct v.
Qed.

Lemma clean_name_is_ok v : truthy v = true -> is_ok (clean_name v) = str_or_falsy v.
Proof.
  intros H. unfold clean_name, str_or_falsy.
  destruct v; try discriminate H; cbn in *; first [done | by rewrite H].
Qed.

Lemma strip_upper_is_ok v : truthy v = true -> is_ok (strip_upper v) = str_or_falsy v.
Proof.
  intros H. unfold str_or_falsy.
  destruct v; try discriminate H; cbn in *; first [done | by rewrite H].
Qed.

Lemma strip_lower_is_ok v : truthy v = true -> is_ok (strip_lower v) = str_or_falsy v.
Proof.
  intros H. unfold str_or_falsy.
  destruct v; try discriminate H; cbn in *; first [done | by rewrite H].
Qed.

Lemma clean_phone_is_ok v : truthy v = true -> is_ok (clean_phone v) = str_or_falsy v.
Proof.
  intros H. unfold str_or_falsy.
  destruct v; try discriminate H; cbn in *; first [done | by rewrite H].
Qed.

Lemma clean_owner_is_ok (d : dict) :
  truthy (VDict d) = true ->
  is_ok (_clean_owner (VDict d))
    = fields_ok ["name"; "state"; "country"; "postal_code"] d.
Proof.
  intros Ht. unfold _clean_owner. rewrite Ht. cbn [negb].
  rewrite (is_ok_update_bind "name" clean_name d _
             (fields_ok ["state"; "country"; "postal_code"] d)).
  { cbn [fields_ok forallb]. by rewrite (guard_ok_str _ _ _ clean_name_is_ok). }
  intros d1 E1.
  rewrite (is_ok_update_bind _ _ _ _ (fields_ok ["state"; "country"; "postal_code"] d)).
  { by rewrite guard_ok_normalize. }
  intros d2 E2.
  rewrite (is_ok_update_bind _ _ _ _ (fields_ok ["state"; "country"; "postal_code"] d)).
  { by rewrite guard_ok_normalize. }
  intros d3 E3.
  rewrite (is_ok_update_bind _ _ _ _ (fields_ok ["country"; "postal_code"] d)).
  { rewrite (guard_ok_ne _ _ _ _ _ _ E3), (guard_ok_ne _ _ _ _ _ _ E2),
      (guard_ok_ne _ _ _ _ _ _ E1) by done.
    cbn [fields_ok forallb]. by rewrite (guard_ok_str _ _ _ strip_upper_is_ok). }
  intros d4 E4.
  rewrite (is_ok_update_bind _ _ _ _ (fields_ok ["postal_code"] d)).
  { rewrite (guard_ok_ne _ _ _ _ _ _ E4), (guard_ok_ne _ _ _ _ _ _ E3),
      (guard_ok_ne _ _ _ _ _ _ E2), (guard_ok_ne _ _ _ _ _ _ E1) by done.
    cbn [fields_ok forallb]. by rewrite (guard_ok_str _ _ _ strip_upper_is_ok). }
  intros d5 E5.
  rewrite (is_ok_update_bind _ _ _ _ true).
  { rewrite (guard_ok_ne _ _ _ _ _ _ E5), (guard_ok_ne _ _ _ _ _ _ E4),
      (guard_ok_ne _ _ _ _ _ _ E3), (guard_ok_ne _ _ _ _ _ _ E2),
      (guard_ok_ne _ _ _ _ _ _ E1) by done.
    cbn [fields_ok forallb]. by rewrite (guard_ok_str _ _ _ strip_upper_is_ok). }
  done.
Qed.

Lemma clean_representative_is_ok (d : dict) :
  truthy (VDict d) = true ->
  is_ok (_clean_representative (VDict d)) = fields_ok ["phone"; "email"] d.
Proof.
  intros Ht. unfold _clean_representative. rewrite Ht. cbn [negb].
  rewrite (is_ok_update_bind _ _ _ _ (fields_ok ["phone"; "email"] d)).
  { by rewrite guard_ok_normalize. }
  intros d1 E1.
  rewrite (is_ok_update_bind _ _ _ _ (fields_ok ["phone"; "email"] d)).
  { by rewrite guard_ok_normalize. }
  intros d2 E2.
  rewrite (is_ok_update_bind _ _ _ _ (fields_ok ["phone"; "email"] d)).
  { by rewrite guard_ok_normalize. }
  intros d3 E3.
  rewrite (is_ok_update_bind _ _ _ _ (fields_ok ["email"] d)).
  { rewrite (guard_ok_ne _ _ _ _ _ _ E3), (guard_ok_ne _ _ _ _ _ _ E2),
      (guard_ok_ne _ _ _ _ _ _ E1) by done.
    cbn [fields_ok forallb]. by rewrite (guard_ok_str _ _ _ clean_phone_is_ok). }
  intros d4 E4.
  rewrite (is_ok_update_bind _ _ _ _ true).
  { rewrite (guard_ok_ne _ _ _ _ _ _ E4), (guard_ok_ne _ _ _ _ _ _ E3),
      (guard_ok_ne _ _ _ _ _ _ E2), (guard_ok_ne _ _ _ _ _ _ E1) by done.
    cbn [fields_ok forallb]. by rewrite (guard_ok_str _ _ _ strip_lower_is_ok). }
  done.
Qed.

Lemma clean_representative_accepted (v : value) :
  truthy v = true -> is_ok (_clean_representative v) = representative_accepted v.
Proof.
  intros Ht. unfold representative_accepted. rewrite Ht. cbn [negb orb].
  destruct v as [| | | | |l|d|]; try (unfold _clean_representative; by rewrite Ht).
  - unfold _clean_representative. rewrite Ht. cbn [negb].
    by destruct (mentions _ l).
  - by apply clean_representative_is_ok.
Qed.

(** What the owner is after the first step, and whether the last step
    takes it. *)
Lemma ensure_required_is_ok (c : dict) :
  is_ok (_ensure_required_fields c)
    = match c !! "owner" with
      | Some v => negb (truthy v) || match v with VDict _ => true | _ => false end
      | None => true
      end.
Proof.
  unfold _ensure_required_fields. destruct (c !! "owner") as [v|]; [|done].
  destruct (truthy v); [|done]. by destruct v.
Qed.

(** X9. [clean_trademark] returns exactly on the accepted records: those
    whose owner is absent, falsy, or a mapping whose [name], [state],
    [country] and [postal_code] are strings or falsy, and whose
    representative is absent, falsy, a mapping whose [phone] and [email]
    are strings or falsy, or a list that holds none of the five sub-field
    names. On every other record it raises. *)
Theorem clean_trademark_returns_iff (record : dict) :
  is_ok (clean_trademark record) = accepted record.
Proof.
  unfold clean_trademark.
  destruct (update_if_truthy "owner" _clean_owner record) as [c1|e] eqn:E1.
  - cbn [bind].
    assert (is_ok (bind (update_if_truthy "representative" _clean_representative c1)
             (fun c2 =>
                let! c3 := update_if_truthy "mark_text" normalize_text_step c2 in
                let! c4 := update_if_truthy "status" normalize_text_step c3 in
                let! c5 := update_if_truthy "goods_services" normalize_text_step c4 in
                _ensure_required_fields c5))
            = guard_ok "representative" _clean_representative c1 &&
              is_ok (_ensure_required_fields c1)) as ->.
    { apply is_ok_update_bind. intros c2 E2.
      rewrite (is_ok_update_bind _ _ _ _ (is_ok (_ensure_required_fields c1))).
      { by rewrite guard_ok_normalize. }
      intros c3 E3.
      rewrite (is_ok_update_bind _ _ _ _ (is_ok (_ensure_required_fields c1))).
      { by rewrite guard_ok_normalize. }
      intros c4 E4.
      rewrite (is_ok_update_bind _ _ _ _ (is_ok (_ensure_required_fields c1))).
      { by rewrite guard_ok_normalize. }
      intros c5 E5. rewrite !ensure_required_is_ok.
      by rewrite (update_if_truthy_ne _ _ _ _ "owner" E5),
        (update_if_truthy_ne _ _ _ _ "owner" E4),
        (update_if_truthy_ne _ _ _ _ "owner" E3),
        (update_if_truthy_ne _ _ _ _ "owner" E2) by done. }
    rewrite andb_comm. unfold accepted. f_equal.
    + rewrite ensure_required_is_ok.
      pose proof (update_is_ok "owner" _clean_owner record) as Hg.
      rewrite E1 in Hg. cbn [is_ok] in Hg. symmetry in Hg.
      rewrite (update_if_truthy_lookup _ _ _ _ E1).
      unfold guard_ok in Hg.
      destruct (record !! "owner") as [v|]; [|done].
      unfold owner_accepted.
      destruct (truthy v) eqn:Ht; [|by rewrite Ht].
      cbn [negb orb].
      destruct v as [| | | | |l|d|];
        try (unfold _clean_owner in Hg; rewrite Ht in Hg; cbn [negb is_ok] in Hg;
             discriminate Hg).
      * unfold _clean_owner in *. rewrite Ht in *. cbn [negb] in *.
        destruct (mentions _ l); [done|]. by rewrite Ht.
      * pose proof Hg as Hf. rewrite clean_owner_is_ok in Hf by done. rewrite Hf.
        destruct (_clean_owner (VDict d)) as [v'|] eqn:Ec;
          [|cbn in Hg; discriminate Hg].
        unfold _clean_owner in Ec. rewrite Ht in Ec. cbn [negb] in Ec.
        do 6 inv_bind Ec. injection Ec as <-. cbv beta iota. apply orb_true_r.
    + unfold guard_ok. rewrite (update_if_truthy_ne _ _ _ _ _ E1) by done.
      destruct (record !! "representative") as [v|]; [|done].
      destruct (truthy v) eqn:Ht.
      * by apply clean_representative_accepted.
      * unfold representative_accepted. by rewrite Ht.
  - cbn [bind is_ok]. symmetry. unfold accepted.
    pose proof (update_is_ok "owner" _clean_owner record) as Hg.
    rewrite E1 in Hg. cbn [is_ok] in Hg. symmetry in Hg. unfold guard_ok in Hg.
    destruct (record !! "owner") as [v|]; [|discriminate Hg].
    destruct (truthy v) eqn:Ht; [|discriminate Hg].
    unfold owner_accepted. rewrite Ht. cbn [negb orb].
    destruct v as [| | | | |l|d|]; try done.
    rewrite clean_owner_is_ok in Hg by done. by rewrite Hg.
Qed.

(** ** Flattening *)

Ltac not_in_tac :=
  cbn [In]; intros Hin;
  repeat (destruct Hin as [Hin|Hin]; [discriminate Hin|]); exact Hin.

Section FlatteningMore.

Variable py_repr : value -> string.
Variable list_gt : list value -> list value -> result bool.

Let flatten := flatten_record py_repr list_gt.

Lemma flatten_classes_other (d d' : dict) k :
  ~ In k ["classes"; "class_numbers"; "class_count"] ->
  flatten_classes py_repr d = Ok d' -> d' !! k = d !! k.
Proof.
  intros H. unfold flatten_classes.
  destruct (d !! "classes") as [[]|]; intros E;
    try (injection E as <-;
         by repeat (rewrite lookup_insert_ne; [|intros <-; apply H; simpl; tauto])).
  inv_bind E. injection E as <-.
  repeat (rewrite lookup_insert_ne; [|intros <-; apply H; simpl; tauto]).
  apply lookup_delete_ne. intros <-; apply H; simpl; tauto.
Qed.

(** The steps of [flatten_record], one after the other. *)
Lemma flatten_record_steps (record out : dict) :
  flatten record = Ok out ->
  exists d3 d4,
    flatten_classes py_repr (flatten_representative (flatten_owner record)) = Ok d3 /\
    flatten_events list_gt d3 = Ok d4 /\
    out = delete "raw_data" d4.
Proof.
  unfold flatten, flatten_record. intros H. do 2 inv_bind H. injection H as <-.
  eauto.
Qed.

Lemma flatten_record_lookup (record out : dict) k :
  flatten record = Ok out ->
  k <> "raw_data" ->
  ~ In k ["events"; "event_count"; "latest_event_date"; "latest_event_type"] ->
  ~ In k ["classes"; "class_numbers"; "class_count"] ->
  out !! k = flatten_representative (flatten_owner record) !! k.
Proof.
  intros H Hr He Hc. destruct (flatten_record_steps _ _ H) as (d3 & d4 & E3 & E4 & ->).
  rewrite lookup_delete_ne by done.
  rewrite (flatten_events_other py_repr _ _ _ _ He E4).
  by rewrite (flatten_classes_other _ _ _ Hc E3).
Qed.

Lemma flatten_owner_hoisted (d owner : dict) hk k :
  d !! "owner" = Some (VDict owner) ->
  In (hk, k) hoisted_owner_keys ->
  flatten_owner d !! hk = Some (get owner k).
Proof.
  intros Ho Hk. unfold flatten_owner. rewrite Ho.
  cbn [In hoisted_owner_keys] in Hk.
  repeat (destruct Hk as [[= <- <-]|Hk];
          [by repeat first [rewrite lookup_insert_eq | rewrite lookup_insert_ne by done]|]).
  done.
Qed.

Lemma flatten_representative_hoisted (d rep : dict) hk k :
  d !! "representative" = Some (VDict rep) ->
  In (hk, k) hoisted_rep_keys ->
  flatten_representative d !! hk = Some (get rep k).
Proof.
  intros Ho Hk. unfold flatten_representative. rewrite Ho.
  cbn [In hoisted_rep_keys] in Hk.
  repeat (destruct Hk as [[= <- <-]|Hk];
          [by repeat first [rewrite lookup_insert_eq | rewrite lookup_insert_ne by done]|]).
  done.
Qed.

(** X10. [flatten_record] never returns the key [raw_data]. An owner that is
    a mapping is replaced by the six keys [owner_*], which hold its
    sub-fields (null where one is missing); a representative that is a
    mapping is replaced by the five keys [rep_*]; a representative that is
    not a mapping, a null one for instance, stays under [representative],
    and no [rep_*] key is made for it. *)
Theorem flatten_hoists (record out : dict) :
  flatten record = Ok out ->
  out !! "raw_data" = None /\
  (forall owner, record !! "owner" = Some (VDict owner) ->
     out !! "owner" = None /\
     forall hk k, In (hk, k) hoisted_owner_keys -> out !! hk = Some (get owner k)) /\
  (forall rep, record !! "representative" = Some (VDict rep) ->
     out !! "representative" = None /\
     forall hk k, In (hk, k) hoisted_rep_keys -> out !! hk = Some (get rep k)) /\
  (forall v, record !! "representative" = Some v -> (forall rep, v <> VDict rep) ->
     out !! "representative" = Some v /\
     forall hk k, In (hk, k) hoisted_rep_keys -> out !! hk = record !! hk).
Proof.
  intros H. split; [|split; [|split]].
  - destruct (flatten_record_steps _ _ H) as (d3 & d4 & _ & _ & ->).
    apply lookup_delete_eq.
  - intros owner Ho. split.
    + rewrite (flatten_record_lookup _ _ "owner" H) by (done || not_in_tac).
      rewrite (flatten_representative_other py_repr list_gt) by not_in_tac.
      unfold flatten_owner. rewrite Ho.
      rewrite !lookup_insert_ne by done. apply lookup_delete_eq.
    + intros hk k Hk.
      assert (In hk ["owner_name"; "owner_address"; "owner_city"; "owner_state";
                     "owner_country"; "owner_postal_code"]) as Hhk.
      { cbn [In hoisted_owner_keys] in Hk. cbn [In].
        repeat (destruct Hk as [[= <- <-]|Hk]; [tauto|]). done. }
      rewrite (flatten_record_lookup _ _ hk H).
      * rewrite (flatten_representative_other py_repr list_gt).
        { by apply flatten_owner_hoisted. }
        cbn [In] in Hhk |- *. intros Hin.
        repeat (destruct Hhk as [<-|Hhk];
                [repeat (destruct Hin as [Hin|Hin]; [discriminate Hin|]); done|]).
        done.
      * cbn [In] in Hhk. repeat (destruct Hhk as [<-|Hhk]; [done|]). done.
      * cbn [In] in Hhk. repeat (destruct Hhk as [<-|Hhk]; [not_in_tac|]). done.
      * cbn [In] in Hhk. repeat (destruct Hhk as [<-|Hhk]; [not_in_tac|]). done.
  - intros rep Hr.
    assert (flatten_owner record !! "representative" = Some (VDict rep)) as Hr'.
    { by rewrite (flatten_owner_other py_repr list_gt) by not_in_tac. }
    split.
    + rewrite (flatten_record_lookup _ _ "representative" H) by (done || not_in_tac).
      unfold flatten_representative. rewrite Hr'.
      rewrite !lookup_insert_ne by done. apply lookup_delete_eq.
    + intros hk k Hk.
      assert (In hk ["rep_name"; "rep_firm"; "rep_address"; "rep_phone"; "rep_email"])
        as Hhk.
      { cbn [In hoisted_rep_keys] in Hk. cbn [In].
        repeat (destruct Hk as [[= <- <-]|Hk]; [tauto|]). done. }
      rewrite (flatten_record_lookup _ _ hk H).
      * by apply flatten_representative_hoisted.
      * cbn [In] in Hhk. repeat (destruct Hhk as [<-|Hhk]; [done|]). done.
      * cbn [In] in Hhk. repeat (destruct Hhk as [<-|Hhk]; [not_in_tac|]). done.
      * cbn [In] in Hhk. repeat (destruct Hhk as [<-|Hhk]; [not_in_tac|]). done.
  - intros v Hv Hnd.
    assert (flatten_owner record !! "representative" = Some v) as Hv'.
    { by rewrite (flatten_owner_other py_repr list_gt) by not_in_tac. }
    assert (flatten_representative (flatten_owner record) = flatten_owner record) as Hfr.
    { unfold flatten_representative. rewrite Hv'. destruct v; try done. by destruct (Hnd d). }
    split.
    + rewrite (flatten_record_lookup _ _ "representative" H) by (done || not_in_tac).
      by rewrite Hfr.
    + intros hk k Hk.
      assert (In hk ["rep_name"; "rep_firm"; "rep_address"; "rep_phone"; "rep_email"])
        as Hhk.
      { cbn [In hoisted_rep_keys] in Hk. cbn [In].
        repeat (destruct Hk as [[= <- <-]|Hk]; [tauto|]). done. }
      rewrite (flatten_record_lookup _ _ hk H).
      * rewrite Hfr. apply (flatten_owner_other py_repr list_gt).
        cbn [In] in Hhk. repeat (destruct Hhk as [<-|Hhk]; [not_in_tac|]). done.
      * cbn [In] in Hhk. repeat (destruct Hhk as [<-|Hhk]; [done|]). done.
      * cbn [In] in Hhk. repeat (destruct Hhk as [<-|Hhk]; [not_in_tac|]). done.
      * cbn [In] in Hhk. repeat (destruct Hhk as [<-|Hhk]; [not_in_tac|]). done.
Qed.

End FlatteningMore.

Lemma flatten_hoists_witness :
  exists out,
    flatten_record (fun _ => EmptyString) (fun _ _ => Ok false) nested_record = Ok out /\
    out !! "raw_data" = None.
Proof.
  destruct (is_ok_true
              (flatten_record (fun _ => EmptyString) (fun _ _ => Ok false) nested_record))
    as [out E]; [vm_compute; reflexivity|].
  exists out. split; [exact E|]. exact (proj1 (flatten_hoists _ _ _ _ E)).
Defined.

(** *** The latest event *)

Lemma str_gt_asym (a b : string) : str_gt a b = true -> str_gt b a = false.
Proof.
  revert b. induction a as [|x a IH]; intros [|y b]; cbn [str_gt]; try done.
  destruct (Nat.ltb_spec (code y) (code x)), (Nat.ltb_spec (code x) (code y));
    try done; try lia. apply IH.
Qed.

Lemma str_gt_le_trans (a b c : string) :
  str_gt a b = false -> str_gt b c = false -> str_gt a c = false.
Proof.
  revert b c. induction a as [|x a IH]; intros [|y b] [|z c]; cbn [str_gt]; try done.
  destruct (Nat.ltb_spec (code y) (code x)), (Nat.ltb_spec (code x) (code y)),
    (Nat.ltb_spec (code z) (code y)), (Nat.ltb_spec (code y) (code z)),
    (Nat.ltb_spec (code z) (code x)), (Nat.ltb_spec (code x) (code z));
    try done; try lia. apply IH.
Qed.

Lemma str_gt_irrefl (a : string) : str_gt a a = false.
Proof.
  induction a as [|x a IH]; cbn [str_gt]; [done|].
  destruct (Nat.ltb_spec (code x) (code x)); [lia|done].
Qed.

Section LatestEvent.

Variable list_gt : list value -> list value -> result bool.

Lemma dated_events_filter (events : list value) :
  Forall text_dated events ->
  dated_events events
    = Ok (List.filter (fun e => truthy (event_date e)) events).
Proof.
  induction 1 as [|e events (d & -> & Hd) _ IH]; [done|].
  cbn [dated_events item_get bind]. rewrite IH. cbn [bind List.filter event_date].
  by destruct (truthy (get d "date")).
Qed.

Lemma text_dated_gt (e b : value) :
  text_dated e -> text_dated b ->
  truthy (event_date e) = true -> truthy (event_date b) = true ->
  exists de db, e = VDict de /\ b = VDict db /\
    py_gt list_gt (get de "date") (get db "date")
      = Ok (str_gt (date_text e) (date_text b)).
Proof.
  intros (de & -> & He) (db & -> & Hb) Te Tb. exists de, db.
  split; [done|]. split; [done|].
  unfold date_text. cbn [event_date] in *.
  destruct He as [He|[s He]]; rewrite He in *; [done|].
  destruct Hb as [Hb|[s' Hb]]; rewrite Hb in *; [done|]. done.
Qed.

Lemma max_by_date_greatest (l : list value) :
  forall best,
  Forall text_dated (best :: l) ->
  Forall (fun e => truthy (event_date e) = true) (best :: l) ->
  exists m, max_by_date list_gt best l = Ok m /\
    In m (best :: l) /\
    forall e, In e (best :: l) -> str_gt (date_text e) (date_text m) = false.
Proof.
  induction l as [|e l IH]; intros best Hd Ht.
  - exists best. split; [done|]. split; [by left|].
    intros e [<-|[]]. apply str_gt_irrefl.
  - inversion Hd as [|? ? Hb Hd']; subst. inversion Hd' as [|? ? He Hl]; subst.
    inversion Ht as [|? ? Tb Ht']; subst. inversion Ht' as [|? ? Te Tl]; subst.
    destruct (text_dated_gt e best He Hb Te Tb) as (de & db & -> & -> & Hgt).
    cbn [max_by_date item_get bind]. rewrite Hgt. cbn [bind].
    destruct (str_gt (date_text (VDict de)) (date_text (VDict db))) eqn:G.
    + destruct (IH (VDict de)) as (m & Hm & Hin & Hmax);
        [by constructor|by constructor|].
      exists m. split; [done|]. split.
      * destruct Hin as [<-|Hin]; [right; by left|right; by right].
      * intros x [<-|[<-|Hx]].
        -- apply (str_gt_le_trans _ (date_text (VDict de))).
           ++ by apply str_gt_asym.
           ++ apply Hmax. by left.
        -- apply Hmax. by left.
        -- apply Hmax. by right.
    + destruct (IH (VDict db)) as (m & Hm & Hin & Hmax);
        [by constructor|by constructor|].
      exists m. split; [done|]. split.
      * destruct Hin as [<-|Hin]; [by left|right; by right].
      * intros x [<-|[<-|Hx]].
        -- apply Hmax. by left.
        -- apply (str_gt_le_trans _ (date_text (VDict db))); [done|].
           apply Hmax. by left.
        -- apply Hmax. by right.
Qed.

Lemma falsy_date_text (e : value) :
  text_dated e -> truthy (event_date e) = false -> date_text e = EmptyString.
Proof.
  intros (d & -> & Hd) Ht. unfold date_text. cbn [event_date] in *.
  destruct Hd as [->|[s Hs]]; [done|]. rewrite Hs in *. cbn in Ht.
  apply negb_false_iff, String.eqb_eq in Ht. by subst.
Qed.

Lemma latest_event_greatest (events : list value) :
  Forall text_dated events ->
  exists latest, latest_event list_gt events = Ok latest /\
    ((latest = VNone /\ Forall (fun e => truthy (event_date e) = false) events) \/
     (In latest events /\ truthy (event_date latest) = true /\
      forall e, In e events -> str_gt (date_text e) (date_text latest) = false)).
Proof.
  intros Hd. unfold latest_event. rewrite dated_events_filter by done. cbn [bind].
  destruct (List.filter (fun e => truthy (event_date e)) events) as [|b l] eqn:Ef.
  - exists VNone. split; [done|]. left. split; [done|].
    apply Forall_forall. intros e He.
    destruct (truthy (event_date e)) eqn:Te; [|done].
    assert (In e []) as []. rewrite <- Ef. apply filter_In. by rewrite <- list_elem_of_In.
  - assert (forall e, In e (b :: l) -> In e events /\ truthy (event_date e) = true) as Hf.
    { intros e He. rewrite <- Ef in He. by apply filter_In in He. }
    destruct (max_by_date_greatest l b) as (m & Hm & Hin & Hmax).
    { apply Forall_forall. intros e He%list_elem_of_In.
      rewrite Forall_forall in Hd. apply Hd, list_elem_of_In. by apply Hf. }
    { apply Forall_forall. intros e He%list_elem_of_In. by apply Hf. }
    exists m. split; [done|]. right.
    destruct (Hf _ Hin) as [Hin' Tm]. split; [done|]. split; [done|].
    intros e He. destruct (truthy (event_date e)) eqn:Te.
    + apply Hmax. rewrite <- Ef. apply filter_In. done.
    + rewrite falsy_date_text; [done| |done].
      rewrite Forall_forall in Hd. by apply Hd, list_elem_of_In.
Qed.

End LatestEvent.

Section FlattenEvents.

Variable py_repr : value -> string.
Variable list_gt : list value -> list value -> result bool.

Let flatten := flatten_record py_repr list_gt.

Lemma flatten_steps_events (record d3 : dict) :
  flatten_classes py_repr (flatten_representative (flatten_owner record)) = Ok d3 ->
  d3 !! "events" = record !! "events".
Proof.
  intros E3.
  rewrite (flatten_classes_other py_repr list_gt _ _ "events" ltac:(not_in_tac) E3).
  rewrite (flatten_representative_other py_repr list_gt) by not_in_tac.
  by rewrite (flatten_owner_other py_repr list_gt) by not_in_tac.
Qed.

(** X11. For events that are mappings with a text or null date,
    [flatten_record] counts them all and reports the date and type of one
    whose date no other exceeds in the order of strings; when no event has
    a date, the two are null. *)
Theorem flatten_latest_event (record out : dict) (events : list value) :
  record !! "events" = Some (VList events) ->
  Forall text_dated events ->
  flatten record = Ok out ->
  out !! "event_count" = Some (VInt (Z.of_nat (List.length events))) /\
  ((Forall (fun e => truthy (event_date e) = false) events /\
    out !! "latest_event_date" = Some VNone /\
    out !! "latest_event_type" = Some VNone) \/
   (exists d,
      In (VDict d) events /\ truthy (get d "date") = true /\
      out !! "latest_event_date" = Some (get d "date") /\
      out !! "latest_event_type" = Some (get d "type") /\
      forall e, In e events -> str_gt (date_text e) (date_text (VDict d)) = false)).
Proof.
  intros He Hd H.
  destruct (flatten_record_steps _ _ _ _ H) as (d3 & d4 & E3 & E4 & ->).
  pose proof (flatten_steps_events _ _ E3) as He3. rewrite He in He3.
  unfold flatten_events in E4. rewrite He3 in E4.
  destruct (latest_event_greatest list_gt events Hd) as (latest & Hl & Hcases).
  rewrite Hl in E4. cbn [bind] in E4.
  destruct Hcases as [[-> Hnone]|(Hin & Tl & Hmax)].
  - cbn [truthy bind] in E4. injection E4 as <-. split.
    + rewrite lookup_delete_ne, !lookup_insert_ne, lookup_insert_eq by done. done.
    + left. split; [done|]. split.
      * by rewrite lookup_delete_ne, lookup_insert_ne, lookup_insert_eq by done.
      * by rewrite lookup_delete_ne, lookup_insert_eq by done.
  - assert (exists d, latest = VDict d) as [d ->].
    { rewrite Forall_forall in Hd.
      destruct (Hd latest) as (d & -> & _); [by apply list_elem_of_In|eauto]. }
    rewrite (truthy_dict_lookup d "date" (get d "date")) in E4.
    2:{ cbn [event_date] in Tl. unfold get, get_or in *.
        destruct (d !! "date"); [done|discriminate Tl]. }
    cbn [item_get bind] in E4. injection E4 as <-. split.
    + rewrite lookup_delete_ne, !lookup_insert_ne, lookup_insert_eq by done. done.
    + right. exists d. split; [done|]. split; [done|]. split; [|split; [|done]].
      * by rewrite lookup_delete_ne, lookup_insert_ne, lookup_insert_eq by done.
      * by rewrite lookup_delete_ne, lookup_insert_eq by done.
Qed.

Lemma class_numbers_of_ok (ds : list dict) :
  is_ok (class_numbers_of py_repr (List.map VDict ds)) = true.
Proof.
  induction ds as [|d ds IH]; [done|]. cbn [List.map class_numbers_of item_get bind].
  by destruct (class_numbers_of py_repr (List.map VDict ds)).
Qed.

Lemma flatten_classes_ok (d : dict) :
  (forall l, d !! "classes" = Some (VList l) -> exists ds, l = List.map VDict ds) ->
  is_ok (flatten_classes py_repr d) = true.
Proof.
  intros H. unfold flatten_classes. destruct (d !! "classes") as [[]|]; try done.
  destruct (H _ eq_refl) as [ds ->].
  pose proof (class_numbers_of_ok ds) as Hok.
  by destruct (class_numbers_of py_repr (List.map VDict ds)).
Qed.

Lemma flatten_events_ok (d : dict) :
  (forall l, d !! "events" = Some (VList l) -> Forall text_dated l) ->
  is_ok (flatten_events list_gt d) = true.
Proof.
  intros H. unfold flatten_events. destruct (d !! "events") as [[]|]; try done.
  destruct (latest_event_greatest list_gt l (H _ eq_refl)) as (latest & -> & Hcases).
  cbn [bind]. destruct Hcases as [[-> _]|(Hin & _ & _)]; [done|].
  pose proof (H _ eq_refl) as Hd. rewrite Forall_forall in Hd.
  destruct (Hd latest) as (e & -> & _); [by apply list_elem_of_In|].
  by destruct (truthy (VDict e)).
Qed.

Lemma flatten_record_ok (record : dict) :
  (forall l, record !! "classes" = Some (VList l) -> exists ds, l = List.map VDict ds) ->
  (forall l, record !! "events" = Some (VList l) -> Forall text_dated l) ->
  is_ok (flatten record) = true.
Proof.
  intros Hc He. unfold flatten, flatten_record.
  pose proof (flatten_classes_ok (flatten_representative (flatten_owner record))) as H3.
  destruct (flatten_classes py_repr (flatten_representative (flatten_owner record)))
    as [d3|] eqn:E3.
  - cbn [bind]. pose proof (flatten_events_ok d3) as H4.
    destruct (flatten_events list_gt d3) as [d4|] eqn:E4; [done|].
    apply H4. intros l Hl. apply He. by rewrite <- (flatten_steps_events _ _ E3).
  - apply H3. intros l Hl. apply Hc. rewrite <- Hl.
    rewrite (flatten_representative_other py_repr list_gt) by not_in_tac.
    by rewrite (flatten_owner_other py_repr list_gt) by not_in_tac.
Qed.

Lemma class_numbers_of_raises (l : list value) :
  Exists (fun c => forall d, c <> VDict d) l ->
  class_numbers_of py_repr l = Raise AttributeError.
Proof.
  induction l as [|c l IH]; intros H; [by inversion H|].
  cbn [class_numbers_of]. destruct c as [| | | | | |d|]; try done.
  cbn [item_get bind]. rewrite IH; [done|].
  inversion H as [? ? Hc|]; subst; [by destruct (Hc d)|done].
Qed.

Lemma dated_events_raises (l : list value) :
  Exists (fun c => forall d, c <> VDict d) l ->
  dated_events l = Raise AttributeError.
Proof.
  induction l as [|c l IH]; intros H; [by inversion H|].
  cbn [dated_events]. destruct c as [| | | | | |d|]; try done.
  cbn [item_get bind]. rewrite IH; [done|].
  inversion H as [? ? Hc|]; subst; [by destruct (Hc d)|done].
Qed.

(** X13. [flatten_record] raises [AttributeError] when the [classes] list
    holds an item that is not a mapping, and also when the classes are
    mappings and the [events] list holds an item that is not one. *)
Theorem flatten_rejects_items (record : dict) :
  (forall l, record !! "classes" = Some (VList l) ->
     Exists (fun c => forall d, c <> VDict d) l ->
     flatten record = Raise AttributeError) /\
  (forall l, record !! "events" = Some (VList l) ->
     (forall cl, record !! "classes" = Some (VList cl) ->
                 exists ds, cl = List.map VDict ds) ->
     Exists (fun e => forall d, e <> VDict d) l ->
     flatten record = Raise AttributeError).
Proof.
  split.
  - intros l Hl Hex. unfold flatten, flatten_record, flatten_classes.
    rewrite (flatten_representative_other py_repr list_gt) by not_in_tac.
    rewrite (flatten_owner_other py_repr list_gt) by not_in_tac.
    rewrite Hl. by rewrite class_numbers_of_raises.
  - intros l Hl Hc Hex. unfold flatten, flatten_record.
    pose proof (flatten_classes_ok (flatten_representative (flatten_owner record))) as H3.
    destruct (flatten_classes py_repr (flatten_representative (flatten_owner record)))
      as [d3|] eqn:E3.
    + cbn [bind]. unfold flatten_events.
      rewrite (flatten_steps_events _ _ E3), Hl.
      unfold latest_event. by rewrite dated_events_raises.
    + assert (false = true) as Hf; [|discriminate Hf].
      apply H3. intros cl Hcl. apply Hc. rewrite <- Hcl.
      rewrite (flatten_representative_other py_repr list_gt) by not_in_tac.
      by rewrite (flatten_owner_other py_repr list_gt) by not_in_tac.
Qed.

End FlattenEvents.

Lemma two_events_text_dated : Forall text_dated two_events.
Proof.
  repeat constructor.
  - exists {["date" := VStr "2020-01-02"]}. split; [done|]. right.
    exists "2020-01-02". unfold get, get_or. by rewrite lookup_singleton_eq.
  - exists {["date" := VStr "2021-03-15"]}. split; [done|]. right.
    exists "2021-03-15". unfold get, get_or. by rewrite lookup_singleton_eq.
Qed.

Lemma flatten_latest_event_witness :
  exists out,
    flatten_record (fun _ => EmptyString) (fun _ _ => Ok false) events_record = Ok out /\
    out !! "event_count" = Some (VInt 2).
Proof.
  destruct (is_ok_true
              (flatten_record (fun _ => EmptyString) (fun _ _ => Ok false) events_record))
    as [out E]; [vm_compute; reflexivity|].
  exists out. split; [exact E|].
  exact (proj1 (flatten_latest_event _ _ events_record out two_events
                  (lookup_singleton_eq _ _) two_events_text_dated E)).
Defined.

Lemma flatten_rejects_items_witness :
  flatten_record (fun _ => EmptyString) (fun _ _ => Ok false) bare_classes
    = Raise AttributeError.
Proof.
  apply (proj1 (flatten_rejects_items (fun _ => EmptyString) (fun _ _ => Ok false)
                  bare_classes) [VStr "9"] (lookup_singleton_eq _ _)).
  apply Exists_cons_hd. intros d. discriminate.
Defined.

(** ** The transformer, part by part *)

Lemma keys_empty (j : string) : is_Some ((∅ : dict) !! j) <-> In j [].
Proof. rewrite lookup_empty. split; [by intros [? ?]|intros []]. Qed.

Lemma keys_insert (k : string) (v : value) (d : dict) (ks : list string) :
  (forall j, is_Some (d !! j) <-> In j ks) ->
  forall j, is_Some (<[k := v]> d !! j) <-> In j (k :: ks).
Proof. intros H j. rewrite lookup_insert_is_Some', H. reflexivity. Qed.

Section TransformerParts.

Variable py_repr : value -> string.
Variable float_of_str : string -> option spec_float.
Variable float_timeval : spec_float -> Z * Z.
Variable localtime : Z -> Z -> result datetime.

Let normalize_date := _normalize_date float_of_str float_timeval localtime.
Let extract_events := _extract_events float_of_str float_timeval localtime.
Let transform := transform_trademark py_repr float_of_str float_timeval localtime.

Lemma normalize_date_null_or_text (v x : value) :
  normalize_date v = Ok x -> null_or_text x.
Proof.
  unfold normalize_date, _normalize_date, null_or_text. intros H.
  destruct v as [|b|n|f|s| | |t].
  - injection H as <-. by left.
  - destruct (fromtimestamp _ _ _) as [t|[]]; try discriminate H;
      injection H as <-; eauto.
  - destruct (fromtimestamp _ _ _) as [t|[]]; try discriminate H;
      injection H as <-; eauto.
  - destruct (fromtimestamp _ _ _) as [t|[]]; try discriminate H;
      injection H as <-; eauto.
  - destruct (first_format s date_formats); [injection H as <-; eauto|].
    destruct (float_of_str s); [|injection H as <-; eauto].
    destruct (fromtimestamp _ _ _) as [t|[]]; try discriminate H;
      injection H as <-; eauto.
  - injection H as <-. by left.
  - injection H as <-. by left.
  - injection H as <-. eauto.
Qed.

Lemma event_entry_shape (event : dict) (e : value) :
  event_entry float_of_str float_timeval localtime event = Ok e ->
  exists d, e = VDict d /\
    (forall k, is_Some (d !! k) <-> In k event_keys) /\
    null_or_text (get d "date").
Proof.
  unfold event_entry. intros H. inv_bind H. injection H as <-.
  eexists. split; [reflexivity|]. split.
  - unfold event_keys. repeat apply keys_insert. apply keys_empty.
  - unfold get, get_or. rewrite lookup_insert_eq.
    exact (normalize_date_null_or_text _ _ E).
Qed.

Lemma events_of_list_shape (l : list value) (events : list value) :
  events_of_list float_of_str float_timeval localtime l = Ok events ->
  Forall (fun e => exists d, e = VDict d /\
            (forall k, is_Some (d !! k) <-> In k event_keys) /\
            null_or_text (get d "date")) events /\
  List.length events = List.length (List.filter is_dict l).
Proof.
  revert events. induction l as [|v l IH]; intros events H.
  - injection H as <-. by split.
  - destruct v as [| | | | | |event|]; cbn [events_of_list] in H;
      try (destruct (IH _ H) as [H1 H2]; by split).
    do 2 inv_bind H. injection H as <-.
    destruct (IH _ eq_refl) as [H1 H2]. split.
    + constructor; [|done]. exact (event_entry_shape _ _ E).
    + cbn [List.filter is_dict List.length]. by rewrite H2.
Qed.

(** X14. Every event that [_extract_events] returns is a mapping with exactly
    the keys [date], [type], [description] and [code], its date a string or
    null. Only the first history field present is read: the items of its
    list that are mappings give one event each, the other items none, and
    when its value is not a list there are no events, whatever the other
    history fields hold. *)
Theorem extract_events_entries (record : dict) (events : list value) :
  extract_events record = Ok events ->
  Forall (fun e => exists d, e = VDict d /\
            (forall k, is_Some (d !! k) <-> In k event_keys) /\
            null_or_text (get d "date")) events /\
  (forall l, first_present event_fields record = Some (VList l) ->
     List.length events = List.length (List.filter is_dict l)) /\
  (forall v, record !! "events" = Some v -> (forall l, v <> VList l) -> events = []).
Proof.
  unfold extract_events, _extract_events. intros H. split; [|split].
  - destruct (first_present event_fields record) as [[]|];
      try (injection H as <-; by constructor).
    exact (proj1 (events_of_list_shape _ _ H)).
  - intros l Hl. rewrite Hl in H. exact (proj2 (events_of_list_shape _ _ H)).
  - intros v Hv Hn. cbn [first_present event_fields] in H. rewrite Hv in H.
    destruct v; try (by injection H as <-). by destruct (Hn l).
Qed.


Lemma classes_of_item_entries (cls : value) :
  Forall (fun c => exists n d, c = class_entry n d) (classes_of_item py_repr cls).
Proof. destruct cls; cbn [classes_of_item]; repeat constructor; eauto. Qed.

Lemma all_sources_head (record : dict) (sources : list value) :
  all_sources record = Ok sources ->
  exists second third, sources = [VDict record; second; third].
Proof.
  unfold all_sources. intros H.
  destruct (py_or (get_or record "raw_data" (VDict ∅)) (VDict ∅)); try discriminate H.
  injection H as <-. eauto.
Qed.

Lemma extract_classes_class_entries (record : dict) (classes : list value) :
  _extract_classes py_repr record = Ok classes ->
  Forall (fun c => exists n d, c = class_entry n d) classes.
Proof.
  unfold _extract_classes. destruct (all_sources record) as [sources|]; [|done].
  cbn [bind].
  set (ipc := scan_sources class_fields sources VNone).
  set (goods := _extract_field_multisource sources _ VNone).
  assert (Forall (fun c => exists n d, c = class_entry n d)
    (if truthy ipc then
       match ipc with
       | VList l => List.concat (List.map (classes_of_item py_repr) l)
       | VDict d =>
           [class_entry (py_or (get d "classNumber") (get d "class_number"))
              (get d "description")]
       | VStr s =>
           List.map (fun code => class_entry (VStr code) VNone)
             (List.filter (fun code => truthy (VStr code))
                (List.map strip (split_on ";" s)))
       | _ => []
       end
     else [])) as Hent.
  { destruct (truthy ipc); [|constructor]. destruct ipc; try constructor; eauto.
    - apply Forall_forall. intros c Hc%list_elem_of_In.
      apply in_map_iff in Hc as (code & <- & _). eauto.
    - apply Forall_forall. intros c Hc%list_elem_of_In.
      apply in_concat in Hc as (cs & Hcs & Hc).
      apply in_map_iff in Hcs as (cls & <- & _).
      pose proof (classes_of_item_entries cls) as Hf.
      rewrite Forall_forall in Hf. by apply Hf, list_elem_of_In. }
  destruct (if truthy ipc then _ else _) as [|c cs].
  - destruct (truthy goods); intros [= <-]; [|constructor].
    apply Forall_forall. intros c Hc%list_elem_of_In.
    apply in_map_iff in Hc as (m & <- & _). eauto.
  - by intros [= <-].
Qed.

Lemma extract_classes_is_ok (record : dict) :
  is_ok (_extract_classes py_repr record) = is_ok (all_sources record).
Proof.
  unfold _extract_classes. destruct (all_sources record) as [sources|]; [|done].
  cbn [bind is_ok]. destruct (if truthy _ then _ else _); [|done].
  by destruct (truthy _).
Qed.

(** X15. [_extract_classes] returns exactly when the sources can be listed
    (a truthy [raw_data] that is not a mapping is what prevents it), and
    every entry it returns is a mapping with the two keys [class_number] and
    [description]. *)
Theorem extract_classes_entries (record : dict) :
  is_ok (_extract_classes py_repr record) = is_ok (all_sources record) /\
  forall classes, _extract_classes py_repr record = Ok classes ->
    Forall (fun c => exists n d, c = class_entry n d) classes.
Proof.
  split; [apply extract_classes_is_ok|apply extract_classes_class_entries].
Qed.

(** X16. A [classes] field of the record that is a text is split at the
    semicolons: the pieces, trimmed, that are not empty give one entry each,
    in their order, with a null description. *)
Theorem extract_classes_semicolon (record : dict) (s : string) :
  is_ok (all_sources record) = true ->
  record !! "classes" = Some (VStr s) ->
  List.filter (fun c => negb (String.eqb c EmptyString)) (List.map strip (split_on ";" s))
    <> [] ->
  _extract_classes py_repr record
    = Ok (List.map (fun c => class_entry (VStr c) VNone)
            (List.filter (fun c => negb (String.eqb c EmptyString))
               (List.map strip (split_on ";" s)))) /\
  Forall (fun c => c <> EmptyString /\ strip c = c)
    (List.filter (fun c => negb (String.eqb c EmptyString))
       (List.map strip (split_on ";" s))).
Proof.
  intros Hs Hc Hne. split.
  - unfold _extract_classes.
    destruct (all_sources record) as [sources|] eqn:E; [|discriminate Hs].
    destruct (all_sources_head _ _ E) as (second & third & ->).
    cbn [bind scan_sources first_present class_fields]. rewrite Hc.
    assert (truthy (VStr s) = true) as Ht.
    { cbn [truthy]. destruct (String.eqb s EmptyString) eqn:Es; [|done].
      apply String.eqb_eq in Es as ->. by destruct Hne. }
    repeat (rewrite Ht; cbv beta iota zeta).
    change (fun code => truthy (VStr code))
      with (fun c => negb (String.eqb c EmptyString)).
    destruct (List.filter _ _) as [|c cs]; [by destruct Hne|done].
  - apply Forall_forall. intros c Hin%list_elem_of_In.
    apply filter_In in Hin as [Hin Hc'].
    apply in_map_iff in Hin as (p & <- & _). split.
    + intros Heq. by rewrite Heq in Hc'.
    + apply strip_idem.
Qed.

Lemma extract_owner_keys (record : dict) (v : value) :
  _extract_owner record = Ok v ->
  exists o, v = VDict o /\ forall k, is_Some (o !! k) <-> In k owner_keys.
Proof.
  unfold _extract_owner. destruct (all_sources record) as [sources|]; [|done].
  cbn [bind]. destruct (if truthy (scan_sources owner_fields sources VNone) then _ else _)
    as [[[[[name address] city] state] country] postal_code].
  intros [= <-]. eexists. split; [reflexivity|].
  unfold owner_keys. repeat apply keys_insert. apply keys_empty.
Qed.

(** X17. [_extract_owner] returns exactly when the sources can be listed,
    and what it returns is a mapping with exactly the six owner keys, whose
    [name], when it is a string, is normalized text. *)
Theorem extract_owner_shape (record : dict) :
  is_ok (_extract_owner record) = is_ok (all_sources record) /\
  forall v, _extract_owner record = Ok v ->
    exists o, v = VDict o /\
      (forall k, is_Some (o !! k) <-> In k owner_keys) /\
      (forall s, o !! "name" = Some (VStr s) -> normalized s = true).
Proof.
  split.
  - unfold _extract_owner. destruct (all_sources record) as [sources|]; [|done].
    cbn [bind].
    by destruct (if truthy (scan_sources owner_fields sources VNone) then _ else _)
      as [[[[[name address] city] state] country] postal_code].
  - intros v Hv. destruct (extract_owner_keys _ _ Hv) as (o & -> & Hk).
    exists o. split; [done|]. split; [done|].
    unfold _extract_owner in Hv. destruct (all_sources record) as [sources|]; [|done].
    cbn [bind] in Hv.
    destruct (if truthy (scan_sources owner_fields sources VNone) then _ else _)
      as [[[[[name address] city] state] country] postal_code].
    injection Hv as <-. intros s. rewrite lookup_insert_eq. intros [= Hs].
    destruct (truthy name) eqn:Ht.
    + destruct name; try discriminate Hs.
      rewrite normalize_text_str in Hs. injection Hs as <-.
      apply normalize_normalized.
    + subst name. cbn in Ht. apply negb_false_iff, String.eqb_eq in Ht. by subst.
Qed.

(** X18. An owner given as a non-empty text becomes the owner's [name],
    normalized; [address], [city], [state] and [postal_code] are null, and
    [country] is looked up under [country] and [Country] in the sources. *)
Theorem extract_owner_text (record : dict) (sources : list value) (s : string) :
  all_sources record = Ok sources ->
  record !! "owner" = Some (VStr s) ->
  s <> EmptyString ->
  _extract_owner record
    = Ok (VDict (<["name" := VStr (normalize s)]> (<["address" := VNone]>
           (<["city" := VNone]> (<["state" := VNone]>
           (<["country" := _extract_field_multisource sources ["country"; "Country"] VNone]>
           (<["postal_code" := VNone]> ∅))))))).
Proof.
  intros E Ho Hs. unfold _extract_owner. rewrite E. cbn [bind].
  destruct (all_sources_head _ _ E) as (second & third & ->).
  cbn [scan_sources first_present owner_fields]. rewrite Ho.
  assert (truthy (VStr s) = true) as Ht.
  { cbn [truthy]. destruct (String.eqb s EmptyString) eqn:Es; [|done].
    by apply String.eqb_eq in Es. }
  repeat (rewrite Ht; cbv beta iota zeta).
  cbn [truthy]. by rewrite normalize_text_str.
Qed.

End TransformerParts.

(** X19. A representative that is not a mapping, a plain text for instance,
    gives no representative at all, whatever the other representative
    fields of the record hold. *)
Theorem extract_representative_not_mapping (record : dict) (v : value) :
  record !! "representative" = Some v ->
  (forall d, v <> VDict d) ->
  _extract_representative record = VNone.
Proof.
  intros Hv Hn. unfold _extract_representative.
  cbn [first_present rep_fields]. rewrite Hv.
  destruct v; try done. by destruct (Hn d).
Qed.

Lemma clean_trademark_other (record out : dict) (k : string) :
  clean_trademark record = Ok out ->
  ~ In k canonical_fields ->
  out !! k = record !! k.
Proof.
  unfold clean_trademark. intros H Hk.
  do 5 inv_bind H.
  rewrite (ensure_required_frame _ _ _ H Hk).
  repeat match goal with
  | E : update_if_truthy ?f _ _ = Ok ?d |- ?d !! k = _ =>
      rewrite (update_if_truthy_ne _ _ _ _ k E);
      [clear E|intros <-; apply Hk; simpl; tauto]
  end.
  reflexivity.
Qed.

Section TransformerWhole.

Variable py_repr : value -> string.
Variable float_of_str : string -> option spec_float.
Variable float_timeval : spec_float -> Z * Z.
Variable localtime : Z -> Z -> result datetime.

Let normalize_date := _normalize_date float_of_str float_timeval localtime.
Let transform := transform_trademark py_repr float_of_str float_timeval localtime.


Lemma rep_entity_keys (name firm address phone email : value) (d : dict) :
  rep_entity name firm address phone email = VDict d ->
  forall k, is_Some (d !! k) <-> In k rep_keys.
Proof.
  intros [= <-]. unfold rep_keys. repeat apply keys_insert. apply keys_empty.
Qed.

(** X20. A record that [transform_trademark] returns has exactly the
    fourteen canonical keys and [raw_data]; [raw_data] is the record given;
    the owner is a mapping with exactly its six keys, the representative is
    null or a mapping with exactly its five keys, and each of the four date
    fields is null or a string. *)
Theorem transform_schema (record t : dict) :
  transform record = Ok t ->
  (forall k, is_Some (t !! k) <-> In k (canonical_fields ++ ["raw_data"])) /\
  t !! "raw_data" = Some (VDict record) /\
  (exists o, t !! "owner" = Some (VDict o) /\
             forall k, is_Some (o !! k) <-> In k owner_keys) /\
  (t !! "representative" = Some VNone \/
   exists r, t !! "representative" = Some (VDict r) /\
             forall k, is_Some (r !! k) <-> In k rep_keys) /\
  (forall f, is_date f = true ->
     exists x, t !! field_name f = Some x /\ null_or_text x).
Proof.
  unfold transform, transform_trademark. intros H.
  repeat inv_bind H. injection H as <-.
  split; [|split; [|split; [|split]]].
  - unfold canonical_fields. cbn [app]. repeat apply keys_insert. apply keys_empty.
  - by rewrite !lookup_insert_ne, lookup_insert_eq by done.
  - destruct (extract_owner_keys record _ E3) as (o & -> & Hk).
    exists o. split; [|done].
    by rewrite !lookup_insert_ne, lookup_insert_eq by done.
  - rewrite !lookup_insert_ne, lookup_insert_eq by done.
    destruct (extract_representative_cases record)
      as [->|(name & firm & address & phone & email & Hr & _)]; [by left|].
    right. rewrite Hr. eexists. split; [reflexivity|].
    by apply (rep_entity_keys name firm address phone email).
  - intros f Hf. destruct f; try discriminate Hf; cbn [field_name];
      eexists; (split; [by rewrite ?lookup_insert_ne, lookup_insert_eq by done|]);
      eapply normalize_date_null_or_text; eassumption.
Qed.

(** X21. Through [transform_trademark] and then [clean_trademark] the
    record given stays whole under [raw_data], and the result has exactly
    the fourteen canonical keys and [raw_data]. *)
Theorem pipeline_keeps_raw (raw t c : dict) :
  transform raw = Ok t ->
  clean_trademark t = Ok c ->
  c !! "raw_data" = Some (VDict raw) /\
  forall k, is_Some (c !! k) <-> In k (canonical_fields ++ ["raw_data"]).
Proof.
  intros Ht Hc.
  assert (t !! "raw_data" = Some (VDict raw) /\
          forall k, is_Some (t !! k) <-> In k (canonical_fields ++ ["raw_data"]))
    as [Hraw Hkeys].
  { unfold transform, transform_trademark in Ht.
    repeat inv_bind Ht. injection Ht as <-. split.
    - by rewrite !lookup_insert_ne, lookup_insert_eq by done.
    - unfold canonical_fields. cbn [app]. repeat apply keys_insert. apply keys_empty. }
  assert (~ In "raw_data" canonical_fields) as Hnc.
  { cbn [In canonical_fields]. intros Hin.
    repeat (destruct Hin as [Hin|Hin]; [discriminate Hin|]). exact Hin. }
  split.
  - by rewrite (clean_trademark_other _ _ _ Hc Hnc).
  - intros k. destruct (In_dec_str k canonical_fields) as [Hin|Hout].
    + split; [intros _; apply in_or_app; by left|intros _].
      by apply (proj1 (clean_trademark_complete _ _ Hc)).
    + by rewrite (clean_trademark_other _ _ _ Hc Hout).
Qed.

End TransformerWhole.

Lemma extract_events_entries_witness :
  exists events,
    _extract_events (fun _ => None) (fun _ => (0, 0)%Z) (fun _ _ => Raise OSError)
      events_record = Ok events /\
    List.length events = 2.
Proof.
  destruct (is_ok_true
              (_extract_events (fun _ => None) (fun _ => (0, 0)%Z)
                 (fun _ _ => Raise OSError) events_record))
    as [events E]; [vm_compute; reflexivity|].
  exists events. split; [exact E|].
  exact (proj1 (proj2 (extract_events_entries _ _ _ events_record events E))
           two_events eq_refl).
Defined.

Lemma extract_classes_semicolon_witness :
  _extract_classes (fun _ => EmptyString) semicolon_classes
    = Ok [class_entry (VStr "9") VNone; class_entry (VStr "42") VNone].
Proof.
  apply (extract_classes_semicolon (fun _ => EmptyString) semicolon_classes "9; 42").
  - vm_compute. reflexivity.
  - apply lookup_singleton_eq.
  - vm_compute. discriminate.
Defined.

Lemma extract_owner_text_witness :
  exists sources o,
    all_sources text_owner = Ok sources /\
    _extract_owner text_owner = Ok (VDict o) /\
    o !! "name" = Some (VStr "Acme Ltd").
Proof.
  destruct (is_ok_true (all_sources text_owner)) as [sources E];
    [vm_compute; reflexivity|].
  exists sources. eexists. split; [exact E|]. split.
  - apply (extract_owner_text text_owner sources "Acme  Ltd" E).
    + apply lookup_singleton_eq.
    + discriminate.
  - by rewrite lookup_insert_eq.
Defined.

Lemma extract_representative_not_mapping_witness :
  _extract_representative text_representative = VNone.
Proof.
  apply (extract_representative_not_mapping text_representative (VStr "J. Smith")).
  - apply lookup_singleton_eq.
  - discriminate.
Defined.

Lemma transform_schema_witness :
  exists t,
    transform_trademark (fun _ => EmptyString) (fun _ => None) (fun _ => (0, 0)%Z)
      (fun _ _ => Raise OSError) scenario = Ok t /\
    t !! "raw_data" = Some (VDict scenario).
Proof.
  destruct (is_ok_true
              (transform_trademark (fun _ => EmptyString) (fun _ => None)
                 (fun _ => (0, 0)%Z) (fun _ _ => Raise OSError) scenario))
    as [t E]; [vm_compute; reflexivity|].
  exists t. split; [exact E|].
  exact (proj1 (proj2 (transform_schema _ _ _ _ _ _ E))).
Defined.

Lemma pipeline_keeps_raw_witness :
  exists t c,
    transform_trademark (fun _ => EmptyString) (fun _ => None) (fun _ => (0, 0)%Z)
      (fun _ _ => Raise OSError) scenario = Ok t /\
    clean_trademark t = Ok c /\
    c !! "raw_data" = Some (VDict scenario).
Proof.
  destruct (is_ok_true
              (bind (transform_trademark (fun _ => EmptyString) (fun _ => None)
                       (fun _ => (0, 0)%Z) (fun _ _ => Raise OSError) scenario)
                    clean_trademark)) as [c E]; [vm_compute; reflexivity|].
  destruct (bind_ok _ _ _ E) as (t & Ht & Hc).
  exists t, c. split; [exact Ht|]. split; [exact Hc|].
  exact (proj1 (pipeline_keeps_raw _ _ _ _ _ _ _ Ht Hc)).
Defined.

(** ** The pipeline, end to end *)

Lemma class_entries_dicts (l : list value) :
  Forall (fun c => exists n d, c = class_entry n d) l ->
  exists ds, l = List.map VDict ds.
Proof.
  induction 1 as [|c l (n & d & ->) _ [ds ->]]; [by exists []|].
  eexists (_ :: ds). reflexivity.
Qed.

Section PipelineFlatten.

Variable py_repr : value -> string.
Variable float_of_str : string -> option spec_float.
Variable float_timeval : spec_float -> Z * Z.
Variable localtime : Z -> Z -> result datetime.
Variable list_gt : list value -> list value -> result bool.

Let transform := transform_trademark py_repr float_of_str float_timeval localtime.
Let flatten := flatten_record py_repr list_gt.

Lemma extract_events_text_dated (record : dict) (events : list value) :
  _extract_events float_of_str float_timeval localtime record = Ok events ->
  Forall text_dated events.
Proof.
  unfold _extract_events. intros H.
  destruct (first_present event_fields record) as [[]|];
    try (injection H as <-; by constructor).
  eapply Forall_impl; [exact (proj1 (events_of_list_shape _ _ _ _ _ H))|].
  intros e (d & -> & _ & Hd). by exists d.
Qed.

(** X12. What [transform_trademark] and then [clean_trademark] return can
    always be flattened: [flatten_record] does not raise on it. *)
Theorem pipeline_flattens (raw t c : dict) :
  transform raw = Ok t ->
  clean_trademark t = Ok c ->
  is_ok (flatten c) = true.
Proof.
  intros Ht Hc.
  destruct (transform_classes_events _ _ _ _ _ _ Ht)
    as (classes & events & Ecl & Eev & Hcl & Hev).
  pose proof (clean_trademark_keeps_list t c "classes" classes
                (or_introl eq_refl) Hc Hcl) as Hcl'.
  pose proof (clean_trademark_keeps_list t c "events" events
                (or_intror eq_refl) Hc Hev) as Hev'.
  apply flatten_record_ok.
  - intros l Hl. rewrite Hcl' in Hl. injection Hl as <-.
    apply class_entries_dicts. exact (extract_classes_class_entries _ _ _ Ecl).
  - intros l Hl. rewrite Hev' in Hl. injection Hl as <-.
    exact (extract_events_text_dated _ _ Eev).
Qed.

End PipelineFlatten.

Lemma pipeline_flattens_witness :
  exists t c,
    transform_trademark (fun _ => EmptyString) (fun _ => None) (fun _ => (0, 0)%Z)
      (fun _ _ => Raise OSError) scenario = Ok t /\
    clean_trademark t = Ok c /\
    is_ok (flatten_record (fun _ => EmptyString) (fun _ _ => Ok false) c) = true.
Proof.
  destruct (is_ok_true
              (bind (transform_trademark (fun _ => EmptyString) (fun _ => None)
                       (fun _ => (0, 0)%Z) (fun _ _ => Raise OSError) scenario)
                    clean_trademark)) as [c E]; [vm_compute; reflexivity|].
  destruct (bind_ok _ _ _ E) as (t & Ht & Hc).
  exists t, c. split; [exact Ht|]. split; [exact Hc|].
  exact (pipeline_flattens _ _ _ _ _ _ _ _ Ht Hc).
Defined.

Lemma extract_classes_entries_witness :
  exists classes,
    _extract_classes (fun _ => EmptyString) semicolon_classes = Ok classes /\
    Forall (fun c => exists n d, c = class_entry n d) classes.
Proof.
  destruct (is_ok_true (_extract_classes (fun _ => EmptyString) semicolon_classes))
    as [classes E]; [vm_compute; reflexivity|].
  exists classes. split; [exact E|].
  exact (proj2 (extract_classes_entries (fun _ => EmptyString) semicolon_classes)
           classes E).
Defined.

Lemma extract_owner_shape_witness :
  exists o,
    _extract_owner text_owner = Ok (VDict o) /\
    forall k, is_Some (o !! k) <-> In k owner_keys.
Proof.
  destruct (ok_dict_true (_extract_owner text_owner)) as [o E];
    [vm_compute; reflexivity|].
  exists o. split; [exact E|].
  destruct (proj2 (extract_owner_shape text_owner) (VDict o) E) as (o' & Ho & Hk & _).
  injection Ho as <-. exact Hk.
Defined.

(** ** Dates *)

Lemma all_chars_app (p : ascii -> bool) (a b : string) :
  all_chars p (a ++ b) = all_chars p a && all_chars p b.
Proof.
  induction a as [|c a IH]; [done|]. rewrite str_app_cons. cbn [all_chars].
  by rewrite IH, andb_assoc.
Qed.

Lemma zeros_digits (k : nat) : all_chars isdigit (zeros k) = true.
Proof. induction k as [|k IH]; [done|]. cbn [zeros all_chars]. by rewrite IH. Qed.

Lemma digits_val_zeros (k : nat) (s : string) :
  digits_val 0 (zeros k ++ s) = digits_val 0 s.
Proof.
  induction k as [|k IH]; [done|]. cbn [zeros]. rewrite str_app_cons.
  cbn [digits_val]. exact IH.
Qed.

Lemma pad_digits (w : nat) (n : Z) : (0 <= n)%Z -> all_chars isdigit (pad w n) = true.
Proof.
  intros Hn. unfold pad. by rewrite all_chars_app, zeros_digits, str_of_Z_digits.
Qed.

Lemma rstrip_digits (s : string) : all_chars isdigit s = true -> rstrip s = s.
Proof.
  induction s as [|c s IH]; [done|]. cbn [all_chars rstrip].
  intros [Hc Hs]%andb_true_iff. rewrite (IH Hs).
  destruct s; [|done]. by rewrite (digit_not_space _ Hc).
Qed.

Lemma strip_digits (s : string) : all_chars isdigit s = true -> strip s = s.
Proof.
  intros H. unfold strip.
  assert (lstrip s = s) as ->.
  { destruct s as [|c s]; [done|]. cbn [all_chars] in H.
    apply andb_true_iff in H as [Hc _]. cbn [lstrip].
    by rewrite (digit_not_space _ Hc). }
  by apply rstrip_digits.
Qed.

Lemma int_of_group_pad (w : nat) (n : Z) : (0 <= n)%Z -> int_of_group (pad w n) = n.
Proof.
  intros Hn. unfold int_of_group. rewrite strip_digits by by apply pad_digits.
  unfold pad. by rewrite digits_val_zeros, digits_val_str_of_Z.
Qed.

Lemma format_ymd : format_regex false "%Y-%m-%d" = Some ymd_regex.
Proof. reflexivity. Qed.

Lemma year_group_match {A} (a b c e : ascii) (rest : string) (cs : captures)
    (k : string -> captures -> option A) :
  isdigit a = true -> isdigit b = true -> isdigit c = true -> isdigit e = true ->
  rmatch true (directive "Y") (String a (String b (String c (String e rest)))) cs k
    = k rest (("Y", String a (String b (String c (String e EmptyString)))) :: cs).
Proof.
  intros Ha Hb Hc He.
  change (directive "Y") with (RGroup "Y" (rseq [rdigit; rdigit; rdigit; rdigit])).
  cbn [rmatch rseq rdigit]. rewrite Ha, Hb, Hc, He. cbn [String.length].
  replace (S (S (S (S (String.length rest)))) - String.length rest) with 4 by lia.
  reflexivity.
Qed.

Lemma month_day_match (Y : string) (m d : Z) :
  (1 <= m <= 12)%Z -> (1 <= d <= 31)%Z ->
  rmatch true month_day_regex ("-" ++ pad 2 m ++ "-" ++ pad 2 d) [("Y", Y)]
    (fun s' cs => Some (10 - String.length s', cs))
  = Some (10, [("d", pad 2 d); ("m", pad 2 m); ("Y", Y)]).
Proof.
  intros Hm Hd.
  assert (m = 1 \/ m = 2 \/ m = 3 \/ m = 4 \/ m = 5 \/ m = 6 \/ m = 7 \/ m = 8 \/
          m = 9 \/ m = 10 \/ m = 11 \/ m = 12)%Z as Em by lia.
  assert (d = 1 \/ d = 2 \/ d = 3 \/ d = 4 \/ d = 5 \/ d = 6 \/ d = 7 \/ d = 8 \/
          d = 9 \/ d = 10 \/ d = 11 \/ d = 12 \/ d = 13 \/ d = 14 \/ d = 15 \/
          d = 16 \/ d = 17 \/ d = 18 \/ d = 19 \/ d = 20 \/ d = 21 \/ d = 22 \/
          d = 23 \/ d = 24 \/ d = 25 \/ d = 26 \/ d = 27 \/ d = 28 \/ d = 29 \/
          d = 30 \/ d = 31)%Z as Ed by lia.
  clear Hm Hd.
  repeat (destruct Em as [->|Em]); try subst m;
    repeat (destruct Ed as [->|Ed]); try subst d;
    vm_compute; reflexivity.
Qed.

Lemma pad2_length (n : Z) : (0 <= n < 100)%Z -> String.length (pad 2 n) = 2.
Proof.
  intros Hn. pose proof (pad2_digits n Hn) as H. unfold all_digits in H.
  apply andb_true_iff in H as [H _]. by apply Nat.eqb_eq in H.
Qed.

Lemma pad4_chars (y : Z) :
  (0 <= y < 10000)%Z ->
  exists a b c e,
    pad 4 y = String a (String b (String c (String e EmptyString))) /\
    isdigit a = true /\ isdigit b = true /\ isdigit c = true /\ isdigit e = true.
Proof.
  intros Hy. pose proof (pad4_digits y Hy) as H. unfold all_digits in H.
  apply andb_true_iff in H as [Hl Hd]. apply Nat.eqb_eq in Hl.
  destruct (pad 4 y) as [|a [|b [|c [|e [|? ?]]]]]; try discriminate Hl.
  cbn [list_ascii_of_string forallb] in Hd.
  apply andb_true_iff in Hd as [Ha Hd]. apply andb_true_iff in Hd as [Hb Hd].
  apply andb_true_iff in Hd as [Hc Hd]. apply andb_true_iff in Hd as [He _].
  exists a, b, c, e. done.
Qed.

Lemma datetime_of_ymd_groups (D M Y : string) :
  datetime_of_groups [("d", D); ("m", M); ("Y", Y)]
    = if valid_datetime (Datetime (int_of_group Y) (int_of_group M) (int_of_group D) 0 0 0 0)
      then Some (Datetime (int_of_group Y) (int_of_group M) (int_of_group D) 0 0 0 0)
      else None.
Proof. reflexivity. Qed.

Lemma days_in_month_ge (y m : Z) : (28 <= days_in_month y m)%Z.
Proof.
  unfold days_in_month. destruct (m =? 2)%Z; [by destruct (is_leap y)|].
  by destruct (_ || _).
Qed.

Lemma valid_datetime_ymd (t : datetime) :
  valid_datetime t = true ->
  valid_datetime (Datetime (dt_year t) (dt_month t) (dt_day t) 0 0 0 0) = true /\
  (1 <= dt_year t <= 9999)%Z /\ (1 <= dt_month t <= 12)%Z /\ (1 <= dt_day t <= 31)%Z.
Proof.
  unfold valid_datetime. cbn [dt_year dt_month dt_day dt_hour dt_minute dt_second].
  intros H. repeat (apply andb_true_iff in H as [H ?]).
  pose proof (days_in_month_le (dt_year t) (dt_month t)).
  split; [|lia].
  repeat (apply andb_true_iff; split); done.
Qed.

Lemma strptime_ymd (t : datetime) :
  valid_datetime t = true -> (1000 <= dt_year t)%Z ->
  strptime (strftime_ymd t) "%Y-%m-%d"
    = Some (Datetime (dt_year t) (dt_month t) (dt_day t) 0 0 0 0).
Proof.
  intros Hv Hy. destruct (valid_datetime_ymd t Hv) as (Hv' & Hyr & Hm & Hd).
  unfold strptime, strftime_ymd. rewrite <- (pad4_year _ Hy), format_ymd.
  pose proof (int_of_group_pad 4 (dt_year t) ltac:(lia)) as Ey.
  pose proof (int_of_group_pad 2 (dt_month t) ltac:(lia)) as Em.
  pose proof (int_of_group_pad 2 (dt_day t) ltac:(lia)) as Ed.
  pose proof (pad2_length (dt_month t) ltac:(lia)) as Lm.
  pose proof (pad2_length (dt_day t) ltac:(lia)) as Ld.
  destruct (pad4_chars (dt_year t) ltac:(lia)) as (a & b & c & e & Ep & Ha & Hb & Hc & He).
  rewrite Ep in *.
  change (String a (String b (String c (String e EmptyString))) ++ "-"
            ++ pad 2 (dt_month t) ++ "-" ++ pad 2 (dt_day t))
    with (String a (String b (String c (String e
            ("-" ++ pad 2 (dt_month t) ++ "-" ++ pad 2 (dt_day t)))))).
  assert (String.length
            (String a (String b (String c (String e
               ("-" ++ pad 2 (dt_month t) ++ "-" ++ pad 2 (dt_day t)))))) = 10) as Hlen.
  { cbn [String.length]. rewrite !str_length_app, Lm, Ld. reflexivity. }
  unfold match_at, ymd_regex. cbn [rmatch]. rewrite year_group_match by done.
  rewrite Hlen, month_day_match by lia.
  rewrite Nat.eqb_refl, datetime_of_ymd_groups, Ey, Em, Ed. by rewrite Hv'.
Qed.

Section DatesMore.

Variable float_of_str : string -> option spec_float.
Variable float_timeval : spec_float -> Z * Z.
Variable localtime : Z -> Z -> result datetime.

Let normalize_date := _normalize_date float_of_str float_timeval localtime.

(** X23. A date that [_normalize_date] has written is left as it is by
    [_normalize_date]: for a valid date of the year 1000 or later, the text
    [YYYY-MM-DD] is read by the first format and written back the same. So
    a second normalization of a text date changes nothing. *)
Theorem normalize_date_fixed_point (t : datetime) :
  valid_datetime t = true ->
  (1000 <= dt_year t)%Z ->
  normalize_date (VStr (strftime_ymd t)) = Ok (VStr (strftime_ymd t)).
Proof.
  intros Hv Hy. unfold normalize_date, _normalize_date.
  cbn [first_format date_formats]. by rewrite (strptime_ymd t Hv Hy).
Qed.

(** X22. With a [localtime] that gives valid dates, [_normalize_date]
    returns nothing but null or the [%Y-%m-%d] rendering of a valid date.
    That text has the shape [YYYY-MM-DD] exactly when the year is 1000 or
    later: the year is written without leading zeros. *)
Theorem normalize_date_shape (v x : value) :
  (forall sec us t, localtime sec us = Ok t -> valid_datetime t = true) ->
  (forall t, v = VDatetime t -> valid_datetime t = true) ->
  normalize_date v = Ok x ->
  x = VNone \/
  exists t, valid_datetime t = true /\ x = VStr (strftime_ymd t) /\
            is_ymd (strftime_ymd t) = (1000 <=? dt_year t)%Z.
Proof.
  intros Hl Hd. unfold normalize_date, _normalize_date.
  assert (forall w t, fromtimestamp float_timeval localtime w = Ok t ->
                      valid_datetime t = true) as Hts.
  { intros w t. unfold fromtimestamp.
    destruct w as [|b|n|f| | | |]; try discriminate.
    - apply Hl.
    - destruct (time_t_ok n); [apply Hl|discriminate].
    - destruct f; try discriminate.
      + destruct (float_timeval _) as [sec us].
        destruct (time_t_ok sec); [apply Hl|discriminate].
      + destruct (float_timeval _) as [sec us].
        destruct (time_t_ok sec); [apply Hl|discriminate]. }
  assert (forall t, valid_datetime t = true ->
            exists t', valid_datetime t' = true /\
              VStr (strftime_ymd t) = VStr (strftime_ymd t') /\
              is_ymd (strftime_ymd t') = (1000 <=? dt_year t')%Z) as Hshape.
  { intros t Ht. exists t. split; [done|]. split; [done|].
    by apply strftime_ymd_is_ymd. }
  intros H. destruct v as [|b|n|f|s| | |t].
  - injection H as <-. by left.
  - destruct (fromtimestamp _ _ _) as [t|[]] eqn:E; try discriminate H;
      injection H as <-; eauto.
  - destruct (fromtimestamp _ _ _) as [t|[]] eqn:E; try discriminate H;
      injection H as <-; eauto.
  - destruct (fromtimestamp _ _ _) as [t|[]] eqn:E; try discriminate H;
      injection H as <-; eauto.
  - destruct (first_format s date_formats) as [t|] eqn:Ef.
    { injection H as <-. right. apply Hshape. exact (first_format_valid _ _ _ Ef). }
    destruct (float_of_str s); [|injection H as <-; by left].
    destruct (fromtimestamp _ _ _) as [t|[]] eqn:E; try discriminate H;
      injection H as <-; eauto.
  - injection H as <-. by left.
  - injection H as <-. by left.
  - injection H as <-. right. apply Hshape. by apply Hd.
Qed.

End DatesMore.

Lemma normalize_date_fixed_point_witness :
  _normalize_date (fun _ => None) (fun _ => (0, 0)%Z) (fun _ _ => Raise OSError)
    (VStr "1970-01-01") = Ok (VStr "1970-01-01").
Proof.
  exact (normalize_date_fixed_point (fun _ => None) (fun _ => (0, 0)%Z)
           (fun _ _ => Raise OSError) epoch eq_refl ltac:(done)).
Defined.

Lemma normalize_date_shape_witness :
  _normalize_date (fun _ => None) (fun _ => (0, 0)%Z) (fun _ _ => Ok epoch) (VInt 0)
    = Ok (VStr "1970-01-01") /\
  (VStr "1970-01-01" = VNone \/
   exists t, valid_datetime t = true /\ VStr "1970-01-01" = VStr (strftime_ymd t) /\
             is_ymd (strftime_ymd t) = (1000 <=? dt_year t)%Z).
Proof.
  split; [reflexivity|].
  apply (normalize_date_shape (fun _ => None) (fun _ => (0, 0)%Z) (fun _ _ => Ok epoch)
           (VInt 0) (VStr "1970-01-01")).
  - intros sec us t [= <-]. reflexivity.
  - intros t Ht. discriminate Ht.
  - reflexivity.
Defined.

(** ** Batches *)

Section Batches.

Variable py_repr : value -> string.
Variable float_of_str : string -> option spec_float.
Variable float_timeval : spec_float -> Z * Z.
Variable localtime : Z -> Z -> result datetime.

Let transform := transform_trademark py_repr float_of_str float_timeval localtime.
Let transform_all := transform_batch py_repr float_of_str float_timeval localtime.

Lemma transform_batch_cons (r : dict) (rs : list dict) :
  transform_all (r :: rs)
    = let! t := transform r in let! ts := transform_all rs in Ok (t :: ts).
Proof. reflexivity. Qed.

Lemma batch_pipeline_cons (r : dict) (rs outs : list dict) :
  bind (transform_all (r :: rs)) clean_batch = Ok outs <->
  exists c cs, outs = c :: cs /\
    bind (transform r) clean_trademark = Ok c /\
    bind (transform_all rs) clean_batch = Ok cs.
Proof.
  rewrite transform_batch_cons.
  destruct (transform r) as [t|e]; cbn [bind].
  - destruct (transform_all rs) as [ts|e]; cbn [bind clean_batch].
    + destruct (clean_trademark t) as [c|e]; cbn [bind].
      * destruct (clean_batch ts) as [cs|e]; cbn [bind].
        -- split; [intros [= <-]; eauto|].
           by intros (c' & cs' & -> & [= <-] & [= <-]).
        -- split; [done|]. by intros (c' & cs' & _ & _ & ?).
      * split; [done|]. by intros (c' & cs' & _ & ? & _).
    + split; [done|]. by intros (c' & cs' & _ & _ & ?).
  - split; [done|]. by intros (c' & cs' & _ & ? & _).
Qed.

(** X24. A batch goes through [transform_batch] and [clean_batch] exactly
    when every record goes through the two steps, and then the result holds
    the records' own results, one for each, in their order. When the
    transform of a record raises and those before it return, the batch
    raises what that record raises, and no result is returned. *)
Theorem batch_pipeline (records : list dict) :
  (forall outs,
     bind (transform_all records) clean_batch = Ok outs <->
     Forall2 (fun record out => bind (transform record) clean_trademark = Ok out)
       records outs) /\
  (forall pre r post e,
     records = (pre ++ r :: post)%list ->
     Forall (fun x => is_ok (transform x) = true) pre ->
     transform r = Raise e ->
     transform_all records = Raise e).
Proof.
  split.
  - induction records as [|r rs IH]; intros outs.
    + cbn [transform_all transform_batch bind clean_batch]. split.
      * intros [= <-]. constructor.
      * intros H. by inversion H.
    + rewrite batch_pipeline_cons. split.
      * intros (c & cs & -> & Hc & Hcs). constructor; [done|]. by apply IH.
      * intros H. inversion H as [|? c ? cs Hc Hcs]; subst.
        exists c, cs. split; [done|]. split; [done|]. by apply IH.
  - intros pre r post e -> Hpre Hr. induction Hpre as [|x pre Hx _ IH].
    + cbn [app]. rewrite transform_batch_cons. by rewrite Hr.
    + cbn [app]. rewrite transform_batch_cons.
      destruct (transform x); [|discriminate Hx]. cbn [bind]. by rewrite IH.
Qed.

End Batches.

Lemma batch_pipeline_witness :
  transform_batch (fun _ => EmptyString) (fun _ => None) (fun _ => (0, 0)%Z)
    (fun _ _ => Raise OSError) [∅; {["raw_data" := VStr "x"]}; ∅]
  = Raise AttributeError.
Proof.
  apply (proj2 (batch_pipeline (fun _ => EmptyString) (fun _ => None)
                  (fun _ => (0, 0)%Z) (fun _ _ => Raise OSError)
                  [∅; {["raw_data" := VStr "x"]}; ∅])
           [∅] {["raw_data" := VStr "x"]} [∅] AttributeError eq_refl).
  - constructor; [vm_compute; reflexivity|constructor].
  - vm_compute. reflexivity.
Defined.

(** ** The loader *)

Lemma smap_smap (f g : ascii -> ascii) (s : string) :
  smap f (smap g s) = smap (fun c => f (g c)) s.
Proof. induction s as [|c s IH]; [done|]. cbn [smap]. by rewrite IH. Qed.

Lemma smap_ext (f g : ascii -> ascii) (s : string) :
  (forall c, f c = g c) -> smap f s = smap g s.
Proof. intros H. induction s as [|c s IH]; [done|]. cbn [smap]. by rewrite H, IH. Qed.

Lemma all_chars_smap (p : ascii -> bool) (f : ascii -> ascii) (s : string) :
  (forall c, p (f c) = true) -> all_chars p (smap f s) = true.
Proof.
  intros H. induction s as [|c s IH]; [done|]. cbn [smap all_chars]. by rewrite H, IH.
Qed.

Lemma normalized_key_smap (key : string) :
  normalized_key key = smap key_map (strip key).
Proof.
  unfold normalized_key, replace_char, lower. by rewrite !smap_smap.
Qed.

Lemma key_map_char (c : ascii) : key_char (key_map c) = true.
Proof. by destruct c as [[] [] [] [] [] [] [] []]. Qed.

Lemma key_map_idem (c : ascii) : key_map (key_map c) = key_map c.
Proof. by destruct c as [[] [] [] [] [] [] [] []]. Qed.

Lemma key_map_space (c : ascii) : isspace c = false -> isspace (key_map c) = false.
Proof. by destruct c as [[] [] [] [] [] [] [] []]. Qed.

Lemma smap_nil_inv (f : ascii -> ascii) (s : string) :
  smap f s = EmptyString -> s = EmptyString.
Proof. by destruct s. Qed.

Lemma rstrip_smap_fixed (f : ascii -> ascii) (s : string) :
  (forall c, isspace c = false -> isspace (f c) = false) ->
  rstrip s = s -> rstrip (smap f s) = smap f s.
Proof.
  intros Hf. induction s as [|c s IH]; [done|]. intros H.
  pose proof (rstrip_fixed_tail _ _ H) as Hs. cbn [smap rstrip]. rewrite (IH Hs).
  destruct (smap f s) eqn:E; [|done].
  apply smap_nil_inv in E as ->. cbn [rstrip] in H.
  destruct (isspace c) eqn:Ec; [discriminate H|]. by rewrite (Hf _ Ec).
Qed.

Lemma strip_smap_fixed (f : ascii -> ascii) (s : string) :
  (forall c, isspace c = false -> isspace (f c) = false) ->
  strip (smap f (strip s)) = smap f (strip s).
Proof.
  intros Hf. unfold strip at 1.
  assert (starts_clean (smap f (strip s)) = true) as Hc.
  { pose proof (starts_clean_rstrip _ (starts_clean_lstrip s)) as H.
    fold (strip s) in H. destruct (strip s) as [|c r]; [done|].
    cbn [smap starts_clean] in *. apply negb_true_iff in H.
    by rewrite (Hf _ H). }
  rewrite (lstrip_starts_clean _ Hc). apply rstrip_smap_fixed; [done|].
  unfold strip. apply rstrip_idem.
Qed.

(** X25. [normalized_key] gives keys without a space, a hyphen or an
    upper-case ASCII letter, and a key that is already normalized is left as
    it is. *)
Theorem normalized_key_normal_form (key : string) :
  all_chars key_char (normalized_key key) = true /\
  normalized_key (normalized_key key) = normalized_key key.
Proof.
  rewrite !normalized_key_smap. split.
  - apply all_chars_smap, key_map_char.
  - rewrite strip_smap_fixed by apply key_map_space.
    rewrite smap_smap. apply smap_ext, key_map_idem.
Qed.

Section Loader.

Variable isna : value -> result bool.

Let format_record := _format_record isna.

Lemma format_items_provenance (items : list (string * value)) :
  forall (acc f : dict),
  format_items isna items acc = Ok f ->
  forall k v, f !! k = Some v ->
    acc !! k = Some v \/
    exists key value na,
      In (key, value) items /\ isna value = Ok na /\
      k = stored_key na key /\ v = (if na then VNone else value).
Proof.
  induction items as [|[key value] items IH]; intros acc f H k v Hk.
  - injection H as <-. by left.
  - cbn [format_items] in H. inv_bind H.
    destruct (IH _ _ H k v Hk) as [Hacc|(key' & value' & na & Hin & Hna & -> & ->)].
    + destruct a.
      * destruct (decide (key = k)) as [<-|Hne].
        -- rewrite lookup_insert_eq in Hacc. injection Hacc as <-.
           right. exists key, value, true. split; [by left|done].
        -- rewrite lookup_insert_ne in Hacc by done. by left.
      * destruct (decide (normalized_key key = k)) as [<-|Hne].
        -- rewrite lookup_insert_eq in Hacc. injection Hacc as <-.
           right. exists key, value, false. split; [by left|done].
        -- rewrite lookup_insert_ne in Hacc by done. by left.
    + right. exists key', value', na. split; [by right|done].
Qed.

Lemma format_items_untouched (items : list (string * value)) :
  forall (acc f : dict) k,
  format_items isna items acc = Ok f ->
  (forall k' v' na', In (k', v') items -> isna v' = Ok na' -> stored_key na' k' <> k) ->
  f !! k = acc !! k.
Proof.
  induction items as [|[key value] items IH]; intros acc f k H Hno.
  - by injection H as <-.
  - cbn [format_items] in H. inv_bind H.
    rewrite (IH _ _ k H) by (intros k' v' na' Hin; apply Hno; by right).
    pose proof (Hno key value a (or_introl eq_refl) E) as Hne.
    destruct a; cbn [stored_key] in Hne; by rewrite lookup_insert_ne.
Qed.

Lemma format_items_cell (pre post : list (string * value)) key value na :
  forall (acc f : dict),
  format_items isna (pre ++ (key, value) :: post) acc = Ok f ->
  isna value = Ok na ->
  (forall k' v' na', In (k', v') post -> isna v' = Ok na' ->
                     stored_key na' k' <> stored_key na key) ->
  f !! stored_key na key = Some (if na then VNone else value).
Proof.
  induction pre as [|[k0 v0] pre IH]; intros acc f H Hna Hno.
  - cbn [app format_items] in H. rewrite Hna in H. cbn [bind] in H.
    rewrite (format_items_untouched _ _ _ _ H Hno).
    destruct na; cbn [stored_key]; by rewrite lookup_insert_eq.
  - cbn [app format_items] in H. inv_bind H. by apply (IH _ _ H).
Qed.

(** X26. A record that [_format_record] returns holds the whole row under
    [_raw_excel_data]. Each other entry comes from a cell: a missing one is
    stored as null under its header as written, any other under its
    normalized header. A cell that is not missing is found under its
    normalized header, unless a later column is stored under that key. *)
Theorem format_record_cells (row : list (string * value)) (record : dict) :
  format_record row = Ok record ->
  record !! "_raw_excel_data" = Some (VDict (list_to_map row)) /\
  (forall k v, record !! k = Some v ->
     k = "_raw_excel_data" \/
     exists key value na,
       In (key, value) row /\ isna value = Ok na /\
       k = stored_key na key /\ v = (if na then VNone else value)) /\
  (forall pre key value post,
     row = (pre ++ (key, value) :: post)%list ->
     isna value = Ok false ->
     normalized_key key <> "_raw_excel_data" ->
     (forall k' v' na', In (k', v') post -> isna v' = Ok na' ->
                        stored_key na' k' <> normalized_key key) ->
     record !! normalized_key key = Some value).
Proof.
  unfold format_record, _format_record. intros H. inv_bind H. injection H as <-.
  split; [by rewrite lookup_insert_eq|]. split.
  - intros k v Hk. destruct (decide (k = "_raw_excel_data")) as [->|Hne]; [by left|].
    right. rewrite lookup_insert_ne in Hk by done.
    destruct (format_items_provenance _ _ _ E k v Hk) as [Hacc|?]; [|done].
    by rewrite lookup_empty in Hacc.
  - intros pre key value post -> Hna Hne Hno.
    rewrite lookup_insert_ne by done.
    exact (format_items_cell pre post key value false _ _ E Hna Hno).
Qed.

(** X27. For a record of the loader the transformer has one source only:
    unless a cell that is not missing sits under a header that normalizes to
    [raw_data], the raw view and the sheet view are both empty, the row kept
    under [_raw_excel_data] being at the top level of the record. *)
Theorem loader_sources (row : list (string * value)) (record : dict) :
  format_record row = Ok record ->
  (forall key value, In (key, value) row -> isna value = Ok false ->
                     normalized_key key <> "raw_data") ->
  all_sources record = Ok [VDict record; VDict ∅; VDict ∅].
Proof.
  intros H Hraw. unfold format_record, _format_record in H.
  inv_bind H. injection H as <-.
  assert (get_or (<["_raw_excel_data" := VDict (list_to_map row)]> a) "raw_data"
            (VDict ∅) = VDict ∅ \/
          get_or (<["_raw_excel_data" := VDict (list_to_map row)]> a) "raw_data"
            (VDict ∅) = VNone) as Hg.
  { unfold get_or. rewrite lookup_insert_ne by done.
    destruct (a !! "raw_data") as [v|] eqn:Ea; [|by left]. right.
    destruct (format_items_provenance _ _ _ E _ _ Ea)
      as [Hacc|(key & value & na & Hin & Hna & Hk & ->)].
    - by rewrite lookup_empty in Hacc.
    - destruct na; [done|]. cbn [stored_key] in Hk.
      by destruct (Hraw key value Hin Hna). }
  unfold all_sources. destruct Hg as [-> | ->].
  - rewrite py_or_empty_dict. unfold get_or. rewrite lookup_empty.
    by rewrite py_or_empty_dict.
  - cbn [py_or truthy]. unfold get_or. rewrite lookup_empty.
    by rewrite py_or_empty_dict.
Qed.

End Loader.

Section LoadedPipeline.

Variable isna : value -> result bool.
Variable py_repr : value -> string.
Variable float_of_str : string -> option spec_float.
Variable float_timeval : spec_float -> Z * Z.
Variable localtime : Z -> Z -> result datetime.

Let transform := transform_trademark py_repr float_of_str float_timeval localtime.

(** X28. From the sheet to the cleaned record the row is not lost: after
    [_format_record], [transform_trademark] and [clean_trademark] the
    cleaned record holds under [raw_data] the loaded record, and that holds
    the row under [_raw_excel_data]. *)
Theorem loaded_row_kept (row : list (string * value)) (record t c : dict) :
  _format_record isna row = Ok record ->
  transform record = Ok t ->
  clean_trademark t = Ok c ->
  c !! "raw_data" = Some (VDict record) /\
  record !! "_raw_excel_data" = Some (VDict (list_to_map row)).
Proof.
  intros Hf Ht Hc. split.
  - assert (~ In "raw_data" canonical_fields) as Hnc.
    { cbn [In canonical_fields]. intros Hin.
      repeat (destruct Hin as [Hin|Hin]; [discriminate Hin|]). exact Hin. }
    rewrite (clean_trademark_other _ _ _ Hc Hnc).
    unfold transform, transform_trademark in Ht.
    repeat inv_bind Ht. injection Ht as <-.
    by rewrite !lookup_insert_ne, lookup_insert_eq by done.
  - unfold _format_record in Hf. inv_bind Hf. injection Hf as <-.
    by rewrite lookup_insert_eq.
Qed.

End LoadedPipeline.

Lemma sheet_row_headers (key : string) (value : value) :
  In (key, value) sheet_row -> isna_scalar value = Ok false ->
  normalized_key key <> "raw_data".
Proof.
  intros [[= <- <-]|[[= <- <-]|[]]] Hna; [|discriminate Hna].
  vm_compute. discriminate.
Qed.

Lemma format_record_cells_witness :
  exists record,
    _format_record isna_scalar sheet_row = Ok record /\
    record !! "application_number" = Some (VStr "RN123").
Proof.
  destruct (is_ok_true (_format_record isna_scalar sheet_row)) as [record E];
    [vm_compute; reflexivity|].
  exists record. split; [exact E|].
  apply (proj2 (proj2 (format_record_cells isna_scalar sheet_row record E))
           [] "Application Number" (VStr "RN123") [("Title", VNone)] eq_refl eq_refl).
  - vm_compute. discriminate.
  - intros k' v' na' [[= <- <-]|[]] [= <-]. vm_compute. discriminate.
Defined.

Lemma loader_sources_witness :
  exists record,
    _format_record isna_scalar sheet_row = Ok record /\
    all_sources record = Ok [VDict record; VDict ∅; VDict ∅].
Proof.
  destruct (is_ok_true (_format_record isna_scalar sheet_row)) as [record E];
    [vm_compute; reflexivity|].
  exists record. split; [exact E|].
  exact (loader_sources isna_scalar sheet_row record E sheet_row_headers).
Defined.

Lemma loaded_row_kept_witness :
  exists record t c,
    _format_record isna_scalar sheet_row = Ok record /\
    transform_trademark (fun _ => EmptyString) (fun _ => None) (fun _ => (0, 0)%Z)
      (fun _ _ => Raise OSError) record = Ok t /\
    clean_trademark t = Ok c /\
    c !! "raw_data" = Some (VDict record).
Proof.
  destruct (is_ok_true
              (bind (_format_record isna_scalar sheet_row)
                 (fun record =>
                    bind (transform_trademark (fun _ => EmptyString) (fun _ => None)
                            (fun _ => (0, 0)%Z) (fun _ _ => Raise OSError) record)
                         clean_trademark))) as [c E]; [vm_compute; reflexivity|].
  destruct (bind_ok _ _ _ E) as (record & Hf & E').
  destruct (bind_ok _ _ _ E') as (t & Ht & Hc).
  exists record, t, c. split; [exact Hf|]. split; [exact Ht|]. split; [exact Hc|].
  exact (proj1 (loaded_row_kept _ _ _ _ _ _ _ _ _ Hf Ht Hc)).
Defined.
